(** * Real-time CPU management: RtState, the real-time policy, QoS classes,
      balanced-resource scoring and the container lifecycle hooks

    A shallow embedding of the Go sources

      - package state        RtState (rt_state.go)
      - package cpumanager   realTimePolicy: Start, initState, AddContainer,
                             RemoveContainer, firstFit, worstFit, bestFit,
                             assignableCPUs; manager: AddContainer,
                             RemoveContainer, removeStaleState,
                             findContainerIDByName (cpu_manager.go)
      - package qos          GetPodQOS
      - package priorities   balancedResourceScorer, fractionOfCapacity,
                             variance
      - package cm           PreStartContainer, PreStopContainer,
                             PostStopContainer, ensureCpuRtMultiRuntime,
                             writeRtFile, writeCpuRtMultiRuntimeFile,
                             readCpuRtMultiRuntimeFile
                             (internal_container_lifecycle.go)

    Go's [float64] is Rocq's primitive binary64 [float]; its operations are
    the IEEE 754 ones, specified by [FloatAxioms] over [SpecFloat].  Go maps
    are [gmap]s.  Go leaves the order of a [range] over a map unspecified:
    where the result depends on it, the order of the visit is an explicit
    argument; where the loop body commutes, the loop is a fold over the
    map and is shown not to depend on the order. *)

From Stdlib Require Import ZArith Floats Lia.
From stdpp Require Import gmap strings list fin_maps sorting.

Local Open Scope Z_scope.

(* ===================================================================== *)
(** ** float64 *)
(* ===================================================================== *)

Module Float64.

(** [float64(x)] for an integer [x]: rounding to nearest, ties to even. *)
Definition of_int (z : Z) : float :=
  SF2Prim (binary_normalize prec emax z 0 false).

(** The integer part of [m * 2^e] for a positive mantissa. *)
Definition int_part (m : positive) (e : Z) : Z :=
  match e with
  | Z0 => Zpos m
  | Zpos _ => Z.shiftl (Zpos m) e
  | Zneg _ => Z.shiftr (Zpos m) (- e)
  end.

Definition int64_min : Z := - 2 ^ 63.
Definition int64_max : Z := 2 ^ 63 - 1.

(** [int64(f)]: Go discards the fraction (truncation towards zero).  When
    the value is not representable (NaN, infinities, magnitude beyond
    int64) Go leaves the result implementation-dependent: [None]. *)
Definition to_int64 (f : float) : option Z :=
  match Prim2SF f with
  | S754_zero _ => Some 0
  | S754_finite s m e =>
      let z := if s then - int_part m e else int_part m e in
      if (int64_min <=? z) && (z <=? int64_max) then Some z else None
  | _ => None
  end.


(** [math.Abs]. *)
Definition Abs (f : float) : float := PrimFloat.abs f.

(** Go's comparison operators on float64. *)
Definition gt (x y : float) : bool := PrimFloat.ltb y x.
Definition ge (x y : float) : bool := PrimFloat.leb y x.
Definition lt (x y : float) : bool := PrimFloat.ltb x y.
Definition eq (x y : float) : bool := PrimFloat.eqb x y.

(** *** The order of binary64 values

    Every value except NaN has a key in [Z * Z * Z], ordered
    lexicographically; [SFcompare] is the comparison of the keys. *)

Definition key (x : spec_float) : option (Z * Z * Z) :=
  match x with
  | S754_nan => None
  | S754_zero _ => Some (0, 0, 0)
  | S754_infinity s => Some (if s then -2 else 2, 0, 0)
  | S754_finite s m e =>
      Some (if s then (-1, - e, Zneg m) else (1, e, Zpos m))
  end.

Definition lex (a b : Z * Z * Z) : comparison :=
  let '(c1, e1, m1) := a in
  let '(c2, e2, m2) := b in
  match c1 ?= c2 with
  | Eq => match e1 ?= e2 with Eq => m1 ?= m2 | r => r end
  | r => r
  end.

Definition lex_le (a b : Z * Z * Z) : Prop :=
  let '(c1, e1, m1) := a in
  let '(c2, e2, m2) := b in
  c1 < c2 \/ (c1 = c2 /\ (e1 < e2 \/ (e1 = e2 /\ m1 <= m2))).

Definition lex_lt (a b : Z * Z * Z) : Prop :=
  let '(c1, e1, m1) := a in
  let '(c2, e2, m2) := b in
  c1 < c2 \/ (c1 = c2 /\ (e1 < e2 \/ (e1 = e2 /\ m1 < m2))).

(** A float that is neither NaN nor an infinity. *)
Definition finite (x : float) : Prop :=
  match Prim2SF x with
  | S754_zero _ | S754_finite _ _ _ => True
  | _ => False
  end.

(** A float that is not NaN. *)
Definition ordered (x : float) : Prop := is_Some (key (Prim2SF x)).

End Float64.

(* ===================================================================== *)
(** ** sort.SliceStable *)
(* ===================================================================== *)

(** [precedes x y l]: [x] occurs in [l] at an earlier position than [y]. *)
Definition precedes {A} (x y : A) (l : list A) : Prop :=
  exists i j : nat, (i < j)%nat /\ l !! i = Some x /\ l !! j = Some y.

Section SliceStable.
Context {A : Type} (less : A -> A -> bool).

(** [place x l] puts [x] into the sorted [l], behind exactly those
    elements that are strictly less than [x]. *)
Fixpoint place (x : A) (l : list A) : list A :=
  match l with
  | [] => [x]
  | y :: l' => if less y x then y :: place x l' else x :: y :: l'
  end.

(** Go's [sort.SliceStable(s, less)] is library code; its contract is
    that it sorts [s] by [less] "while keeping the original order of equal
    elements".  For a strict weak order that contract has one result,
    which stable insertion computes. *)
Definition SliceStable (l : list A) : list A := foldr place [] l.

(** The order of a sorted slice: what comes later is not strictly less. *)
Definition no_later (x y : A) : Prop := less y x = false.

End SliceStable.

(* ===================================================================== *)
(** ** Panics *)
(* ===================================================================== *)

(** A Go call either returns or panics. *)
Inductive outcome (A : Type) : Type :=
| Returns (a : A)
| Panics (msg : string).
Arguments Returns {A} a.
Arguments Panics {A} msg.

Global Instance outcome_ret : MRet outcome := fun A a => Returns a.
Global Instance outcome_bind : MBind outcome := fun A B k o =>
  match o with
  | Returns a => k a
  | Panics msg => Panics msg
  end.

(* ===================================================================== *)
(** ** package state *)
(* ===================================================================== *)

(** A [cpuset.CPUSet] is a set of CPU ids. *)
Abbreviation CPUSet := (gset Z).

Module state.

(** Modelled from the spec: the embedded [state.State] (the checkpoint
    state), whose implementation is not part of these sources: a mapping
    [containerId -> CpuSet] plus a [defaultCpuSet]. *)
Record State : Type := {
  assignments : gmap string CPUSet;
  defaultCPUSet : CPUSet;
}.

Definition GetCPUSet (s : State) (containerID : string) : option CPUSet :=
  assignments s !! containerID.

Definition SetCPUSet (s : State) (containerID : string) (set : CPUSet) : State :=
  {| assignments := <[containerID := set]> (assignments s);
     defaultCPUSet := defaultCPUSet s |}.

Definition State_Delete (s : State) (containerID : string) : State :=
  {| assignments := delete containerID (assignments s);
     defaultCPUSet := defaultCPUSet s |}.

Definition State_SetDefaultCPUSet (s : State) (set : CPUSet) : State :=
  {| assignments := assignments s; defaultCPUSet := set |}.

(** [type RtState struct { State; containerToUtil; cpuToUtil }] *)
Record RtState : Type := {
  State_ : State;
  containerToUtil : gmap string float;
  cpuToUtil : gmap Z float;
}.

(** Reading a Go [map[int]float64] gives 0 for a missing key. *)
Definition util_at (m : gmap Z float) (cpu : Z) : float :=
  default 0%float (m !! cpu).

(** [for _, cpu := range set.ToSliceNoSort() { m[cpu] = f(m[cpu]) }]: the
    CPUs of a set are distinct, so each entry is updated once, whatever
    the order. *)
Definition update_each (f : float -> float) (set : CPUSet) (m : gmap Z float) : gmap Z float :=
  set_fold (fun cpu m => <[cpu := f (util_at m cpu)]> m) m set.

Definition NewRtState (s : State) : RtState :=
  {| State_ := s;
     containerToUtil := ∅;
     cpuToUtil := set_fold (fun cpu m => <[cpu := 0%float]> m) ∅ (defaultCPUSet s) |}.

Definition GetRtCPUSetAndUtilOfContainer (s : RtState) (containerID : string)
  : option (CPUSet * float) :=
  match GetCPUSet (State_ s) containerID with
  | None => None
  | Some cpuSet =>
      match containerToUtil s !! containerID with
      | None => None
      | Some util => Some (cpuSet, util)
      end
  end.

Definition SetRtCPUSetAndUtilOfContainer
    (s : RtState) (containerID : string) (set : CPUSet) (util : float) : outcome RtState :=
  cleaned ←
    match containerToUtil s !! containerID with
    | Some oldUtil =>
        (* container was already set, we must first clean *)
        match GetCPUSet (State_ s) containerID with
        | None => Panics "found utilization but not cpuset"
        | Some oldSet =>
            Returns (update_each (fun v => v - oldUtil)%float oldSet (cpuToUtil s))
        end
    | None => Returns (cpuToUtil s)
    end;
  Returns {| State_ := SetCPUSet (State_ s) containerID set;
             containerToUtil := <[containerID := util]> (containerToUtil s);
             cpuToUtil := update_each (fun v => v + util)%float set cleaned |}.

Definition Delete (s : RtState) (containerID : string) : outcome RtState :=
  match GetCPUSet (State_ s) containerID with
  | None => Panics "manage this error"
  | Some _ =>
      match GetRtCPUSetAndUtilOfContainer s containerID with
      | None =>
          (* it wasn't assigned using SetRt *)
          Returns {| State_ := State_Delete (State_ s) containerID;
                     containerToUtil := containerToUtil s;
                     cpuToUtil := cpuToUtil s |}
      | Some (cpuSet, containerUtil) =>
          Returns {| State_ := State_Delete (State_ s) containerID;
                     containerToUtil := delete containerID (containerToUtil s);
                     cpuToUtil :=
                       update_each
                         (fun v => let v' := (v - containerUtil)%float in
                                   if Float64.lt v' 0 then 0%float else v')
                         cpuSet (cpuToUtil s) |}
      end
  end.

(** [CpuToUtilMap] returns a copy; a [gmap] is a value already. *)
Definition CpuToUtilMap (s : RtState) : gmap Z float := cpuToUtil s.

Definition SetDefaultCPUSet (s : RtState) (set : CPUSet) : RtState :=
  {| State_ := State_SetDefaultCPUSet (State_ s) set;
     containerToUtil := containerToUtil s;
     cpuToUtil := set_fold (fun cpu m => <[cpu := 0%float]> m) ∅ set |}.

(** The invariant of the two container maps: a container with a recorded
    utilisation has a CPU set.  [SetRtCPUSetAndUtilOfContainer] panics
    exactly where it fails. *)
Definition consistent (s : RtState) : Prop :=
  dom (containerToUtil s) ⊆ dom (assignments (State_ s)).

Global Instance consistent_dec (s : RtState) : Decision (consistent s).
Proof. unfold consistent. apply _. Defined.

(** A utilisation map without load: every entry is 0. *)
Definition idle (m : gmap Z float) : Prop :=
  forall cpu v, m !! cpu = Some v -> v = 0%float.

(** Recorded utilisations that are not negative (and not NaN). *)
Definition nonnegative (m : gmap string float) : Prop :=
  forall containerID util, m !! containerID = Some util -> PrimFloat.leb 0 util = true.

(** The clamp of [Delete]: [m[cpu] -= util; if m[cpu] < 0 { m[cpu] = 0 }]. *)
Definition release (containerUtil v : float) : float :=
  let v' := (v - containerUtil)%float in
  if Float64.lt v' 0 then 0%float else v'.

End state.

(* ===================================================================== *)
(** ** package cpumanager: the real-time policy *)
(* ===================================================================== *)

Module cpumanager.
Import state.

Record realTimePolicy : Type := {
  topology : CPUSet;            (* topology.CPUDetails.CPUs() *)
  allocableRtUtil : float;      (* allocable utilization *)
  numReservedCpus : Z;          (* number of reserved cpus *)
  reservedCpus : CPUSet;        (* unassignable cpus *)
}.

(** Modelled from the spec: the resource names of the real-time requests
    (section 6), which [CpuRtPeriod()], [CpuRtRuntime()] and [CpuRt()]
    look up; the accessors are declared outside these sources. *)
Definition ResourceRtPeriod : string := "cpu-rt-period".
Definition ResourceRtRuntime : string := "cpu-rt-runtime".
Definition ResourceRtCpu : string := "cpu-rt-cpu".

(** A [v1.Container], as far as the policy reads it: the [Value()] of each
    requested quantity (an int64), by resource name. *)
Record Container : Type := {
  Name : string;
  Requests : gmap string Z;
}.

Definition rtRequests (container : Container) : Z * Z * Z :=
  (default 0 (Requests container !! ResourceRtPeriod),
   default 0 (Requests container !! ResourceRtRuntime),
   default 0 (Requests container !! ResourceRtCpu)).

(** [fmt.Errorf("container %s doesn't fit", containerID)] *)
Inductive error : Type := DoesNotFit (containerID : string).

Record scoredCpu : Type := { cpu : Z; score : float }.

(** The first loop of [worstFit] and [bestFit], over the map entries in
    the order [range] visits them. *)
Fixpoint scoreCpus (p : realTimePolicy) (cpuToUtil : list (Z * float)) (reqUtil : float)
  : list scoredCpu :=
  match cpuToUtil with
  | [] => []
  | (cpu, util) :: rest =>
      let score := (allocableRtUtil p - util - reqUtil)%float in
      if Float64.gt score 0
      then {| cpu := cpu; score := score |} :: scoreCpus p rest reqUtil
      else scoreCpus p rest reqUtil
  end.

(** [worstFit] assigns the request to the most free cpus.  [cpuToUtil] is
    the map as the [range] loop visits it. *)
Definition worstFit (p : realTimePolicy) (cpuToUtil : list (Z * float))
    (reqUtil : float) (reqCpus : Z) : list Z :=
  let scoredCpus := scoreCpus p cpuToUtil reqUtil in
  if Z.of_nat (length scoredCpus) <? reqCpus then []
  else
    let sorted := SliceStable (fun i j => Float64.gt (score i) (score j)) scoredCpus in
    cpu <$> take (Z.to_nat reqCpus) sorted.

Definition bestFit (p : realTimePolicy) (cpuToUtil : list (Z * float))
    (reqUtil : float) (reqCpus : Z) : list Z :=
  let scoredCpus := scoreCpus p cpuToUtil reqUtil in
  if Z.of_nat (length scoredCpus) <? reqCpus then []
  else
    let sorted := SliceStable (fun i j => Float64.lt (score i) (score j)) scoredCpus in
    cpu <$> take (Z.to_nat reqCpus) sorted.

(** [AddContainer]; [range] is the order in which [worstFit] visits the
    copy of the utilisation map. *)
Definition AddContainer (p : realTimePolicy) (s : RtState) (range : list (Z * float))
    (container : Container) (containerID : string) : outcome (RtState * option error) :=
  let '(reqPeriod, reqRuntime, reqCpus) := rtRequests container in
  let reqUtil :=
    if reqPeriod =? 0 then 0%float
    else (Float64.of_int reqRuntime / Float64.of_int reqPeriod)%float in
  if Float64.eq reqUtil 0 then
    (* no cpu management *)
    Returns (s, None)
  else if GetRtCPUSetAndUtilOfContainer s containerID is Some _ then
    Returns (s, None)
  else
    let cpus := worstFit p range reqUtil reqCpus in
    if Z.of_nat (length cpus) <? reqCpus then
      Returns (s, Some (DoesNotFit containerID))
    else
      let fittingCpusSet : CPUSet := list_to_set cpus in
      s' ← SetRtCPUSetAndUtilOfContainer s containerID fittingCpusSet reqUtil;
      Returns (s', None).

Definition RemoveContainer (p : realTimePolicy) (s : RtState) (containerID : string)
  : outcome (RtState * option error) :=
  match GetRtCPUSetAndUtilOfContainer s containerID with
  | None =>
      (* container not assigned by real-time policy *)
      Returns (s, None)
  | Some _ =>
      s' ← Delete s containerID;
      Returns (s', None)
  end.

(** The utilisation and the CPU count a request asks for, as
    [AddContainer] computes them. *)
Definition reqUtilOf (container : Container) : float :=
  let '(reqPeriod, reqRuntime, _) := rtRequests container in
  if reqPeriod =? 0 then 0%float
  else (Float64.of_int reqRuntime / Float64.of_int reqPeriod)%float.

Definition reqCpusOf (container : Container) : Z :=
  let '(_, _, reqCpus) := rtRequests container in reqCpus.

(** Residual headroom of a CPU and the test [worstFit] applies to it. *)
Definition headroom (p : realTimePolicy) (reqUtil util : float) : float :=
  (allocableRtUtil p - util - reqUtil)%float.

Definition fits (p : realTimePolicy) (reqUtil util : float) : bool :=
  Float64.gt (headroom p reqUtil util) 0.

(** The comparison [worstFit] hands to [sort.SliceStable], and the scored
    CPUs it orders: those whose score is not NaN. *)
Abbreviation worst_less := (fun i j : scoredCpu => Float64.gt (score i) (score j)).

Definition scored_ok (sc : scoredCpu) : Prop := Float64.ordered (score sc).

(** The candidate CPUs of a snapshot. *)
Definition candidates (p : realTimePolicy) (reqUtil : float) (m : gmap Z float) : gset Z :=
  dom (filter (fun kv => fits p reqUtil kv.2 = true) m).

(** The comparison [bestFit] hands to [sort.SliceStable]. *)
Abbreviation best_less := (fun i j : scoredCpu => Float64.lt (score i) (score j)).

(** The loop of [firstFit] over the map entries in the order [range]
    visits them; it ends at the [break] or with the map. *)
Fixpoint firstFit_loop (p : realTimePolicy) (cpuToUtil : list (Z * float))
    (reqUtil : float) (reqCpus : Z) (fittingCpus : list Z) : list Z :=
  match cpuToUtil with
  | [] => fittingCpus
  | (cpu, util) :: rest =>
      if Float64.lt (util + reqUtil) (allocableRtUtil p) then
        let fittingCpus := fittingCpus ++ [cpu] in
        if Z.of_nat (length fittingCpus) =? reqCpus then fittingCpus
        else firstFit_loop p rest reqUtil reqCpus fittingCpus
      else firstFit_loop p rest reqUtil reqCpus fittingCpus
  end.

(** [firstFit] assigns the request to the first admittable cpus it
    finds. *)
Definition firstFit (p : realTimePolicy) (cpuToUtil : list (Z * float))
    (reqUtil : float) (reqCpus : Z) : list Z :=
  let fittingCpus := firstFit_loop p cpuToUtil reqUtil reqCpus [] in
  if Z.of_nat (length fittingCpus) <? reqCpus then [] else fittingCpus.

(** The test [firstFit] applies to a CPU, and the CPUs of a visit that
    pass it. *)
Definition admits (p : realTimePolicy) (reqUtil util : float) : bool :=
  Float64.lt (util + reqUtil) (allocableRtUtil p).

Definition admitted (p : realTimePolicy) (cpuToUtil : list (Z * float)) (reqUtil : float)
  : list Z :=
  (filter (fun kv => admits p reqUtil kv.2 = true) cpuToUtil).*1.

(** [for containerID := range assignments { s.Delete(containerID) }],
    visiting the keys in the order [range]. *)
Fixpoint deleteEach (s : RtState) (range : list string) : outcome RtState :=
  match range with
  | [] => Returns s
  | containerID :: rest => s' ← Delete s containerID; deleteEach s' rest
  end.

(** [initState]; [range] is the order in which the loop visits the keys
    of [s.GetCPUAssignments()].  It has no error to return. *)
Definition initState (p : realTimePolicy) (s : RtState) (range : list string)
  : outcome (RtState * option error) :=
  let allCPUs := topology p in
  s' ← deleteEach (SetDefaultCPUSet s allCPUs) range;
  Returns (s', None).

Definition Start (p : realTimePolicy) (s : RtState) (range : list string) : outcome RtState :=
  '(s', err) ← initState p s range;
  if err is Some _
  then Panics "[cpumanager] - please drain node and remove policy state file"
  else Returns s'.

(** [assignableCPUs] returns the set of unassigned CPUs minus the
    reserved set. *)
Definition assignableCPUs (p : realTimePolicy) (s : RtState) : CPUSet :=
  defaultCPUSet (State_ s) ∖ reservedCpus p.

(** A call of the policy on its state, and a sequence of such calls, each
    on the state the previous one left; the errors the calls return are
    collected. *)
Inductive policyCall : Type :=
| CallAddContainer (range : list (Z * float)) (container : Container) (containerID : string)
| CallRemoveContainer (containerID : string).

Definition policyStep (p : realTimePolicy) (s : RtState) (c : policyCall)
  : outcome (RtState * option error) :=
  match c with
  | CallAddContainer range container containerID => AddContainer p s range container containerID
  | CallRemoveContainer containerID => RemoveContainer p s containerID
  end.

Fixpoint policyCalls (p : realTimePolicy) (s : RtState) (calls : list policyCall)
  : outcome (RtState * list (option error)) :=
  match calls with
  | [] => Returns (s, [])
  | c :: rest =>
      '(s', err) ← policyStep p s c;
      '(s'', errs) ← policyCalls p s' rest;
      Returns (s'', err :: errs)
  end.

(** *** The manager (cpu_manager.go)

    The manager holds the policy and the state and serialises the calls
    below on its mutex; one call is modelled, from [Lock] to its return.
    The collaborators it is given are parameters. *)
Module manager.
Section manager.
Context {E : Type}.

(** Modelled from the spec: [GetCPUSetOrDefault] of the embedded state
    ("read back the resulting CPU set"), and the container runtime's
    [UpdateContainerResources], which gets the CPU set and returns an
    error or nil. *)
Variable GetCPUSetOrDefault : State -> string -> CPUSet.
Variable UpdateContainerResources : string -> CPUSet -> option E.

(** An error of the manager is the policy's or the runtime's. *)
Inductive managerError : Type :=
| PolicyError (err : error)
| RuntimeError (err : E).

Definition updateContainerCPUSet (containerID : string) (cpus : CPUSet) : option E :=
  UpdateContainerResources containerID cpus.

(** [manager.AddContainer] *)
Definition AddContainer (p : realTimePolicy) (s : RtState) (range : list (Z * float))
    (c : Container) (containerID : string) : outcome (RtState * option managerError) :=
  '(s, err) ← cpumanager.AddContainer p s range c containerID;
  match err with
  | Some err => Returns (s, Some (PolicyError err))
  | None =>
      let cpus := GetCPUSetOrDefault (State_ s) containerID in
      if decide (cpus ≠ ∅) then
        match updateContainerCPUSet containerID cpus with
        | Some err =>
            (* rollback; the error of RemoveContainer is logged only *)
            '(s, _) ← cpumanager.RemoveContainer p s containerID;
            Returns (s, Some (RuntimeError err))
        | None => Returns (s, None)
        end
      else
        (* update container resources is skipped due to cpu set is empty *)
        Returns (s, None)
  end.

(** [manager.RemoveContainer] *)
Definition RemoveContainer (p : realTimePolicy) (s : RtState) (containerID : string)
  : outcome (RtState * option managerError) :=
  '(s, err) ← cpumanager.RemoveContainer p s containerID;
  match err with
  | Some err => Returns (s, Some (PolicyError err))
  | None => Returns (s, None)
  end.

(** A [v1.Pod] and its [v1.PodStatus], as far as [removeStaleState] reads
    them: the names of the containers, and per status the name and the
    container ID. *)
Record Pod : Type := {
  UID : string;
  InitContainers : list string;
  Containers : list string;
}.

Record ContainerStatus : Type := {
  StatusName : string;
  ContainerID : string;
}.

Record PodStatus : Type := {
  InitContainerStatuses : list ContainerStatus;
  ContainerStatuses : list ContainerStatus;
}.

(** [kubecontainer.ContainerID.ParseString], giving the parsed [ID] or an
    error. *)
Variable ParseString : string -> E + string.

Inductive findError : Type :=
| ParseError (err : E)
| UnableToFindID (name : string).

Definition findContainerIDByName (status : PodStatus) (name : string)
  : findError + string :=
  let allStatuses := InitContainerStatuses status ++ ContainerStatuses status in
  match
    List.find (fun container =>
                 String.eqb (StatusName container) name
                 && negb (String.eqb (ContainerID container) EmptyString))
              allStatuses
  with
  | Some container =>
      match ParseString (ContainerID container) with
      | inl err => inl (ParseError err)
      | inr id => inr id
      end
  | None => inl (UnableToFindID name)
  end.

(** The inner loop that collects the container IDs of one pod; [None] is
    the early [return]. *)
Fixpoint podContainerIDs (pstatus : PodStatus) (names : list string)
    (activeContainers : gset string) : option (gset string) :=
  match names with
  | [] => Some activeContainers
  | name :: rest =>
      match findContainerIDByName pstatus name with
      | inl _ =>
          (* If even one container does not have it's containerID set, skip state removal. *)
          None
      | inr containerID => podContainerIDs pstatus rest ({[ containerID ]} ∪ activeContainers)
      end
  end.

(** The outer loop over the active pods. *)
Fixpoint activeContainerIDs (GetPodStatus : string -> option PodStatus)
    (activePods : list Pod) (activeContainers : gset string) : option (gset string) :=
  match activePods with
  | [] => Some activeContainers
  | pod :: rest =>
      match GetPodStatus (UID pod) with
      | None =>
          (* If even one pod does not have it's status set, skip state removal. *)
          None
      | Some pstatus =>
          match podContainerIDs pstatus (InitContainers pod ++ Containers pod)
                  activeContainers with
          | None => None
          | Some activeContainers => activeContainerIDs GetPodStatus rest activeContainers
          end
      end
  end.

(** An active pod whose containers can all be resolved, and the
    container IDs the active pods resolve to. *)
Definition resolves (GetPodStatus : string -> option PodStatus) (pod : Pod) : Prop :=
  exists pstatus,
    GetPodStatus (UID pod) = Some pstatus /\
    Forall (fun name => exists containerID,
                findContainerIDByName pstatus name = inr containerID)
           (InitContainers pod ++ Containers pod).

Definition isActive (GetPodStatus : string -> option PodStatus) (activePods : list Pod)
    (containerID : string) : Prop :=
  exists pod pstatus name,
    pod ∈ activePods /\ GetPodStatus (UID pod) = Some pstatus /\
    name ∈ InitContainers pod ++ Containers pod /\
    findContainerIDByName pstatus name = inr containerID.

(** A pod that stops the sweep: it has no status, or one of its
    containers has no container ID that can be resolved. *)
Definition unresolved (GetPodStatus : string -> option PodStatus) (pod : Pod) : Prop :=
  match GetPodStatus (UID pod) with
  | None => True
  | Some pstatus =>
      Exists (fun name => exists err, findContainerIDByName pstatus name = inl err)
             (InitContainers pod ++ Containers pod)
  end.

(** The last loop, over the keys of [m.state.GetCPUAssignments()] in the
    order [range]. *)
Fixpoint removeInactive (p : realTimePolicy) (s : RtState) (activeContainers : gset string)
    (range : list string) : outcome RtState :=
  match range with
  | [] => Returns s
  | containerID :: rest =>
      if decide (containerID ∈ activeContainers)
      then removeInactive p s activeContainers rest
      else
        '(s', _) ← cpumanager.RemoveContainer p s containerID;
        removeInactive p s' activeContainers rest
  end.

(** [removeStaleState] *)
Definition removeStaleState (p : realTimePolicy) (s : RtState) (AllReady : bool)
    (activePods : list Pod) (GetPodStatus : string -> option PodStatus)
    (range : list string) : outcome RtState :=
  if negb AllReady then Returns s
  else if (length activePods =? 0)%nat then
    (* If there are no active pods, skip the removal of stale state. *)
    Returns s
  else
    match activeContainerIDs GetPodStatus activePods ∅ with
    | None => Returns s
    | Some activeContainers => removeInactive p s activeContainers range
    end.

End manager.
Arguments PolicyError {E} err.
Arguments RuntimeError {E} err.
End manager.

End cpumanager.

(* ===================================================================== *)
(** ** package qos: the QoS class of a pod *)
(* ===================================================================== *)

Module qos.

(** Modelled from the spec: the names of the recognised resources
    (section 6); the constants [core.ResourceCPU] etc. are declared
    outside these sources. *)
Definition ResourceCPU : string := "cpu".
Definition ResourceMemory : string := "memory".
Definition ResourceRtRuntime : string := "cpu-rt-runtime".
Definition ResourceRtPeriod : string := "cpu-rt-period".
Definition ResourceRtCpu : string := "cpu-rt-cpu".

(** Modelled from the spec: [resource.Quantity], a type declared outside
    these sources ("quantities are compared against zero and for equality;
    equality is exact").  A quantity is an exact fixed-point number; it is
    held here as the integer count of its finest unit, so that [Cmp] is
    the comparison of integers and [Add] their sum. *)
Abbreviation Quantity := Z.
Abbreviation ResourceList := (gmap string Quantity).

Record Container : Type := {
  Requests : ResourceList;
  Limits : ResourceList;
}.

Record Pod : Type := {
  Containers : list Container;
  InitContainers : list Container;
}.

Inductive PodQOSClass : Type :=
| PodQOSGuaranteed
| PodQOSBurstable
| PodQOSBestEffort.

Definition supportedQoSComputeResources : gset string :=
  {[ ResourceCPU; ResourceMemory; ResourceRtRuntime; ResourceRtPeriod; ResourceRtCpu ]}.

Definition isSupportedQoSComputeResource (name : string) : bool :=
  bool_decide (name ∈ supportedQoSComputeResources).

(** [quantity.Cmp(zeroQuantity) == 1] *)
Definition isPositive (quantity : Quantity) : bool := 0 <? quantity.

(** The body shared by the two inner loops: add [quantity] to the total
    kept for [name]. *)
Definition addTo (name : string) (quantity : Quantity) (total : ResourceList) : ResourceList :=
  match total !! name with
  | None => <[name := quantity]> total
  | Some sum => <[name := quantity + sum]> total
  end.

(** The body of [for name, quantity := range container.Resources.Requests]. *)
Definition requestStep (name : string) (quantity : Quantity) (requests : ResourceList)
  : ResourceList :=
  if negb (isSupportedQoSComputeResource name) then requests
  else if isPositive quantity then addTo name quantity requests
  else requests.

(** The body of [for name, quantity := range container.Resources.Limits],
    which also collects [qosLimitsFound]. *)
Definition limitStep (name : string) (quantity : Quantity)
    (st : gset string * ResourceList) : gset string * ResourceList :=
  let '(qosLimitsFound, limits) := st in
  if negb (isSupportedQoSComputeResource name) then (qosLimitsFound, limits)
  else if isPositive quantity
       then ({[ name ]} ∪ qosLimitsFound, addTo name quantity limits)
       else (qosLimitsFound, limits).

(** The two loops.  Their bodies commute, so the order in which [range]
    visits the map does not show in the result ([processRequests_any_order]
    and [processLimits_any_order] below). *)
Definition processRequests (list : ResourceList) (requests : ResourceList) : ResourceList :=
  map_fold requestStep requests list.

Definition processLimits (list : ResourceList) (limits : ResourceList)
  : gset string * ResourceList :=
  map_fold limitStep (∅, limits) list.

(** One round of the loop over all containers, on the variables
    [requests], [limits] and [isGuaranteed]. *)
Definition processContainer (st : ResourceList * ResourceList * bool) (container : Container)
  : ResourceList * ResourceList * bool :=
  let '(requests, limits, isGuaranteed) := st in
  let requests := processRequests (Requests container) requests in
  let '(qosLimitsFound, limits) := processLimits (Limits container) limits in
  let isGuaranteed :=
    if negb (bool_decide (ResourceMemory ∈ qosLimitsFound)
             && bool_decide (ResourceCPU ∈ qosLimitsFound))
       && negb (bool_decide (ResourceRtRuntime ∈ qosLimitsFound))
    then false else isGuaranteed in
  (requests, limits, isGuaranteed).

(** [GetPodQOS] returns the QoS class of a pod. *)
Definition GetPodQOS (pod : Pod) : PodQOSClass :=
  let allContainers := Containers pod ++ InitContainers pod in
  let '(requests, limits, isGuaranteed) :=
    foldl processContainer (∅, ∅, true) allContainers in
  if (size requests =? 0)%nat && (size limits =? 0)%nat then PodQOSBestEffort
  else
    (* Check is requests match limits for all resources. *)
    let isGuaranteed :=
      isGuaranteed &&
      forallb (fun '(name, req) =>
                 match limits !! name with
                 | Some lim => lim =? req
                 | None => false
                 end) (map_to_list requests) in
    if isGuaranteed && (size requests =? size limits)%nat then PodQOSGuaranteed
    else PodQOSBurstable.

(** *** The classification in the words of the specification *)

(** The positive quantities of a resource list under recognised names. *)
Definition positivePart (list : ResourceList) : ResourceList :=
  filter (fun kv => kv.1 ∈ supportedQoSComputeResources /\ 0 < kv.2) list.

(** The aggregate of the positive quantities of several lists: per name,
    their sum. *)
Abbreviation plus := (fun a b : Z => Some (a + b)).

Definition aggregate (lists : list ResourceList) : ResourceList :=
  foldr (union_with plus) ∅ (positivePart <$> lists).

Definition allContainers (pod : Pod) : list Container :=
  Containers pod ++ InitContainers pod.

(** [R] and [L]. *)
Definition R (pod : Pod) : ResourceList := aggregate (Requests <$> allContainers pod).
Definition L (pod : Pod) : ResourceList := aggregate (Limits <$> allContainers pod).

(** A container's positive limits contain both cpu and memory, or
    contain rt-runtime. *)
Definition LimitsComplete (container : Container) : Prop :=
  (ResourceCPU ∈ dom (positivePart (Limits container))
   /\ ResourceMemory ∈ dom (positivePart (Limits container)))
  \/ ResourceRtRuntime ∈ dom (positivePart (Limits container)).

(** Two containers with the same positive quantities under recognised
    names, in their requests and in their limits. *)
Definition samePositive (c c' : Container) : Prop :=
  positivePart (Requests c) = positivePart (Requests c') /\
  positivePart (Limits c) = positivePart (Limits c').

(** A container without a positive quantity under a recognised name. *)
Definition asksNothing (c : Container) : Prop :=
  forall name quantity,
    Requests c !! name = Some quantity \/ Limits c !! name = Some quantity ->
    name ∈ supportedQoSComputeResources -> quantity <= 0.

(** [LimitsComplete] as a boolean. *)
Definition limitsComplete (container : Container) : bool :=
  bool_decide (LimitsComplete container).

End qos.

(* ===================================================================== *)
(** ** package priorities: balanced resource allocation *)
(* ===================================================================== *)

Module priorities.

(** Modelled from the spec: [framework.MaxNodeScore], a constant declared
    outside these sources ("MaxNodeScore = 100"). *)
Definition MaxNodeScore : Z := 100.

(** [ResourceToValueMap] *)
Abbreviation ResourceToValueMap := (gmap string Z).

(** Reading a Go [map[v1.ResourceName]int64] gives 0 for a missing key. *)
Definition valueOf (m : ResourceToValueMap) (name : string) : Z :=
  default 0 (m !! name).

Definition fractionOfCapacity (requested capacity : Z) : float :=
  if requested =? 0 then 0%float
  else if capacity =? 0 then 1%float
  else (Float64.of_int requested / Float64.of_int capacity)%float.

Definition variance (terms : list float) : float :=
  let n := Float64.of_int (Z.of_nat (length terms)) in
  let mean := foldl (fun mean t => mean + t / n)%float 0%float terms in
  let num := foldl (fun num t => num + (t - mean) * (t - mean))%float 0%float terms in
  (num / n)%float.

(** The loop over [requested], visiting its keys in the order [range];
    [None] is the early [return 0]. *)
Fixpoint resourceFractions (requested allocable : ResourceToValueMap)
    (range : list string) (fractions : list float) : option (list float) :=
  match range with
  | [] => Some fractions
  | request :: rest =>
      let f := fractionOfCapacity (valueOf requested request) (valueOf allocable request) in
      if Float64.ge f 1 then
        (* if requested >= capacity, the corresponding host should never be preferred. *)
        None
      else resourceFractions requested allocable rest (fractions ++ [f])
  end.

(** [balancedResourceScorer].  [gate] is the feature gate
    BalanceAttachedNodeVolumes and [range] the order in which the loop
    visits the keys of [requested].  The result is [None] where Go leaves
    the conversion to int64 implementation-dependent. *)
Definition balancedResourceScorer (gate : bool)
    (requested allocable : ResourceToValueMap) (range : list string)
    (includeVolumes : bool) (requestedVolumes allocatableVolumes : Z) : option Z :=
  match resourceFractions requested allocable range [] with
  | None => Some 0
  | Some fractions =>
      let fractions :=
        if includeVolumes && gate && (0 <? allocatableVolumes) then
          let volumeFraction :=
            (Float64.of_int requestedVolumes / Float64.of_int allocatableVolumes)%float in
          fractions ++ [volumeFraction]
        else fractions in
      match fractions with
      | [f0; f1] =>
          let diff := Float64.Abs (f0 - f1) in
          Float64.to_int64 ((1 - diff) * Float64.of_int MaxNodeScore)
      | _ =>
          (* Compute variance for all the three fractions. *)
          let v := variance fractions in
          Float64.to_int64 ((1 - v) * Float64.of_int MaxNodeScore)
      end
  end.



End priorities.

(* ===================================================================== *)
(** ** package cm: the internal container lifecycle *)
(* ===================================================================== *)

Module cm.

(** The feature gates the hooks read from
    [utilfeature.DefaultFeatureGate]. *)
Record FeatureGate : Type := {
  CPUManager : bool;
  TopologyManager : bool;
}.

(** The collaborators behind [internalContainerLifecycleImpl], as far as
    [PostStopContainer] uses them: a [RemoveContainer] returns an error
    or nil. *)
Record internalContainerLifecycleImpl (E : Type) : Type := {
  cpuManager_RemoveContainer : string -> option E;
  topologyManager_RemoveContainer : string -> option E;
}.
Arguments cpuManager_RemoveContainer {E} _ _.
Arguments topologyManager_RemoveContainer {E} _ _.

(** The calls a hook makes, in order. *)
Inductive call : Type :=
| CpuManagerRemoveContainer (containerID : string)
| TopologyManagerRemoveContainer (containerID : string).

(** [PostStopContainer]: the calls made and the error returned. *)
Definition PostStopContainer {E} (gates : FeatureGate)
    (i : internalContainerLifecycleImpl E) (containerID : string)
  : list call * option E :=
  let '(calls, err) :=
    if CPUManager gates
    then ([CpuManagerRemoveContainer containerID], cpuManager_RemoveContainer i containerID)
    else ([], None) in
  match err with
  | Some err => (calls, Some err)
  | None =>
      if TopologyManager gates then
        (calls ++ [TopologyManagerRemoveContainer containerID],
         topologyManager_RemoveContainer i containerID)
      else (calls, None)
  end.

(** [PreStopContainer] *)
Definition PreStopContainer {E} (gates : FeatureGate)
    (i : internalContainerLifecycleImpl E) (containerID : string)
  : list call * option E :=
  if CPUManager gates
  then ([CpuManagerRemoveContainer containerID], cpuManager_RemoveContainer i containerID)
  else ([], None).

(** *** PreStartContainer and the cgroup files *)

(** The calls on the file system: [os.MkdirAll(path, os.ModePerm)] and
    [ioutil.WriteFile(filename, data, os.ModePerm)]. *)
Inductive fsCall : Type :=
| MkdirAll (path : string)
| WriteFile (filename : string) (data : string).

Global Instance fsCall_eq_dec : EqDecision fsCall.
Proof. solve_decision. Defined.

(** The calls [PreStartContainer] makes, in order. *)
Inductive preStartCall : Type :=
| CpuManagerAddContainer (containerID : string)
| FileSystem (c : fsCall)
| TopologyManagerAddContainer (containerID : string).

Section lifecycle.
Context {E : Type}.

(** Library functions of Go: [filepath.Join] of two elements,
    [filepath.Dir], [cpuset.CPUSet.String] and [strconv.FormatInt] in
    base 10. *)
Variable Join : string -> string -> string.
Variable Dir : string -> string.
Variable CPUSet_String : CPUSet -> string.
Variable FormatInt : Z -> string.

(** The collaborators of [PreStartContainer] for a pod and a container:
    the two managers, the CPU manager's state as it is once
    [AddContainer] has returned, the mounted cgroup subsystems, the
    cgroup name [GetPodContainerName] gives the pod, and the file
    system, each call of which fails with an error or succeeds. *)
Record preStartCollaborators : Type := {
  cpuManager_AddContainer : string -> option E;
  cpuManager_State_GetCPUSet : string -> option CPUSet;
  topologyManager_AddContainer : string -> option E;
  MountPoints : gmap string string;
  GetPodContainerName : string;
  fs : fsCall -> option E;
}.

(** The errors the hook returns: a manager's, or one made by
    [fmt.Errorf] around an error of the file system. *)
Inductive lifecycleError : Type :=
| ManagerError (err : E)
| ErrCreating (cgroupFs : string) (err : E)
| ErrWriting (str : string) (path : string) (err : E).

(** A function that calls the file system returns the calls it made and
    its error.  [a ;; b] is [if err := a; err != nil { return err }; b]. *)
Definition andThen (a b : list fsCall * option lifecycleError)
  : list fsCall * option lifecycleError :=
  match a with
  | (calls, Some err) => (calls, Some err)
  | (calls, None) => let '(calls', err) := b in (calls ++ calls', err)
  end.

Variable i : preStartCollaborators.

Definition writeCpuRtMultiRuntimeFile (cgroupFs : string) (cpuSet : CPUSet) (rtRuntime : Z)
  : list fsCall * option lifecycleError :=
  if decide (cpuSet = ∅) then ([], None)
  else
    match fs i (MkdirAll cgroupFs) with
    | Some err => ([MkdirAll cgroupFs], Some (ErrCreating cgroupFs err))
    | None =>
        let filePath := Join cgroupFs "cpu.rt_multi_runtime_us" in
        (* BUG: write 0 gives error *)
        let rtRuntime := if rtRuntime =? 0 then 2 else rtRuntime in
        let rtRuntimeStr := FormatInt rtRuntime in
        let str := String.append (CPUSet_String cpuSet) (String.append " " rtRuntimeStr) in
        match fs i (WriteFile filePath str) with
        | Some err =>
            ([MkdirAll cgroupFs; WriteFile filePath str], Some (ErrWriting str filePath err))
        | None => ([MkdirAll cgroupFs; WriteFile filePath str], None)
        end
    end.

Definition writeRtFile (cgroupFs : string) (value : Z)
  : list fsCall * option lifecycleError :=
  match fs i (MkdirAll (Dir cgroupFs)) with
  | Some err => ([MkdirAll (Dir cgroupFs)], Some (ErrCreating cgroupFs err))
  | None =>
      let str := FormatInt value in
      match fs i (WriteFile cgroupFs str) with
      | Some err =>
          ([MkdirAll (Dir cgroupFs); WriteFile cgroupFs str],
           Some (ErrWriting str (FormatInt value) err))
      | None => ([MkdirAll (Dir cgroupFs); WriteFile cgroupFs str], None)
      end
  end.

(** [ensureCpuRtMultiRuntime] for a container with the requests
    [cpuRtPeriod] and [cpuRtRuntime]. *)
Definition ensureCpuRtMultiRuntime (cpuRtPeriod cpuRtRuntime : Z) (containerID : string)
  : outcome (list fsCall * option lifecycleError) :=
  let cpuSet := default ∅ (cpuManager_State_GetCPUSet i containerID) in
  match MountPoints i !! "cpu" with
  | None => Panics "cpu subsystem unmounted"
  | Some CpuSubsystemMountPoint =>
      let podCgroupFs := Join CpuSubsystemMountPoint (GetPodContainerName i) in
      (* container Cgroup *)
      let containerCgroupfs := Join podCgroupFs containerID in
      Returns
        (andThen (* pod period *)
           (writeRtFile (Join podCgroupFs "cpu.rt_period_us") cpuRtPeriod)
        (andThen (* pod runtime *)
           (writeCpuRtMultiRuntimeFile podCgroupFs cpuSet cpuRtRuntime)
        (andThen (* container period *)
           (writeRtFile (Join containerCgroupfs "cpu.rt_period_us") cpuRtPeriod)
           (* container runtime *)
           (writeCpuRtMultiRuntimeFile containerCgroupfs cpuSet cpuRtRuntime))))
  end.

(** [PreStartContainer] for a container with the requests [cpuRtPeriod]
    and [cpuRtRuntime]: the calls made and the error returned. *)
Definition PreStartContainer (gates : FeatureGate) (cpuRtPeriod cpuRtRuntime : Z)
    (containerID : string) : outcome (list preStartCall * option lifecycleError) :=
  let '(calls, err) :=
    if CPUManager gates
    then ([CpuManagerAddContainer containerID], cpuManager_AddContainer i containerID)
    else ([], None) in
  match err with
  | Some err => Returns (calls, Some (ManagerError err))
  | None =>
      let ok := bool_decide (is_Some (cpuManager_State_GetCPUSet i containerID)) in
      '(calls, err) ←
        (if ok && negb (cpuRtRuntime =? 0) then
           '(fsCalls, err) ← ensureCpuRtMultiRuntime cpuRtPeriod cpuRtRuntime containerID;
           Returns (calls ++ (FileSystem <$> fsCalls), err)
         else Returns (calls, None));
      match err with
      | Some err => Returns (calls, Some err)
      | None =>
          if TopologyManager gates then
            Returns (calls ++ [TopologyManagerAddContainer containerID],
                     ManagerError <$> topologyManager_AddContainer i containerID)
          else Returns (calls, None)
      end
  end.

(** The file-system calls [ensureCpuRtMultiRuntime] is written to make
    when none fails, under the cgroup directory [podCgroupFs]. *)
Definition runtimeFile (cgroupFs : string) (cpuSet : CPUSet) (cpuRtRuntime : Z)
  : list fsCall :=
  if decide (cpuSet = ∅) then []
  else [MkdirAll cgroupFs;
        WriteFile (Join cgroupFs "cpu.rt_multi_runtime_us")
          (String.append (CPUSet_String cpuSet)
             (String.append " " (FormatInt (if cpuRtRuntime =? 0 then 2 else cpuRtRuntime))))].

Definition periodFile (cgroupFs : string) (cpuRtPeriod : Z) : list fsCall :=
  [MkdirAll (Dir (Join cgroupFs "cpu.rt_period_us"));
   WriteFile (Join cgroupFs "cpu.rt_period_us") (FormatInt cpuRtPeriod)].

Definition cgroupFiles (podCgroupFs : string) (cpuSet : CPUSet)
    (cpuRtPeriod cpuRtRuntime : Z) (containerID : string) : list fsCall :=
  periodFile podCgroupFs cpuRtPeriod
  ++ runtimeFile podCgroupFs cpuSet cpuRtRuntime
  ++ periodFile (Join podCgroupFs containerID) cpuRtPeriod
  ++ runtimeFile (Join podCgroupFs containerID) cpuSet cpuRtRuntime.

(** The calls of a list that are made when the first failure ends the
    list. *)
Fixpoint attempted (calls : list fsCall) : list fsCall :=
  match calls with
  | [] => []
  | c :: rest => if fs i c is Some _ then [c] else c :: attempted rest
  end.

(** A result that is what the calls of [plan], made in order up to the
    first that fails, give: those calls, and an error exactly when one
    of them failed. *)
Definition runs (r : list fsCall * option lifecycleError) (plan : list fsCall) : Prop :=
  r.1 = attempted plan /\ (is_Some r.2 <-> Exists (fun c => is_Some (fs i c)) plan).

(** [strings.Split(s, " ")] *)
Fixpoint Split (s : string) : list string :=
  match s with
  | EmptyString => [EmptyString]
  | String c rest =>
      if Ascii.eqb c Ascii.Space then EmptyString :: Split rest
      else match Split rest with
           | field :: fields => String c field :: fields
           | [] => [String c EmptyString]
           end
  end.

(** A string without a space. *)
Fixpoint spaceless (s : string) : bool :=
  match s with
  | EmptyString => true
  | String c rest => negb (Ascii.eqb c Ascii.Space) && spaceless rest
  end.

(** The loop of [readCpuRtMultiRuntimeFile] over the fields; an error of
    [strconv.ParseInt] is a panic. *)
Fixpoint parseRuntimes (ParseInt : string -> E + Z) (runtimeStrings : list string)
    (runtimes : list Z) : outcome (list Z) :=
  match runtimeStrings with
  | [] => Returns runtimes
  | runtimeStr :: rest =>
      match ParseInt runtimeStr with
      | inl _ => Panics "error parsing runtime"
      | inr v => parseRuntimes ParseInt rest (runtimes ++ [v])
      end
  end.

(** [readCpuRtMultiRuntimeFile]; [ReadFile] is [ioutil.ReadFile] and
    [ParseInt] is [strconv.ParseInt(_, 10, 32)]. *)
Definition readCpuRtMultiRuntimeFile (ReadFile : string -> E + string)
    (ParseInt : string -> E + Z) (cgroupFs : string) : outcome (E + list Z) :=
  let filePath := Join cgroupFs "cpu.rt_multi_runtime_us" in
  match ReadFile filePath with
  | inl err => Returns (inl err)
  | inr buf =>
      let runtimeStrings := Split buf in
      if (length runtimeStrings <? 2)%nat then
        (* runtimeStrings[:len(runtimeStrings)-2] *)
        Panics "slice bounds out of range"
      else
        let runtimeStrings := take (length runtimeStrings - 2) runtimeStrings in
        runtimes ← parseRuntimes ParseInt runtimeStrings [];
        Returns (inr runtimes)
  end.

End lifecycle.
Arguments ManagerError {E} err.
Arguments ErrCreating {E} cgroupFs err.
Arguments ErrWriting {E} str path err.

End cm.

(* ===================================================================== *)
(** ** Scenarios *)
(* ===================================================================== *)

Module scenarios.
Import state cpumanager cm.

(** A snapshot of four CPUs, as in the end-to-end scenario of the
    specification: utilisations 0.1, 0.3, 0 and 0.5 under a ceiling of
    0.95 (the nearest binary64 values). *)
Definition policy_095 : realTimePolicy :=
  {| topology := {[0; 1; 2; 3]};
     allocableRtUtil := 0x1.e666666666666p-1%float;
     numReservedCpus := 0;
     reservedCpus := ∅ |}.

Definition snapshot4 : gmap Z float :=
  {[ 0 := 0x1.999999999999ap-4%float; 1 := 0x1.3333333333333p-2%float;
     2 := 0%float; 3 := 0.5%float ]}.

(** The state of that scenario, reached from a fresh state over CPUs 0..3
    by three real-time containers. *)
Definition fresh4 : RtState :=
  NewRtState {| assignments := ∅; defaultCPUSet := {[0; 1; 2; 3]} |}.

Definition state4 : RtState :=
  {| State_ := {| assignments := {[ "a" := {[0]}; "b" := {[1]}; "c" := {[3]} ]};
                  defaultCPUSet := {[0; 1; 2; 3]} |};
     containerToUtil := {[ "a" := 0x1.999999999999ap-4%float;
                           "b" := 0x1.3333333333333p-2%float;
                           "c" := 0.5%float ]};
     cpuToUtil := snapshot4 |}.

(** A container asking for [cpus] CPUs at [runtime / period]. *)
Definition rtContainer (period runtime cpus : Z) : Container :=
  {| Name := "rt";
     Requests := {[ ResourceRtPeriod := period; ResourceRtRuntime := runtime;
                    ResourceRtCpu := cpus ]} |}.

(** The two orders in which a [range] can visit a snapshot of two idle
    CPUs. *)
Definition snapshot2 : gmap Z float := {[ 0 := 0%float; 1 := 0%float ]}.
Definition visit_01 : list (Z * float) := [(0, 0%float); (1, 0%float)].
Definition visit_10 : list (Z * float) := [(1, 0%float); (0, 0%float)].

(** A freshly initialised state over CPUs 0 and 1, without containers. *)
Definition fresh2 : RtState :=
  NewRtState {| assignments := ∅; defaultCPUSet := {[0; 1]} |}.

(** [fresh2] after container "a" has been set on CPU 0 at 0.5. *)
Definition fresh2_a : RtState :=
  {| State_ := {| assignments := {[ "a" := {[0]} ]}; defaultCPUSet := {[0; 1]} |};
     containerToUtil := {[ "a" := 0.5%float ]};
     cpuToUtil := {[ 0 := 0.5%float; 1 := 0%float ]} |}.

(** Collaborators whose CPU manager fails and whose topology manager
    succeeds. *)
Definition cpuManagerFails : internalContainerLifecycleImpl string :=
  {| cpuManager_RemoveContainer := fun _ => Some "cpu manager: remove failed";
     topologyManager_RemoveContainer := fun _ => None |}.

Definition allGates : FeatureGate := {| CPUManager := true; TopologyManager := true |}.

(** Stand-ins for the library functions the hooks call, on the paths and
    values of the scenarios. *)
Definition joinPath (a b : string) : string := String.append a (String.append "/" b).
Definition dirOf (path : string) : string :=
  if String.eqb path "/sys/fs/cgroup/cpu/kubepods/pod1/cpu.rt_period_us"
  then "/sys/fs/cgroup/cpu/kubepods/pod1"
  else if String.eqb path "/sys/fs/cgroup/cpu/kubepods/pod1/c1/cpu.rt_period_us"
  then "/sys/fs/cgroup/cpu/kubepods/pod1/c1"
  else path.
Definition cpusToString (cpus : CPUSet) : string :=
  if decide (cpus = {[0]}) then "0" else "0-1".
Definition intToString (z : Z) : string :=
  if z =? 1000000 then "1000000" else if z =? 100000 then "100000" else "2".

(** The collaborators of the PreStart hook for container "c1", assigned
    to CPU 0: one set in which every call succeeds, one in which the
    file system fails. *)
Definition allWorks : preStartCollaborators (E := string) :=
  {| cpuManager_AddContainer := fun _ => None;
     cpuManager_State_GetCPUSet := fun _ => Some {[0]};
     topologyManager_AddContainer := fun _ => None;
     MountPoints := {[ "cpu" := "/sys/fs/cgroup/cpu" ]};
     GetPodContainerName := "kubepods/pod1";
     fs := fun _ => None |}.

Definition diskFull : preStartCollaborators (E := string) :=
  {| cpuManager_AddContainer := fun _ => None;
     cpuManager_State_GetCPUSet := fun _ => Some {[0]};
     topologyManager_AddContainer := fun _ => None;
     MountPoints := {[ "cpu" := "/sys/fs/cgroup/cpu" ]};
     GetPodContainerName := "kubepods/pod1";
     fs := fun _ => Some "no space left on device" |}.

(** The embedded state's [GetCPUSetOrDefault], and a container runtime
    whose [UpdateContainerResources] fails. *)
Definition cpuSetOrDefault (s : State) (containerID : string) : CPUSet :=
  default (defaultCPUSet s) (GetCPUSet s containerID).

Definition runtimeFails : string -> CPUSet -> option string :=
  fun _ _ => Some "runtime: update failed".

(** A checkpoint state that still assigns container "old" to CPU 7, and
    the policy over CPUs 0 and 1 that is started on it. *)
Definition stale : RtState :=
  NewRtState {| assignments := {[ "old" := {[7]} ]}; defaultCPUSet := {[7]} |}.

Definition policy_2cpus : realTimePolicy :=
  {| topology := {[0; 1]};
     allocableRtUtil := 0x1.e666666666666p-1%float;
     numReservedCpus := 0;
     reservedCpus := ∅ |}.

(** One active pod with one container, "main", running as "b"; and the
    state in which "a" (see [fresh2_a]) is assigned. *)
Definition activePod : manager.Pod :=
  {| manager.UID := "pod-1"; manager.InitContainers := []; manager.Containers := ["main"] |}.

Definition podStatus : manager.PodStatus :=
  {| manager.InitContainerStatuses := [];
     manager.ContainerStatuses :=
       [ {| manager.StatusName := "main"; manager.ContainerID := "b" |} ] |}.

Definition statusOf : string -> option manager.PodStatus :=
  fun uid => if String.eqb uid "pod-1" then Some podStatus else None.

Definition parseID : string -> string + string := inr.

End scenarios.

(* ===================================================================== *)
(** ** The order of float64 values *)
(* ===================================================================== *)

Section Float64Order.
Import Float64.

Lemma lex_Lt a b : lex a b = Lt <-> lex_lt a b.
Proof.
  destruct a as [[c1 e1] m1], b as [[c2 e2] m2]; simpl.
  destruct (Z.compare_spec c1 c2), (Z.compare_spec e1 e2),
    (Z.compare_spec m1 m2); split; intros; try discriminate; try lia; auto.
Qed.

Lemma lex_not_Gt a b : lex a b <> Gt <-> lex_le a b.
Proof.
  destruct a as [[c1 e1] m1], b as [[c2 e2] m2]; simpl.
  destruct (Z.compare_spec c1 c2), (Z.compare_spec e1 e2),
    (Z.compare_spec m1 m2); split; intros; try congruence; try lia.
Qed.

Lemma SFcompare_key x y :
  SFcompare x y =
  match key x, key y with
  | Some a, Some b => Some (lex a b)
  | _, _ => None
  end.
Proof.
  destruct x as [sx|sx| |sx mx ex], y as [sy|sy| |sy my ey];
    try destruct sx; try destruct sy; simpl; try reflexivity;
    rewrite ?Z.compare_opp, ?(Z.compare_antisym ex ey);
    destruct (ex ?= ey); reflexivity.
Qed.

Lemma ltb_key x y :
  PrimFloat.ltb x y = true <->
  exists a b, key (Prim2SF x) = Some a /\ key (Prim2SF y) = Some b /\ lex_lt a b.
Proof.
  rewrite ltb_spec. unfold SFltb. rewrite SFcompare_key.
  destruct (key (Prim2SF x)) as [a|], (key (Prim2SF y)) as [b|];
    try (split; [discriminate | intros (? & ? & ? & ? & ?); discriminate]).
  pose proof (lex_Lt a b) as HL.
  destruct (lex a b); split; try discriminate; try (intros; reflexivity).
  - intros (a' & b' & [= <-] & [= <-] & H). apply (proj2 HL) in H. discriminate H.
  - intros _. exists a, b. intuition.
  - intros (a' & b' & [= <-] & [= <-] & H). apply (proj2 HL) in H. discriminate H.
Qed.

Lemma leb_key x y :
  PrimFloat.leb x y = true <->
  exists a b, key (Prim2SF x) = Some a /\ key (Prim2SF y) = Some b /\ lex_le a b.
Proof.
  rewrite leb_spec. unfold SFleb. rewrite SFcompare_key.
  destruct (key (Prim2SF x)) as [a|], (key (Prim2SF y)) as [b|];
    try (split; [discriminate | intros (? & ? & ? & ? & ?); discriminate]).
  pose proof (lex_not_Gt a b) as HL.
  destruct (lex a b); split; try discriminate; try (intros; reflexivity).
  - intros _. exists a, b. intuition congruence.
  - intros _. exists a, b. intuition congruence.
  - intros (a' & b' & [= <-] & [= <-] & H). apply (proj2 HL) in H. congruence.
Qed.

Lemma lex_le_or_lt a b : lex_le a b \/ lex_lt b a.
Proof. destruct a as [[c1 e1] m1], b as [[c2 e2] m2]; simpl. lia. Qed.

Lemma lex_lt_not_le a b : lex_lt a b -> ~ lex_le b a.
Proof. destruct a as [[c1 e1] m1], b as [[c2 e2] m2]; simpl. lia. Qed.

Lemma lex_le_trans a b c : lex_le a b -> lex_le b c -> lex_le a c.
Proof.
  destruct a as [[c1 e1] m1], b as [[c2 e2] m2], c as [[c3 e3] m3]; simpl. lia.
Qed.

(** Whatever is greater than something is not NaN, and neither is the
    smaller one. *)
Lemma gt_ordered x y : gt x y = true -> ordered x /\ ordered y.
Proof.
  unfold gt, ordered. intros (a & b & Ha & Hb & _)%ltb_key.
  rewrite Ha, Hb. eauto.
Qed.

(** On ordered floats, "not greater" is "less or equal". *)
Lemma not_gt_leb x y :
  ordered x -> ordered y -> gt x y = false -> PrimFloat.leb x y = true.
Proof.
  unfold gt, ordered. intros [a Ha] [b Hb] Hgt. apply leb_key.
  exists a, b. repeat split; try assumption.
  destruct (lex_le_or_lt a b) as [|Hlt]; [assumption|].
  assert (PrimFloat.ltb y x = true) by (apply ltb_key; eauto 6).
  congruence.
Qed.

Lemma leb_not_gt x y : PrimFloat.leb x y = true -> gt x y = false.
Proof.
  unfold gt. intros (a & b & Ha & Hb & Hle)%leb_key.
  destruct (PrimFloat.ltb y x) eqn:E; [|reflexivity].
  apply ltb_key in E as (b' & a' & Hb' & Ha' & Hlt).
  rewrite Ha in Ha'. rewrite Hb in Hb'. simplify_eq.
  exfalso. eapply lex_lt_not_le; eauto.
Qed.

Lemma gt_asym x y : gt x y = true -> gt y x = false.
Proof.
  intros H. destruct (gt_ordered _ _ H) as [Hx Hy].
  apply leb_not_gt. apply leb_key.
  apply ltb_key in H as (b & a & Hb & Ha & Hlt).
  exists b, a. repeat split; try assumption.
  destruct a as [[c1 e1] m1], b as [[c2 e2] m2]; simpl in *. lia.
Qed.

Lemma leb_trans x y z :
  PrimFloat.leb x y = true -> PrimFloat.leb y z = true -> PrimFloat.leb x z = true.
Proof.
  intros (a & b & Ha & Hb & Hab)%leb_key (b' & c & Hb' & Hc & Hbc)%leb_key.
  rewrite Hb in Hb'. simplify_eq. apply leb_key.
  exists a, c. eauto using lex_le_trans.
Qed.

(** Negative transitivity of [>] on ordered floats. *)
Lemma not_gt_trans x y z :
  ordered x -> ordered y -> ordered z ->
  gt x y = false -> gt y z = false -> gt x z = false.
Proof.
  intros Hx Hy Hz Hxy Hyz. apply leb_not_gt.
  apply (leb_trans x y z); apply not_gt_leb; assumption.
Qed.



End Float64Order.


(* ===================================================================== *)
(** ** Exact cases of float64 arithmetic *)
(* ===================================================================== *)

Section Float64Exact.
Import Float64.

Lemma between_0_1_finite x :
  PrimFloat.leb 0 x = true -> PrimFloat.ltb x 1 = true -> finite x.
Proof.
  rewrite leb_spec, ltb_spec. unfold finite.
  change (Prim2SF 0) with (S754_zero false).
  change (Prim2SF 1) with (S754_finite false 4503599627370496 (-52)).
  destruct (Prim2SF x) as [s|s| |s m e]; try done; destruct s; done.
Qed.

Lemma lt_not_ge x y : PrimFloat.ltb x y = true -> ge x y = false.
Proof.
  unfold ge. intros Hlt. destruct (PrimFloat.leb y x) eqn:E; [|done].
  apply leb_not_gt in E. unfold gt in E. congruence.
Qed.

Lemma div_eucl_exact q b : 0 < b -> Z.div_eucl (q * b) b = (q, 0).
Proof.
  intros Hb. pose proof (Z.div_mul q b ltac:(lia)) as Hd.
  pose proof (Z.mod_mul q b ltac:(lia)) as Hm.
  unfold Z.div, Z.modulo in *. destruct (Z.div_eucl (q * b) b). by subst.
Qed.

(** What [valid_binary] says of a binary64 mantissa and exponent. *)
Lemma valid_finite_bounds s m e :
  valid_binary (S754_finite s m e) = true ->
  Z.max (Z.pos (digits2_pos m) + e - 53) (-1074) = e /\ e <= 971.
Proof.
  unfold SpecFloat.valid_binary, bounded, canonical_mantissa, fexp, SpecFloat.emin.
  change prec with 53. change emax with 1024.
  intros [H1 H2]%andb_prop. apply Z.eqb_eq in H1. apply Z.leb_le in H2.
  split; [exact H1 | lia].
Qed.

(** Dividing by 1.0 = 2^52 * 2^-52: the quotient of the mantissas is
    exact, with one spare bit unless the exponent is the least one. *)
Lemma SFdiv_core_one m e :
  Z.max (Z.pos (digits2_pos m) + e - 53) (-1074) = e ->
  SFdiv_core_binary 53 1024 (Z.pos m) e 4503599627370496 (-52)
  = if -1074 <? e then (Z.pos m~0, e - 1, loc_Exact) else (Z.pos m, e, loc_Exact).
Proof.
  intros Hc. unfold SFdiv_core_binary.
  change (Zdigits2 4503599627370496) with 53.
  change (Zdigits2 (Z.pos m)) with (Z.pos (digits2_pos m)).
  set (d := Z.pos (digits2_pos m)) in *.
  assert (Hd : 0 < d) by (unfold d; lia).
  destruct (Z.ltb_spec (-1074) e) as [Hlt|Hge].
  - assert (He' : Z.min (fexp 53 1024 (d + e - (53 + -52))) (e - -52) = e - 1).
    { unfold fexp, SpecFloat.emin. lia. }
    rewrite He'. replace (e - -52 - (e - 1)) with 53 by lia.
    rewrite Z.shiftl_mul_pow2 by lia.
    replace (Z.pos m * 2 ^ 53) with (Z.pos m~0 * 4503599627370496) by lia.
    rewrite div_eucl_exact by lia. reflexivity.
  - assert (He' : Z.min (fexp 53 1024 (d + e - (53 + -52))) (e - -52) = e).
    { unfold fexp, SpecFloat.emin. lia. }
    rewrite He'. replace (e - -52 - e) with 52 by lia.
    rewrite Z.shiftl_mul_pow2 by lia.
    change (2 ^ 52) with 4503599627370496.
    rewrite div_eucl_exact by lia. reflexivity.
Qed.

Lemma round_exact s m e :
  Z.max (Z.pos (digits2_pos m) + e - 53) (-1074) = e -> e <= 971 ->
  binary_round_aux 53 1024 s (Z.pos m) e loc_Exact = S754_finite s m e.
Proof.
  intros Hc He. unfold binary_round_aux, shr_fexp.
  change (Zdigits2 (Z.pos m)) with (Z.pos (digits2_pos m)).
  assert (Hf : fexp 53 1024 (Z.pos (digits2_pos m) + e) - e = 0).
  { unfold fexp, SpecFloat.emin. lia. }
  rewrite Hf. simpl.
  change (Zdigits2 (Z.pos m)) with (Z.pos (digits2_pos m)).
  rewrite Hf. simpl. change (1024 - 53) with 971.
  destruct (Z.leb_spec e 971); [reflexivity|lia].
Qed.

Lemma round_spare_bit s m e :
  Z.max (Z.pos (digits2_pos m) + e - 53) (-1074) = e -> e <= 971 -> -1074 < e ->
  binary_round_aux 53 1024 s (Z.pos m~0) (e - 1) loc_Exact = S754_finite s m e.
Proof.
  intros Hc He Hlt. unfold binary_round_aux, shr_fexp.
  change (Zdigits2 (Z.pos m~0)) with (Z.pos (Pos.succ (digits2_pos m))).
  assert (Hf : fexp 53 1024 (Z.pos (Pos.succ (digits2_pos m)) + (e - 1)) - (e - 1) = 1).
  { unfold fexp, SpecFloat.emin. lia. }
  rewrite Hf. simpl.
  change (Zdigits2 (Z.pos m)) with (Z.pos (digits2_pos m)).
  replace (e - 1 + 1) with e by lia.
  assert (Hf' : fexp 53 1024 (Z.pos (digits2_pos m) + e) - e = 0).
  { unfold fexp, SpecFloat.emin. lia. }
  rewrite Hf'. simpl. change (1024 - 53) with 971.
  destruct (Z.leb_spec e 971); [reflexivity|lia].
Qed.

Lemma SFdiv_one s m e :
  valid_binary (S754_finite s m e) = true ->
  SFdiv prec emax (S754_finite s m e) (S754_finite false 4503599627370496 (-52))
  = S754_finite s m e.
Proof.
  intros [Hc He]%valid_finite_bounds.
  unfold SFdiv. change prec with 53. change emax with 1024.
  rewrite SFdiv_core_one by done. rewrite xorb_false_r.
  destruct (Z.ltb_spec (-1074) e).
  - by apply round_spare_bit.
  - by apply round_exact.
Qed.

(** [x / 1 = x]. *)
Lemma div_one x : finite x -> (x / 1)%float = x.
Proof.
  unfold finite. intros Hx. apply Prim2SF_inj. rewrite div_spec.
  change (Prim2SF 1) with (S754_finite false 4503599627370496 (-52)).
  pose proof (Prim2SF_valid x) as Hv.
  destruct (Prim2SF x) as [s|s| |s m e]; try done.
  - simpl. by rewrite xorb_false_r.
  - by apply SFdiv_one.
Qed.

(** [(x - (0 + x)) * (x - (0 + x))] is [+0], also for [x = -0]. *)
Lemma square_of_deviation_from_self x :
  finite x -> ((x - (0 + x)) * (x - (0 + x)))%float = 0%float.
Proof.
  unfold finite. intros Hx. apply Prim2SF_inj.
  rewrite mul_spec, sub_spec, add_spec.
  change (Prim2SF 0) with (S754_zero false).
  destruct (Prim2SF x) as [s|s| |s m e]; try done.
  - by destruct s.
  - unfold SF64add, SF64sub, SF64mul, SFadd, SFsub.
    rewrite Z.sub_diag. reflexivity.
Qed.

End Float64Exact.
(* ===================================================================== *)
(** ** Properties of sort.SliceStable *)
(* ===================================================================== *)

Lemma precedes_cons {A} (x y z : A) l : precedes x y l -> precedes x y (z :: l).
Proof. intros (i & j & Hij & Hi & Hj). exists (S i), (S j). split; [lia|done]. Qed.

Lemma precedes_head {A} (x y : A) l : y ∈ l -> precedes x y (x :: l).
Proof.
  intros [j Hj]%list_elem_of_lookup. exists 0%nat, (S j). split; [lia|done].
Qed.

Lemma precedes_cons_inv {A} (x y z : A) l :
  precedes x y (z :: l) -> (x = z /\ y ∈ l) \/ precedes x y l.
Proof.
  intros (i & j & Hij & Hi & Hj). destruct j as [|j]; [lia|]. simpl in Hj.
  destruct i as [|i]; simpl in Hi.
  - left. split; [congruence|]. apply list_elem_of_lookup. eauto.
  - right. exists i, j. split; [lia|done].
Qed.

Lemma precedes_elem_of {A} (x y : A) l : precedes x y l -> x ∈ l /\ y ∈ l.
Proof.
  intros (i & j & _ & Hi & Hj). split; apply list_elem_of_lookup; eauto.
Qed.

Lemma precedes_take {A} (x y : A) l n :
  NoDup l -> precedes x y l -> y ∈ take n l -> precedes x y (take n l).
Proof.
  intros Hnd (i & j & Hij & Hi & Hj) Hy.
  apply list_elem_of_lookup in Hy as [k Hk].
  pose proof (lookup_lt_Some _ _ _ Hk) as Hlen. rewrite length_take in Hlen.
  rewrite lookup_take_lt in Hk by lia.
  assert (k = j) as -> by (eapply NoDup_lookup; eauto).
  exists i, j. split; [done|]. rewrite !lookup_take_lt by lia. done.
Qed.

Lemma precedes_fmap {A B} (f : A -> B) (x y : A) l :
  precedes x y l -> precedes (f x) (f y) (f <$> l).
Proof.
  intros (i & j & Hij & Hi & Hj). exists i, j.
  rewrite !list_lookup_fmap, Hi, Hj. done.
Qed.

Lemma precedes_antisym {A} (x y : A) l :
  NoDup l -> precedes x y l -> precedes y x l -> False.
Proof.
  intros Hnd (i & j & Hij & Hi & Hj) (j' & i' & Hji & Hj' & Hi').
  assert (i = i') by (eapply NoDup_lookup; eauto).
  assert (j = j') by (eapply NoDup_lookup; eauto). lia.
Qed.

Lemma precedes_total {A} (x y : A) l :
  x ∈ l -> y ∈ l -> x <> y -> precedes x y l \/ precedes y x l.
Proof.
  intros [i Hi]%list_elem_of_lookup [j Hj]%list_elem_of_lookup Hne.
  destruct (Nat.lt_total i j) as [?|[->|?]].
  - left. by exists i, j.
  - congruence.
  - right. by exists j, i.
Qed.

(** Two duplicate-free lists with the same elements in the same relative
    order are the same list. *)
Lemma precedes_ext {A} (k1 k2 : list A) :
  NoDup k1 -> k1 ≡ₚ k2 ->
  (forall x y, precedes x y k1 -> precedes x y k2) -> k1 = k2.
Proof.
  revert k2. induction k1 as [|h t IH]; intros k2 Hnd Hperm Hord.
  - by apply Permutation_nil_l in Hperm.
  - assert (Hnd2 : NoDup k2) by (by rewrite <- Hperm).
    apply NoDup_cons in Hnd as [Hh Ht].
    destruct k2 as [|z b]; [by apply Permutation_nil_r in Hperm|].
    assert (z = h) as ->.
    { assert (z ∈ h :: t) as [?|Hz]%elem_of_cons by (rewrite Hperm; left); [done|].
      exfalso.
      assert (Hne : h <> z) by (intros ->; done).
      assert (Hhb : h ∈ b).
      { assert (h ∈ z :: b) as [?|?]%elem_of_cons by (rewrite <- Hperm; left); done. }
      apply (precedes_antisym h z (z :: b) Hnd2).
      - apply Hord. by apply precedes_head.
      - by apply precedes_head. }
    f_equal. apply IH; [done|by apply Permutation_cons_inv in Hperm|].
    intros x y Hxy.
    destruct (precedes_cons_inv x y h b (Hord x y (precedes_cons x y h t Hxy)))
      as [[-> _]|]; [|done].
    by destruct (precedes_elem_of _ _ _ Hxy) as [? _].
Qed.

Section SliceStable_facts.
Context {A : Type} (less : A -> A -> bool).
Local Abbreviation place := (place less).
Local Abbreviation SliceStable := (SliceStable less).
Local Abbreviation no_later := (no_later less).

Lemma place_perm x l : place x l ≡ₚ x :: l.
Proof.
  induction l as [|y l IH]; simpl; [reflexivity|].
  destruct (less y x); [|reflexivity].
  rewrite IH. apply Permutation_swap.
Qed.

Lemma SliceStable_perm l : SliceStable l ≡ₚ l.
Proof.
  induction l as [|x l IH]; simpl; [reflexivity|].
  rewrite place_perm. by rewrite IH.
Qed.

Lemma SliceStable_length l : length (SliceStable l) = length l.
Proof. by rewrite SliceStable_perm. Qed.

Lemma elem_of_SliceStable x l : x ∈ SliceStable l <-> x ∈ l.
Proof. by rewrite SliceStable_perm. Qed.

(** Stability: an element that is not strictly less than an earlier one
    stays behind it. *)
Lemma place_precedes_new x y l :
  y ∈ l -> less y x = false -> precedes x y (place x l).
Proof.
  intros Hy Hyx. induction l as [|z l IH]; simpl; [by apply elem_of_nil in Hy|].
  destruct (less z x) eqn:E.
  - apply precedes_cons, IH. apply elem_of_cons in Hy as [->|]; [congruence|done].
  - by apply precedes_head.
Qed.

Lemma place_precedes_old h x y l : precedes x y l -> precedes x y (place h l).
Proof.
  induction l as [|z l IH]; simpl; intros Hp.
  - destruct Hp as (i & j & _ & Hi & _). by rewrite lookup_nil in Hi.
  - destruct (less z h); [|by apply precedes_cons].
    apply precedes_cons_inv in Hp as [[-> Hy]|Hp].
    + apply precedes_head. rewrite place_perm. by apply elem_of_cons; right.
    + by apply precedes_cons, IH.
Qed.

Lemma SliceStable_stable x y l :
  precedes x y l -> less y x = false -> precedes x y (SliceStable l).
Proof.
  intros Hp Hyx. induction l as [|z l IH]; simpl.
  - destruct Hp as (i & j & _ & Hi & _). by rewrite lookup_nil in Hi.
  - apply precedes_cons_inv in Hp as [[-> Hy]|Hp].
    + apply place_precedes_new; [|done]. by apply elem_of_SliceStable.
    + by apply place_precedes_old, IH.
Qed.

(** Sortedness holds on the elements where [less] is a strict weak
    order; for the placement policies these are the scores that are not
    NaN. *)
Section Sorted.
Variable ok : A -> Prop.
Hypothesis less_asym : forall x y, ok x -> ok y -> less x y = true -> less y x = false.
Hypothesis not_less_trans : forall x y z,
    ok x -> ok y -> ok z -> less x y = false -> less y z = false -> less x z = false.

Lemma place_sorted x l :
  ok x -> Forall ok l ->
  StronglySorted no_later l -> StronglySorted no_later (place x l).
Proof.
  intros Hx Hl Hs. induction Hs as [|y l Hs IH Hy]; simpl.
  - repeat constructor.
  - apply Forall_cons in Hl as [Hoy Hl].
    destruct (less y x) eqn:E.
    + constructor; [by apply IH|].
      rewrite place_perm. constructor; [|done].
      unfold no_later. by apply less_asym.
    + constructor; [by constructor|].
      constructor; [done|].
      rewrite Forall_forall in Hy, Hl. apply Forall_forall. intros z Hz.
      unfold no_later in *. apply (not_less_trans z y x); auto.
Qed.

Lemma SliceStable_sorted l :
  Forall ok l -> StronglySorted no_later (SliceStable l).
Proof.
  induction 1 as [|x l Hx Hl IH]; simpl; [constructor|].
  apply place_sorted; [done| |done]. by rewrite SliceStable_perm.
Qed.

(** What is taken from the front of the sorted slice is not less than
    what is left behind. *)
Lemma SliceStable_take_drop l n x y :
  Forall ok l ->
  x ∈ take n (SliceStable l) -> y ∈ drop n (SliceStable l) -> less y x = false.
Proof.
  intros Hl Hx Hy. pose proof (SliceStable_sorted l Hl) as Hs.
  rewrite <- (take_drop n (SliceStable l)) in Hs.
  exact (StronglySorted_app_1_elem_of _ _ _ x y Hs Hx Hy).
Qed.
Lemma sorted_precedes l x y :
  StronglySorted no_later l -> precedes x y l -> less y x = false.
Proof.
  intros Hsorted (i & j & Hij & Hi & Hj).
  rewrite <- (take_drop_middle l i x Hi) in Hsorted.
  apply StronglySorted_app_1_r, StronglySorted_inv in Hsorted as [_ Hall].
  rewrite Forall_forall in Hall. apply Hall.
  apply list_elem_of_lookup. exists (j - S i)%nat.
  rewrite lookup_drop. rewrite <- Hj. f_equal. lia.
Qed.

(** The contract of [sort.SliceStable] has one result: any reordering of a
    duplicate-free [l] that is sorted by [less] and keeps the original
    order of elements neither of which is less than the other is the one
    [SliceStable] computes. *)
Lemma SliceStable_unique l l' :
  NoDup l -> Forall ok l -> l' ≡ₚ l ->
  StronglySorted no_later l' ->
  (forall x y, precedes x y l -> less y x = false -> precedes x y l') ->
  l' = SliceStable l.
Proof.
  intros Hnd Hok Hperm Hsorted Hstable.
  assert (Hnd' : NoDup l') by (by rewrite Hperm).
  apply precedes_ext; [done|by rewrite SliceStable_perm|].
  intros x y Hxy.
  destruct (precedes_elem_of _ _ _ Hxy) as [Hx Hy].
  assert (Hne : x <> y).
  { intros ->. destruct Hxy as (i & j & Hij & Hi & Hj).
    assert (i = j) by (eapply NoDup_lookup; eauto). lia. }
  pose proof (sorted_precedes l' x y Hsorted Hxy) as Hyx.
  rewrite Hperm in Hx, Hy.
  destruct (precedes_total x y l Hx Hy Hne) as [Hl|Hl].
  - by apply SliceStable_stable.
  - destruct (less x y) eqn:E.
    + destruct (precedes_total x y (SliceStable l)) as [Hs|Hs];
        [by apply elem_of_SliceStable..|done|done|].
      apply (sorted_precedes _ y x (SliceStable_sorted l Hok)) in Hs. congruence.
    + exfalso. apply (precedes_antisym x y l' Hnd' Hxy). by apply Hstable.
Qed.

End Sorted.
End SliceStable_facts.


(* ===================================================================== *)
(** ** The real-time policy: placement *)
(* ===================================================================== *)

Module cpumanager_facts.
Import state cpumanager scenarios.

Lemma elem_of_scoreCpus p l reqUtil sc :
  sc ∈ scoreCpus p l reqUtil <->
  exists util, (cpu sc, util) ∈ l /\ score sc = headroom p reqUtil util
               /\ fits p reqUtil util = true.
Proof.
  unfold fits, headroom. induction l as [|[c util] l IH]; simpl.
  - split; [by intros ?%elem_of_nil|]. by intros (? & ?%elem_of_nil & _).
  - destruct (Float64.gt _ 0) eqn:E.
    + rewrite elem_of_cons, IH. split.
      * intros [->|(u & Hin & Hs & Hf)]; simpl.
        -- exists util. split; [left|]; done.
        -- exists u. split; [by right|done].
      * intros (u & [Heq|Hin]%elem_of_cons & Hs & Hf).
        -- injection Heq as <- <-. left. destruct sc; simpl in *. by subst.
        -- right. eauto.
    + rewrite IH. split.
      * intros (u & Hin & Hs & Hf). exists u. split; [by right|done].
      * intros (u & [Heq|Hin]%elem_of_cons & Hs & Hf); [|eauto].
        injection Heq as <- <-. congruence.
Qed.

Lemma scoreCpus_sublist p l reqUtil :
  (cpu <$> scoreCpus p l reqUtil) `sublist_of` l.*1.
Proof.
  induction l as [|[c util] l IH]; simpl; [constructor|].
  destruct (Float64.gt _ 0); simpl; by constructor.
Qed.

Lemma scoreCpus_ok p l reqUtil : Forall scored_ok (scoreCpus p l reqUtil).
Proof.
  apply Forall_forall. intros sc (util & _ & Hs & Hf)%elem_of_scoreCpus.
  unfold scored_ok, fits in *. rewrite Hs. by apply gt_ordered in Hf as [? _].
Qed.

Lemma worst_less_asym x y :
  scored_ok x -> scored_ok y -> worst_less x y = true -> worst_less y x = false.
Proof. intros _ _. apply gt_asym. Qed.

Lemma worst_less_trans x y z :
  scored_ok x -> scored_ok y -> scored_ok z ->
  worst_less x y = false -> worst_less y z = false -> worst_less x z = false.
Proof. apply not_gt_trans. Qed.

Section Snapshot.
Variables (p : realTimePolicy) (m : gmap Z float) (range : list (Z * float)).
Hypothesis range_visits : range ≡ₚ map_to_list m.

Lemma elem_of_range c util : (c, util) ∈ range <-> m !! c = Some util.
Proof. by rewrite range_visits, elem_of_map_to_list. Qed.

Lemma NoDup_range_cpus : NoDup range.*1.
Proof. rewrite range_visits. apply NoDup_fst_map_to_list. Qed.

Lemma NoDup_range : NoDup range.
Proof. eapply NoDup_fmap_1, NoDup_range_cpus. Qed.

Lemma NoDup_scored_cpus reqUtil : NoDup (cpu <$> scoreCpus p range reqUtil).
Proof. eapply sublist_NoDup; [apply NoDup_range_cpus|apply scoreCpus_sublist]. Qed.

Lemma elem_of_candidates reqUtil c :
  c ∈ candidates p reqUtil m <->
  exists util, m !! c = Some util /\ fits p reqUtil util = true.
Proof.
  unfold candidates. rewrite elem_of_dom. unfold is_Some.
  setoid_rewrite map_lookup_filter_Some. naive_solver.
Qed.

Lemma candidates_scored reqUtil :
  candidates p reqUtil m = list_to_set (cpu <$> scoreCpus p range reqUtil).
Proof.
  apply set_eq. intros c.
  rewrite elem_of_candidates, elem_of_list_to_set, list_elem_of_fmap.
  setoid_rewrite elem_of_scoreCpus. setoid_rewrite elem_of_range. split.
  - intros (util & Hm & Hf).
    exists {| cpu := c; score := headroom p reqUtil util |}. naive_solver.
  - intros (sc & -> & util & Hm & _ & Hf). eauto.
Qed.

Lemma size_candidates reqUtil :
  size (candidates p reqUtil m) = length (scoreCpus p range reqUtil).
Proof.
  rewrite candidates_scored, size_list_to_set by apply NoDup_scored_cpus.
  by rewrite length_fmap.
Qed.
End Snapshot.



Lemma scoreCpus_precedes p l reqUtil c1 c2 util1 util2 :
  precedes (c1, util1) (c2, util2) l ->
  fits p reqUtil util1 = true -> fits p reqUtil util2 = true ->
  precedes {| cpu := c1; score := headroom p reqUtil util1 |}
           {| cpu := c2; score := headroom p reqUtil util2 |}
           (scoreCpus p l reqUtil).
Proof.
  intros Hp Hf1 Hf2. induction l as [|[c util] l IH]; simpl.
  - destruct Hp as (i & j & _ & Hi & _). by rewrite lookup_nil in Hi.
  - apply precedes_cons_inv in Hp as [[Heq Hin]|Hp].
    + injection Heq as <- <-. unfold fits, headroom in Hf1. rewrite Hf1.
      apply precedes_head, elem_of_scoreCpus. exists util2. done.
    + destruct (Float64.gt _ 0); [apply precedes_cons|]; by apply IH.
Qed.

(** C7, amended (ties break by the order of the visit).  For a fixed
    order [range] in which the loop visits the snapshot, a candidate
    visited before another one that has no more headroom (equal headroom
    in particular) is selected before it: whenever the later one is in
    the result, the earlier one is too, at an earlier position. *)
Theorem worstFit_ties_by_visit_order
    (p : realTimePolicy) (m : gmap Z float) (range : list (Z * float))
    (reqUtil : float) (reqCpus : Z) (c1 c2 : Z) (util1 util2 : float) :
  range ≡ₚ map_to_list m ->
  precedes (c1, util1) (c2, util2) range ->
  fits p reqUtil util1 = true ->
  Float64.gt (headroom p reqUtil util2) (headroom p reqUtil util1) = false ->
  c2 ∈ worstFit p range reqUtil reqCpus ->
  precedes c1 c2 (worstFit p range reqUtil reqCpus).
Proof.
  intros Hrange Hp Hf1 Hle. unfold worstFit.
  destruct (Z.of_nat (length (scoreCpus p range reqUtil)) <? reqCpus);
    [by intros ?%elem_of_nil|].
  set (scored := scoreCpus p range reqUtil).
  set (sorted := SliceStable worst_less scored).
  intros (sc & -> & Hsc)%list_elem_of_fmap.
  assert (Hsc0 : sc ∈ scored).
  { apply (elem_of_SliceStable worst_less). revert Hsc. apply subseteq_take. }
  apply elem_of_scoreCpus in Hsc0 as (u & Hin & Hs & Hf2).
  destruct (precedes_elem_of _ _ _ Hp) as [_ Hin2].
  apply (elem_of_range m range Hrange) in Hin, Hin2.
  rewrite Hin2 in Hin. injection Hin as <-.
  assert (sc = {| cpu := cpu sc; score := headroom p reqUtil util2 |}) as Esc
    by (destruct sc; simpl in *; by subst).
  rewrite Esc in Hsc.
  assert (Hnd : NoDup sorted).
  { unfold sorted. rewrite SliceStable_perm.
    eapply NoDup_fmap_1, (NoDup_scored_cpus p m range Hrange). }
  pose proof (scoreCpus_precedes p range reqUtil _ _ _ _ Hp Hf1 Hf2) as Hps.
  apply (SliceStable_stable worst_less) in Hps; [|done].
  apply (precedes_take _ _ _ (Z.to_nat reqCpus) Hnd) in Hps; [|done].
  apply (precedes_fmap cpu) in Hps. exact Hps.
Qed.

Lemma visit_01_snapshot2 : visit_01 ≡ₚ map_to_list snapshot2.
Proof. vm_compute. first [reflexivity | apply Permutation_swap]. Qed.

Lemma visit_10_snapshot2 : visit_10 ≡ₚ map_to_list snapshot2.
Proof. vm_compute. first [reflexivity | apply Permutation_swap]. Qed.

Lemma worstFit_ties_by_visit_order_witness :
  precedes 1 0 (worstFit policy_095 visit_10 0.5%float 2).
Proof.
  apply (worstFit_ties_by_visit_order policy_095 snapshot2 visit_10 0.5%float 2
           1 0 0%float 0%float).
  - apply visit_10_snapshot2.
  - exists 0%nat, 1%nat. split; [lia|split; reflexivity].
  - reflexivity.
  - reflexivity.
  - vm_compute. apply list_elem_of_In. simpl. tauto.
Defined.

(** C7 as stated fails: the same snapshot, visited in the two orders a Go
    [range] may take, gives two different selections, and in the second
    one CPU 1 is taken although CPU 0 has the same headroom. *)
Lemma worstFit_depends_on_visit_order :
  visit_01 ≡ₚ map_to_list snapshot2 /\ visit_10 ≡ₚ map_to_list snapshot2 /\
  snapshot2 !! 0 = Some 0%float /\ snapshot2 !! 1 = Some 0%float /\
  worstFit policy_095 visit_01 0.5%float 1 = [0] /\
  worstFit policy_095 visit_10 0.5%float 1 = [1] /\
  worstFit policy_095 visit_01 0.5%float 1 <> worstFit policy_095 visit_10 0.5%float 1.
Proof.
  split; [apply visit_01_snapshot2|].
  split; [apply visit_10_snapshot2|].
  repeat split; try (vm_compute; reflexivity).
  vm_compute. discriminate.
Qed.

Lemma AddContainer_reqUtil p s range container containerID :
  AddContainer p s range container containerID =
  let reqUtil := reqUtilOf container in
  let reqCpus := reqCpusOf container in
  if Float64.eq reqUtil 0 then Returns (s, None)
  else if GetRtCPUSetAndUtilOfContainer s containerID is Some _ then Returns (s, None)
  else
    let cpus := worstFit p range reqUtil reqCpus in
    if Z.of_nat (length cpus) <? reqCpus then Returns (s, Some (DoesNotFit containerID))
    else
      s' ← SetRtCPUSetAndUtilOfContainer s containerID (list_to_set cpus) reqUtil;
      Returns (s', None).
Proof.
  unfold AddContainer, reqUtilOf, reqCpusOf.
  destruct (rtRequests container) as [[reqPeriod reqRuntime] reqCpus]. reflexivity.
Qed.

(** When [AddContainer] places a new real-time container, what it records
    is the selection of [worstFit] with the requested utilisation. *)
Lemma AddContainer_commits_worstFit p s range container containerID s' :
  Float64.eq (reqUtilOf container) 0 = false ->
  GetRtCPUSetAndUtilOfContainer s containerID = None ->
  AddContainer p s range container containerID = Returns (s', None) ->
  GetRtCPUSetAndUtilOfContainer s' containerID
  = Some (list_to_set (worstFit p range (reqUtilOf container) (reqCpusOf container)),
          reqUtilOf container).
Proof.
  intros Hu Hnew. rewrite AddContainer_reqUtil. simpl. rewrite Hu, Hnew.
  destruct (_ <? _); [discriminate|].
  unfold SetRtCPUSetAndUtilOfContainer.
  destruct (containerToUtil s !! containerID) as [oldUtil|] eqn:Eu;
    [destruct (GetCPUSet (State_ s) containerID) as [oldSet|] eqn:Ec|]; simpl;
    try discriminate.
  - unfold GetRtCPUSetAndUtilOfContainer in Hnew. rewrite Ec, Eu in Hnew. discriminate.
  - intros [= <-]. unfold GetRtCPUSetAndUtilOfContainer, GetCPUSet. simpl.
    by rewrite !lookup_insert_eq.
Qed.



(** The scenario state is what three [SetRtCPUSetAndUtilOfContainer]
    calls leave behind. *)
Example state4_reached :
  (s1 ← SetRtCPUSetAndUtilOfContainer fresh4 "a" {[0]} 0x1.999999999999ap-4%float;
   s2 ← SetRtCPUSetAndUtilOfContainer s1 "b" {[1]} 0x1.3333333333333p-2%float;
   SetRtCPUSetAndUtilOfContainer s2 "c" {[3]} 0.5%float)
  = Returns state4.
Proof. vm_compute. reflexivity. Qed.

(** End-to-end scenario 4: a request for two CPUs at 0.1 is placed on CPUs
    2 and 0, whose utilisations become 0.1 and 0.2. *)
Example scenario_worst_fit :
  exists s',
    AddContainer policy_095 state4 (map_to_list snapshot4) (rtContainer 1000000 100000 2) "d"
    = Returns (s', None) /\
    GetRtCPUSetAndUtilOfContainer s' "d" = Some ({[0; 2]}, 0x1.999999999999ap-4%float) /\
    cpuToUtil s' !! 0 = Some 0x1.999999999999ap-3%float /\
    cpuToUtil s' !! 2 = Some 0x1.999999999999ap-4%float.
Proof. eexists. repeat split; vm_compute; reflexivity. Qed.

End cpumanager_facts.

(* ===================================================================== *)
(** ** Balanced resource allocation: the score *)
(* ===================================================================== *)

Module priorities_facts.
Import priorities.


Lemma int_part_exact m e : 0 <= e -> Float64.int_part m e = Z.pos m * 2 ^ e.
Proof.
  intros He. destruct e as [|e|e]; try lia; unfold Float64.int_part.
  - lia.
  - by rewrite Z.shiftl_mul_pow2.
Qed.

(** The population variance of a single finite value is [+0]. *)
Lemma variance_singleton f : Float64.finite f -> variance [f] = 0%float.
Proof.
  intros Hf. unfold variance. simpl.
  change (Float64.of_int (Z.of_nat 1)) with 1%float.
  rewrite (div_one f Hf), (square_of_deviation_from_self f Hf). reflexivity.
Qed.

(** The loop over the resources, when none of them is overbooked. *)
Lemma resourceFractions_all requested allocable range fractions :
  Forall (fun request =>
            Float64.ge (fractionOfCapacity (valueOf requested request) (valueOf allocable request)) 1
            = false) range ->
  resourceFractions requested allocable range fractions =
  Some (fractions ++
        ((fun request => fractionOfCapacity (valueOf requested request) (valueOf allocable request))
           <$> range)).
Proof.
  intros H. revert fractions.
  induction H as [|request range Hr _ IH]; intros fractions; simpl.
  - by rewrite app_nil_r.
  - rewrite Hr, IH, <- app_assoc. reflexivity.
Qed.

(** The loop returns early as soon as a resource is overbooked. *)
Lemma resourceFractions_overbooked requested allocable range fractions :
  Exists (fun request =>
            Float64.ge (fractionOfCapacity (valueOf requested request) (valueOf allocable request)) 1
            = true) range ->
  resourceFractions requested allocable range fractions = None.
Proof.
  intros H. revert fractions.
  induction H as [request range Hr|request range _ IH]; intros fractions; simpl.
  - by rewrite Hr.
  - destruct (Float64.ge _ 1); [done|apply IH].
Qed.

(** C10 (a single fraction).  When [requested] holds one resource, its
    fraction [f] satisfies [0 <= f < 1] and no volume fraction is
    included, the scorer returns [MaxNodeScore = 100]: the variance of
    the single value is zero. *)
Theorem single_fraction_scores_max
    (gate : bool) (request : string) (r : Z) (allocable : ResourceToValueMap)
    (includeVolumes : bool) (requestedVolumes allocatableVolumes : Z) :
  let f := fractionOfCapacity r (valueOf allocable request) in
  PrimFloat.leb 0 f = true -> PrimFloat.ltb f 1 = true ->
  includeVolumes && gate && (0 <? allocatableVolumes) = false ->
  balancedResourceScorer gate {[ request := r ]} allocable [request]
    includeVolumes requestedVolumes allocatableVolumes = Some MaxNodeScore.
Proof.
  intros f H0 H1 Hvol. unfold balancedResourceScorer.
  rewrite resourceFractions_all.
  - rewrite Hvol. cbn [fmap list_fmap app]. unfold valueOf at 1. rewrite lookup_singleton_eq. simpl. fold f.
    rewrite variance_singleton by (by apply between_0_1_finite).
    reflexivity.
  - constructor; [|constructor]. unfold valueOf at 1. rewrite lookup_singleton_eq. simpl. fold f.
    by apply lt_not_ge.
Qed.

Lemma single_fraction_scores_max_witness :
  balancedResourceScorer true {[ "cpu" := 7 ]} {[ "cpu" := 9 ]} ["cpu"] false 0 0
  = Some 100.
Proof.
  apply (single_fraction_scores_max true "cpu" 7 {[ "cpu" := 9 ]} false 0 0);
    reflexivity.
Defined.

(** C4: the score leaves [0, 100] when the volume fraction is large.
    Nothing is requested of a node with 10000 CPU and 20000 memory;
    volume balancing is on and 3 volumes are requested where 1 is
    allocatable.  The fractions are (0, 0, 3), their variance is 2 and
    the score is [(1 - 2) * 100 = -100]. *)
Theorem balancedResourceScorer_below_zero :
  balancedResourceScorer true {[ "cpu" := 0; "memory" := 0 ]}
    {[ "cpu" := 10000; "memory" := 20000 ]} ["cpu"; "memory"] true 3 1
  = Some (-100).
Proof. vm_compute. reflexivity. Qed.






End priorities_facts.

(* ===================================================================== *)
(** ** RtState.Delete and the policy's RemoveContainer *)
(* ===================================================================== *)

Module state_facts.
Import state cpumanager scenarios.

(** The loops over the CPUs of a set touch each CPU once: the entry of a
    CPU of the set is [f] of what it was (0 when it was missing), the
    others stay, whatever order [ToSliceNoSort] lists the CPUs in. *)
Lemma update_each_lookup f (set : CPUSet) (m : gmap Z float) cpu :
  update_each f set m !! cpu
  = if decide (cpu ∈ set) then Some (f (util_at m cpu)) else m !! cpu.
Proof.
  unfold update_each. revert cpu.
  pose (P := fun (r : gmap Z float) (X : gset Z) => forall cpu : Z,
               r !! cpu = if decide (cpu ∈ X) then Some (f (util_at m cpu)) else m !! cpu).
  apply (set_fold_ind_L P); unfold P; clear P.
  - intros cpu. by rewrite decide_False by set_solver.
  - intros x X r Hx IH cpu. destruct (decide (x = cpu)) as [<-|Hne].
    + rewrite lookup_insert_eq, decide_True by set_solver.
      unfold util_at. rewrite IH, decide_False by done. done.
    + rewrite lookup_insert_ne by done. rewrite IH.
      destruct (decide (cpu ∈ X)).
      * by rewrite decide_True by set_solver.
      * rewrite decide_False; [done|].
        rewrite elem_of_union, elem_of_singleton. by intros [?|?].
Qed.

(** C6 as stated fails: [Delete] of a container that was never assigned
    on a fresh state does not return; it panics. *)
Lemma Delete_unknown_does_not_return :
  GetCPUSet (State_ fresh2) "unknown" = None /\
  Delete fresh2 "unknown" = Panics "manage this error" /\
  (forall s', Delete fresh2 "unknown" <> Returns s').
Proof. repeat split. intros s'. vm_compute. discriminate. Qed.

(** C6, amended.  [Delete] of a containerID without a CPU-set assignment
    panics ("manage this error") and so yields no state.  The no-op is
    one level up: the policy's [RemoveContainer] does not call [Delete]
    for such a container and returns the state as it was, without an
    error. *)
Theorem Delete_unknown_panics
    (p : realTimePolicy) (s : RtState) (containerID : string) :
  GetCPUSet (State_ s) containerID = None ->
  Delete s containerID = Panics "manage this error" /\
  RemoveContainer p s containerID = Returns (s, None).
Proof.
  intros Hnone. unfold RemoveContainer, Delete, GetRtCPUSetAndUtilOfContainer.
  by rewrite Hnone.
Qed.

Lemma Delete_unknown_panics_witness :
  Delete fresh2 "unknown" = Panics "manage this error" /\
  RemoveContainer policy_095 fresh2 "unknown" = Returns (fresh2, None).
Proof.
  apply (Delete_unknown_panics policy_095 fresh2 "unknown").
  reflexivity.
Defined.

(** The bookkeeping is done in float64 and rounds: after setting "a" at
    0.1 and "b" at 0.2 on CPU 0 and deleting "a", the stored utilisation
    of CPU 0 is (0.1 + 0.2) - 0.1, which is not the 0.2 of "b". *)
Example bookkeeping_rounds :
  exists s,
    (s1 ← SetRtCPUSetAndUtilOfContainer fresh2 "a" {[0]} 0x1.999999999999ap-4%float;
     s2 ← SetRtCPUSetAndUtilOfContainer s1 "b" {[0]} 0x1.999999999999ap-3%float;
     Delete s2 "a") = Returns s /\
    containerToUtil s = {[ "b" := 0x1.999999999999ap-3%float ]} /\
    cpuToUtil s !! 0 = Some 0x1.999999999999bp-3%float.
Proof. eexists. repeat split; vm_compute; reflexivity. Qed.

End state_facts.

(* ===================================================================== *)
(** ** The PostStop hook *)
(* ===================================================================== *)

Module cm_facts.
Import cm scenarios.

(** C9 as stated fails: when the CPU manager's [RemoveContainer] fails,
    [PostStopContainer] returns that error, and the topology manager is
    not invoked at all. *)
Lemma PostStopContainer_propagates_error :
  PostStopContainer allGates cpuManagerFails "c1"
  = ([CpuManagerRemoveContainer "c1"], Some "cpu manager: remove failed").
Proof. reflexivity. Qed.

(** C9, amended.  [PostStopContainer] invokes the CPU manager's
    [RemoveContainer] when the CPUManager gate is on, and the topology
    manager's when the TopologyManager gate is on and the first call did
    not fail; it returns the first error of the calls it made, and nil
    only when none of them failed. *)
Theorem PostStopContainer_returns_first_error
    {E : Type} (gates : FeatureGate) (i : internalContainerLifecycleImpl E)
    (containerID : string) :
  let cpuErr := if CPUManager gates then cpuManager_RemoveContainer i containerID else None in
  let '(calls, err) := PostStopContainer gates i containerID in
  (CpuManagerRemoveContainer containerID ∈ calls <-> CPUManager gates = true) /\
  (TopologyManagerRemoveContainer containerID ∈ calls <->
     TopologyManager gates = true /\ cpuErr = None) /\
  err = match cpuErr with
        | Some e => Some e
        | None => if TopologyManager gates
                  then topologyManager_RemoveContainer i containerID else None
        end.
Proof.
  unfold PostStopContainer.
  destruct (CPUManager gates), (cpuManager_RemoveContainer i containerID),
    (TopologyManager gates); simpl;
    repeat split; try done; intros;
    rewrite ?elem_of_cons, ?elem_of_nil in *; intuition congruence.
Qed.

End cm_facts.

(* ===================================================================== *)
(** ** QoS classes *)
(* ===================================================================== *)

Module qos_facts.
Import qos.

Lemma union_with_empty_l (m : ResourceList) : union_with plus ∅ m = m.
Proof.
  apply map_eq. intros k. rewrite lookup_union_with, lookup_empty.
  by destruct (m !! k).
Qed.

Lemma union_with_empty_r (m : ResourceList) : union_with plus m ∅ = m.
Proof.
  apply map_eq. intros k. rewrite lookup_union_with, lookup_empty.
  by destruct (m !! k).
Qed.

Lemma union_with_shuffle (a b c : ResourceList) :
  union_with plus a (union_with plus b c) = union_with plus (union_with plus b a) c.
Proof.
  apply map_eq. intros k. rewrite !lookup_union_with.
  destruct (a !! k), (b !! k), (c !! k); simpl; f_equal; lia.
Qed.

(** [addTo] on a total that is itself a union. *)
Lemma addTo_union name quantity (part total : ResourceList) :
  part !! name = None ->
  addTo name quantity (union_with plus part total)
  = union_with plus (<[name := quantity]> part) total.
Proof.
  intros Hpart. apply map_eq. intros k. unfold addTo.
  rewrite (lookup_union_with _ part total name), Hpart.
  rewrite lookup_union_with.
  destruct (decide (name = k)) as [<-|Hne].
  - rewrite lookup_insert_eq.
    destruct (total !! name) eqn:E; simpl; rewrite lookup_insert_eq; done.
  - rewrite (lookup_insert_ne part) by done.
    destruct (total !! name) eqn:E; simpl;
      rewrite lookup_insert_ne, lookup_union_with by done; done.
Qed.

Lemma positivePart_insert_keep name quantity (list : ResourceList) :
  isSupportedQoSComputeResource name = true -> isPositive quantity = true ->
  positivePart (<[name := quantity]> list) = <[name := quantity]> (positivePart list).
Proof.
  unfold isSupportedQoSComputeResource, isPositive, positivePart.
  intros Hs%bool_decide_eq_true Hp%Z.ltb_lt.
  by apply map_filter_insert_True.
Qed.

Lemma positivePart_insert_skip name quantity (list : ResourceList) :
  list !! name = None ->
  isSupportedQoSComputeResource name && isPositive quantity = false ->
  positivePart (<[name := quantity]> list) = positivePart list.
Proof.
  unfold isSupportedQoSComputeResource, isPositive, positivePart.
  intros Hnone Hskip. apply map_filter_insert_not'.
  - simpl. intros [Hs Hp]. apply andb_false_iff in Hskip as [Hf|Hf].
    + by apply bool_decide_eq_false in Hf.
    + apply Z.ltb_ge in Hf. lia.
  - intros y Hy. congruence.
Qed.

Lemma positivePart_None name (list : ResourceList) :
  list !! name = None -> positivePart list !! name = None.
Proof.
  intros H. unfold positivePart. rewrite map_lookup_filter, H. done.
Qed.

(** The loop over the requests of a container adds their positive part
    to the totals. *)
Lemma processRequests_union list requests :
  processRequests list requests = union_with plus (positivePart list) requests.
Proof.
  unfold processRequests.
  apply (map_fold_weak_ind
           (fun r m => r = union_with plus (positivePart m) requests)).
  - unfold positivePart. by rewrite map_filter_empty, union_with_empty_l.
  - intros name quantity m r Hnone ->. unfold requestStep.
    destruct (isSupportedQoSComputeResource name) eqn:Es; simpl.
    + destruct (isPositive quantity) eqn:Ep.
      * rewrite positivePart_insert_keep by done.
        apply addTo_union. by apply positivePart_None.
      * rewrite positivePart_insert_skip; [done..|]. by rewrite Es, Ep.
    + rewrite positivePart_insert_skip; [done..|]. by rewrite Es.
Qed.

(** The loop over the limits does the same and collects the names of the
    positive limits. *)
Lemma processLimits_union list limits :
  processLimits list limits
  = (dom (positivePart list), union_with plus (positivePart list) limits).
Proof.
  unfold processLimits.
  apply (map_fold_weak_ind
           (fun r m => r = (dom (positivePart m),
                            union_with plus (positivePart m) limits))).
  - unfold positivePart. by rewrite map_filter_empty, union_with_empty_l, dom_empty_L.
  - intros name quantity m r Hnone ->. unfold limitStep.
    destruct (isSupportedQoSComputeResource name) eqn:Es; simpl.
    + destruct (isPositive quantity) eqn:Ep.
      * rewrite positivePart_insert_keep by done.
        rewrite dom_insert_L. f_equal.
        apply addTo_union. by apply positivePart_None.
      * rewrite positivePart_insert_skip; [done..|]. by rewrite Es, Ep.
    + rewrite positivePart_insert_skip; [done..|]. by rewrite Es.
Qed.

(** The loop bodies commute: the order of the visit does not matter. *)
Lemma addTo_singleton name quantity (total : ResourceList) :
  addTo name quantity total = union_with plus {[ name := quantity ]} total.
Proof.
  rewrite <- (union_with_empty_l total) at 1.
  rewrite addTo_union by apply lookup_empty. by rewrite insert_empty.
Qed.

Lemma addTo_comm n1 q1 n2 q2 (total : ResourceList) :
  addTo n1 q1 (addTo n2 q2 total) = addTo n2 q2 (addTo n1 q1 total).
Proof.
  rewrite !addTo_singleton. apply map_eq. intros k. rewrite !lookup_union_with.
  destruct ({[n1 := q1]} !! k), ({[n2 := q2]} !! k), (total !! k);
    simpl; f_equal; lia.
Qed.

Lemma requestStep_comm n1 q1 n2 q2 requests :
  requestStep n1 q1 (requestStep n2 q2 requests)
  = requestStep n2 q2 (requestStep n1 q1 requests).
Proof.
  unfold requestStep.
  destruct (isSupportedQoSComputeResource n1), (isSupportedQoSComputeResource n2),
    (isPositive q1), (isPositive q2); simpl; try done. apply addTo_comm.
Qed.

Lemma limitStep_comm n1 q1 n2 q2 st :
  limitStep n1 q1 (limitStep n2 q2 st) = limitStep n2 q2 (limitStep n1 q1 st).
Proof.
  destruct st as [found limits]. unfold limitStep.
  destruct (isSupportedQoSComputeResource n1), (isSupportedQoSComputeResource n2),
    (isPositive q1), (isPositive q2); simpl; try done.
  f_equal; [|apply addTo_comm].
  by rewrite !(assoc_L (∪)), (comm_L (∪) {[n1]}).
Qed.

Lemma foldl_uncurry {K V B} (f : K -> V -> B -> B) (b : B) (l : list (K * V)) :
  foldl (fun b '(k, v) => f k v b) b l = foldr (uncurry f) b (reverse l).
Proof.
  revert b. induction l as [|[k v] l IH]; intros b; [done|].
  rewrite reverse_cons, foldr_app. simpl. apply IH.
Qed.

(** Whatever order [range] visits the requests in, the loop leaves the
    totals that [processRequests] computes. *)
Lemma processRequests_any_order (rl requests : ResourceList)
    (range : list (string * Quantity)) :
  range ≡ₚ map_to_list rl ->
  foldl (fun requests '(name, quantity) => requestStep name quantity requests)
        requests range
  = processRequests rl requests.
Proof.
  intros Hrange. unfold processRequests. rewrite map_fold_foldr, foldl_uncurry.
  apply (foldr_permutation eq).
  - solve_proper.
  - intros j1 [? ?] j2 [? ?] b _ _ _. apply requestStep_comm.
  - by rewrite reverse_Permutation.
Qed.

Lemma processLimits_any_order (rl limits : ResourceList)
    (range : list (string * Quantity)) :
  range ≡ₚ map_to_list rl ->
  foldl (fun st '(name, quantity) => limitStep name quantity st) (∅, limits) range
  = processLimits rl limits.
Proof.
  intros Hrange. unfold processLimits. rewrite map_fold_foldr, foldl_uncurry.
  apply (foldr_permutation eq).
  - solve_proper.
  - intros j1 [? ?] j2 [? ?] b _ _ _. apply limitStep_comm.
  - by rewrite reverse_Permutation.
Qed.

(** [isGuaranteed] survives a container exactly when its limits are
    complete. *)
Lemma processContainer_spec requests limits isGuaranteed container :
  processContainer (requests, limits, isGuaranteed) container
  = (union_with plus (positivePart (Requests container)) requests,
     union_with plus (positivePart (Limits container)) limits,
     isGuaranteed && limitsComplete container).
Proof.
  unfold processContainer. rewrite processRequests_union, processLimits_union.
  f_equal. unfold limitsComplete, LimitsComplete.
  set (found := dom (positivePart (Limits container))).
  destruct (bool_decide_reflect (ResourceMemory ∈ found)),
    (bool_decide_reflect (ResourceCPU ∈ found)),
    (bool_decide_reflect (ResourceRtRuntime ∈ found)); simpl;
    rewrite ?andb_true_r, ?andb_false_r;
    first [ by rewrite bool_decide_eq_true_2, andb_true_r by tauto
          | by rewrite bool_decide_eq_false_2, andb_false_r by tauto ].
Qed.

Lemma foldl_processContainer containers requests limits isGuaranteed :
  foldl processContainer (requests, limits, isGuaranteed) containers
  = (union_with plus (aggregate (Requests <$> containers)) requests,
     union_with plus (aggregate (Limits <$> containers)) limits,
     isGuaranteed && forallb limitsComplete containers).
Proof.
  revert requests limits isGuaranteed.
  induction containers as [|c containers IH]; intros requests limits isGuaranteed.
  - unfold aggregate. simpl. by rewrite !union_with_empty_l, andb_true_r.
  - cbn [foldl]. rewrite processContainer_spec, IH. unfold aggregate. simpl.
    rewrite !union_with_shuffle, andb_assoc. reflexivity.
Qed.

(** [aggregate] is, per name, the sum of the positive quantities recorded
    under that name, and has no entry where there is none. *)
Lemma aggregate_lookup lists name :
  aggregate lists !! name =
  match omap (fun list => positivePart list !! name) lists with
  | [] => None
  | quantities => Some (foldr Z.add 0 quantities)
  end.
Proof.
  induction lists as [|list lists IH].
  - apply lookup_empty.
  - change (aggregate (list :: lists))
      with (union_with plus (positivePart list) (aggregate lists)).
    rewrite lookup_union_with, IH. cbn [omap list_omap].
    destruct (positivePart list !! name) as [q|]; simpl.
    + destruct (omap _ lists); simpl; f_equal; lia.
    + by destruct (omap _ lists).
Qed.

Lemma positivePart_lookup list name quantity :
  positivePart list !! name = Some quantity <->
  list !! name = Some quantity /\ name ∈ supportedQoSComputeResources /\ 0 < quantity.
Proof. unfold positivePart. by rewrite map_lookup_filter_Some. Qed.

(** The final check of the requests against the limits. *)
Lemma requests_match_limits (requests limits : ResourceList) :
  forallb (fun '(name, req) =>
             match limits !! name with
             | Some lim => lim =? req
             | None => false
             end) (map_to_list requests) = true
  <-> requests ⊆ limits.
Proof.
  rewrite forallb_forall, map_subseteq_spec. split.
  - intros H name req Hreq.
    specialize (H (name, req)). simpl in H.
    destruct (limits !! name) as [lim|]; [|discriminate H].
    + rewrite (proj1 (Z.eqb_eq lim req)); [done|]. apply H.
      by apply list_elem_of_In, elem_of_map_to_list.
    + apply list_elem_of_In, elem_of_map_to_list. done.
  - intros H [name req] Hin%list_elem_of_In%elem_of_map_to_list.
    rewrite (H _ _ Hin). apply Z.eqb_refl.
Qed.

Lemma GetPodQOS_unfold pod :
  GetPodQOS pod =
  if (size (R pod) =? 0)%nat && (size (L pod) =? 0)%nat then PodQOSBestEffort
  else if (forallb limitsComplete (allContainers pod)
           && forallb (fun '(name, req) =>
                         match L pod !! name with
                         | Some lim => lim =? req
                         | None => false
                         end) (map_to_list (R pod)))
          && (size (R pod) =? size (L pod))%nat
       then PodQOSGuaranteed else PodQOSBurstable.
Proof.
  unfold GetPodQOS. fold (allContainers pod).
  rewrite foldl_processContainer, !union_with_empty_r. reflexivity.
Qed.

(** C5 (QoS classification).  With [R] and [L] the aggregates of the
    positive requests and limits under recognised names over all regular
    and init containers: the class is BestEffort iff [R] and [L] are both
    empty; otherwise Guaranteed iff every container's limits are complete
    and [R] equals [L] (same keys, same quantities); otherwise
    Burstable. *)
Theorem GetPodQOS_classifies (pod : Pod) :
  (GetPodQOS pod = PodQOSBestEffort <-> R pod = ∅ /\ L pod = ∅) /\
  (GetPodQOS pod = PodQOSGuaranteed <->
     ~ (R pod = ∅ /\ L pod = ∅) /\
     Forall LimitsComplete (allContainers pod) /\ R pod = L pod) /\
  (GetPodQOS pod = PodQOSBurstable <->
     ~ (R pod = ∅ /\ L pod = ∅) /\
     ~ (Forall LimitsComplete (allContainers pod) /\ R pod = L pod)).
Proof.
  rewrite GetPodQOS_unfold.
  assert (Hempty : (size (R pod) =? 0)%nat && (size (L pod) =? 0)%nat = true
                   <-> R pod = ∅ /\ L pod = ∅).
  { rewrite andb_true_iff, !Nat.eqb_eq, !map_size_empty_iff. done. }
  assert (Hcomplete : forallb limitsComplete (allContainers pod) = true
                      <-> Forall LimitsComplete (allContainers pod)).
  { rewrite forallb_forall, Forall_forall. unfold limitsComplete.
    setoid_rewrite bool_decide_eq_true. setoid_rewrite list_elem_of_In. done. }
  assert (Hmatch :
    forallb (fun '(name, req) =>
               match L pod !! name with
               | Some lim => lim =? req
               | None => false
               end) (map_to_list (R pod))
    && (size (R pod) =? size (L pod))%nat = true <-> R pod = L pod).
  { rewrite andb_true_iff, requests_match_limits, Nat.eqb_eq. split.
    - intros [Hsub Hsize]. apply map_subseteq_size_eq; [done|lia].
    - intros ->. done. }
  destruct ((size (R pod) =? 0)%nat && (size (L pod) =? 0)%nat).
  { pose proof (proj1 Hempty eq_refl). repeat split; try done; tauto. }
  assert (Hne : ~ (R pod = ∅ /\ L pod = ∅)).
  { intros H. apply Hempty in H. discriminate. }
  destruct (forallb limitsComplete (allContainers pod)); simpl.
  - pose proof (proj1 Hcomplete eq_refl).
    destruct (_ && _).
    + pose proof (proj1 Hmatch eq_refl). repeat split; try done; tauto.
    + assert (R pod <> L pod) by (intros H'; apply Hmatch in H'; discriminate).
      repeat split; try done; tauto.
  - assert (~ Forall LimitsComplete (allContainers pod))
      by (intros H'; apply Hcomplete in H'; discriminate).
    repeat split; try done; tauto.
Qed.

(** End-to-end scenarios 1 to 3, cpu in thousandths and memory in bytes. *)
Example scenario_guaranteed :
  GetPodQOS {| Containers := [ {| Requests := {[ "cpu" := 1000; "memory" := 1073741824 ]};
                                  Limits := {[ "cpu" := 1000; "memory" := 1073741824 ]} |} ];
               InitContainers := [] |} = PodQOSGuaranteed.
Proof. vm_compute. reflexivity. Qed.

Example scenario_burstable :
  GetPodQOS {| Containers := [ {| Requests := {[ "cpu" := 500 ]}; Limits := ∅ |} ];
               InitContainers := [] |} = PodQOSBurstable.
Proof. vm_compute. reflexivity. Qed.

Example scenario_best_effort :
  GetPodQOS {| Containers := [ {| Requests := ∅; Limits := ∅ |} ];
               InitContainers := [] |} = PodQOSBestEffort.
Proof. vm_compute. reflexivity. Qed.

End qos_facts.

(* ===================================================================== *)
(** ** RtState: what the operations leave behind *)
(* ===================================================================== *)

Module rtstate_facts.
Import state scenarios state_facts.

(** The map that [NewRtState] and [SetDefaultCPUSet] build: 0 for the
    CPUs of the set and no other entry. *)
Lemma zero_map_lookup (set : CPUSet) cpu :
  set_fold (fun cpu (m : gmap Z float) => <[cpu := 0%float]> m) ∅ set !! cpu
  = if decide (cpu ∈ set) then Some 0%float else None.
Proof.
  revert cpu.
  pose (P := fun (r : gmap Z float) (X : gset Z) => forall cpu : Z,
               r !! cpu = if decide (cpu ∈ X) then Some 0%float else None).
  apply (set_fold_ind_L P); unfold P; clear P.
  - intros cpu. by rewrite decide_False by set_solver.
  - intros x X r Hx IH cpu. destruct (decide (x = cpu)) as [<-|Hne].
    + by rewrite lookup_insert_eq, decide_True by set_solver.
    + rewrite lookup_insert_ne by done. rewrite IH.
      destruct (decide (cpu ∈ X)).
      * by rewrite decide_True by set_solver.
      * rewrite decide_False; [done|].
        rewrite elem_of_union, elem_of_singleton. by intros [?|?].
Qed.

Lemma update_each_empty f (m : gmap Z float) : update_each f ∅ m = m.
Proof. apply map_eq. intros cpu. rewrite update_each_lookup. by rewrite decide_False by set_solver. Qed.

Lemma release_not_negative containerUtil v :
  Float64.lt (release containerUtil v) 0 = false.
Proof.
  unfold release. destruct (Float64.lt (v - containerUtil) 0) eqn:E; [reflexivity|exact E].
Qed.

(** [SetRtCPUSetAndUtilOfContainer], by the two cases of its first
    test. *)
Lemma SetRt_fresh s containerID set util :
  containerToUtil s !! containerID = None ->
  SetRtCPUSetAndUtilOfContainer s containerID set util
  = Returns {| State_ := SetCPUSet (State_ s) containerID set;
               containerToUtil := <[containerID := util]> (containerToUtil s);
               cpuToUtil := update_each (fun v => v + util)%float set (cpuToUtil s) |}.
Proof. intros H. unfold SetRtCPUSetAndUtilOfContainer. by rewrite H. Qed.

Lemma SetRt_again s containerID oldSet oldUtil set util :
  GetRtCPUSetAndUtilOfContainer s containerID = Some (oldSet, oldUtil) ->
  SetRtCPUSetAndUtilOfContainer s containerID set util
  = Returns {| State_ := SetCPUSet (State_ s) containerID set;
               containerToUtil := <[containerID := util]> (containerToUtil s);
               cpuToUtil :=
                 update_each (fun v => v + util)%float set
                   (update_each (fun v => v - oldUtil)%float oldSet (cpuToUtil s)) |}.
Proof.
  unfold GetRtCPUSetAndUtilOfContainer, SetRtCPUSetAndUtilOfContainer.
  destruct (GetCPUSet (State_ s) containerID) as [cs|]; [|done].
  destruct (containerToUtil s !! containerID) as [u|]; [|done].
  by intros [= -> ->].
Qed.

Lemma SetRt_inv s containerID set util s' :
  SetRtCPUSetAndUtilOfContainer s containerID set util = Returns s' ->
  State_ s' = SetCPUSet (State_ s) containerID set /\
  containerToUtil s' = <[containerID := util]> (containerToUtil s).
Proof.
  unfold SetRtCPUSetAndUtilOfContainer.
  destruct (containerToUtil s !! containerID) as [u|];
    [destruct (GetCPUSet (State_ s) containerID) as [cs|]|]; simpl; try done;
    by intros [= <-].
Qed.

Lemma SetRt_recorded s containerID set util s' :
  SetRtCPUSetAndUtilOfContainer s containerID set util = Returns s' ->
  GetRtCPUSetAndUtilOfContainer s' containerID = Some (set, util).
Proof.
  intros [Hst Hcu]%SetRt_inv. unfold GetRtCPUSetAndUtilOfContainer, GetCPUSet.
  rewrite Hst, Hcu. simpl. by rewrite !lookup_insert_eq.
Qed.

Lemma Delete_inv s containerID s' :
  Delete s containerID = Returns s' ->
  is_Some (GetCPUSet (State_ s) containerID) /\
  State_ s' = State_Delete (State_ s) containerID /\
  containerToUtil s' = delete containerID (containerToUtil s).
Proof.
  unfold Delete, GetRtCPUSetAndUtilOfContainer.
  destruct (GetCPUSet (State_ s) containerID) as [cs|]; [|done].
  destruct (containerToUtil s !! containerID) as [u|] eqn:Eu; intros [= <-]; simpl.
  - done.
  - repeat split; [by eexists|]. by rewrite delete_id.
Qed.

Lemma Delete_rt s containerID cpuSet containerUtil :
  GetRtCPUSetAndUtilOfContainer s containerID = Some (cpuSet, containerUtil) ->
  Delete s containerID
  = Returns {| State_ := State_Delete (State_ s) containerID;
               containerToUtil := delete containerID (containerToUtil s);
               cpuToUtil := update_each (release containerUtil) cpuSet (cpuToUtil s) |}.
Proof.
  intros Hget. unfold Delete. rewrite Hget.
  unfold GetRtCPUSetAndUtilOfContainer in Hget.
  destruct (GetCPUSet (State_ s) containerID); [reflexivity|done].
Qed.

Lemma Delete_assigned s containerID cpuSet :
  GetCPUSet (State_ s) containerID = Some cpuSet ->
  exists s', Delete s containerID = Returns s'.
Proof.
  intros H. unfold Delete. rewrite H.
  destruct (GetRtCPUSetAndUtilOfContainer s containerID) as [[? ?]|]; by eexists.
Qed.

(** The invariant is kept by the two mutators, and under it neither
    panics where the policy calls them. *)
Lemma NewRtState_consistent st : consistent (NewRtState st).
Proof. unfold consistent. simpl. rewrite dom_empty_L. apply empty_subseteq. Qed.

Lemma SetRt_consistent s containerID set util :
  consistent s ->
  exists s', SetRtCPUSetAndUtilOfContainer s containerID set util = Returns s'
             /\ consistent s'.
Proof.
  unfold consistent. intros Hc.
  assert (exists s', SetRtCPUSetAndUtilOfContainer s containerID set util = Returns s')
    as [s' Hs'].
  { unfold SetRtCPUSetAndUtilOfContainer.
    destruct (containerToUtil s !! containerID) as [u|] eqn:Eu; [|by eexists].
    destruct (GetCPUSet (State_ s) containerID) as [cs|] eqn:Ec; [by eexists|].
    exfalso. apply (elem_of_dom_2 (containerToUtil s)) in Eu. apply Hc in Eu.
    apply elem_of_dom in Eu as [? Hx]. unfold GetCPUSet in Ec. congruence. }
  exists s'. split; [done|].
  apply SetRt_inv in Hs' as [-> ->]. simpl. rewrite !dom_insert_L.
  by apply union_mono_l.
Qed.

Lemma Delete_consistent s containerID s' :
  consistent s -> Delete s containerID = Returns s' -> consistent s'.
Proof.
  unfold consistent. intros Hc (_ & -> & ->)%Delete_inv. simpl.
  rewrite !dom_delete_L. intros x [Hx Hne]%elem_of_difference.
  apply elem_of_difference. split; [by apply Hc|done].
Qed.



(** X2.  [SetRtCPUSetAndUtilOfContainer] panics exactly when the
    container has a recorded utilisation but no CPU set; in every other
    state it returns. *)
Theorem SetRt_panics_iff
    (s : RtState) (containerID : string) (set : CPUSet) (util : float) :
  (exists msg, SetRtCPUSetAndUtilOfContainer s containerID set util = Panics msg) <->
  is_Some (containerToUtil s !! containerID) /\ GetCPUSet (State_ s) containerID = None.
Proof.
  unfold SetRtCPUSetAndUtilOfContainer.
  destruct (containerToUtil s !! containerID) as [u|];
    [destruct (GetCPUSet (State_ s) containerID) as [cs|]|]; simpl.
  - split; [by intros [? ?]|by intros [_ ?]].
  - split; [by intros _; split; [eexists|]|by intros _; eexists].
  - split; [by intros [? ?]|by intros [[? ?] _]].
Qed.

(** X3.  Setting a container that is already set moves its utilisation:
    the old utilisation is taken off each CPU of the old set, and then
    the new one is charged to each CPU of the new set; the CPUs in
    neither set keep their entry.  All of it is float64 arithmetic on
    the entry, read as 0 where it is missing. *)
Theorem SetRt_moves_utilisation
    (s : RtState) (containerID : string) (oldSet set : CPUSet) (oldUtil util : float) :
  GetRtCPUSetAndUtilOfContainer s containerID = Some (oldSet, oldUtil) ->
  exists s',
    SetRtCPUSetAndUtilOfContainer s containerID set util = Returns s' /\
    forall cpu,
      let v := util_at (cpuToUtil s) cpu in
      cpuToUtil s' !! cpu =
      if decide (cpu ∈ set) then
        Some ((if decide (cpu ∈ oldSet) then v - oldUtil else v) + util)%float
      else if decide (cpu ∈ oldSet) then Some (v - oldUtil)%float
      else cpuToUtil s !! cpu.
Proof.
  intros Hget. eexists. split; [by apply SetRt_again|].
  intros cpu v. simpl. rewrite !update_each_lookup.
  destruct (decide (cpu ∈ set)); [|done].
  f_equal. f_equal. unfold util_at at 1. rewrite update_each_lookup.
  by destruct (decide (cpu ∈ oldSet)).
Qed.

Lemma SetRt_moves_utilisation_witness :
  exists s',
    SetRtCPUSetAndUtilOfContainer fresh2_a "a" {[1]} 0.25%float = Returns s' /\
    cpuToUtil s' !! 0 = Some 0%float /\ cpuToUtil s' !! 1 = Some 0.25%float.
Proof.
  destruct (SetRt_moves_utilisation fresh2_a "a" {[0]} {[1]} 0.5%float 0.25%float)
    as (s' & Hs' & Hcpu); [vm_compute; reflexivity|].
  exists s'. split; [exact Hs'|].
  split; rewrite Hcpu; vm_compute; reflexivity.
Defined.

(** X4.  After [Delete] has returned, the container has neither a CPU
    set nor a utilisation, and every other container has what it had. *)
Theorem Delete_then_GetRt (s s' : RtState) (containerID : string) :
  Delete s containerID = Returns s' ->
  GetCPUSet (State_ s') containerID = None /\
  containerToUtil s' !! containerID = None /\
  GetRtCPUSetAndUtilOfContainer s' containerID = None /\
  (forall other, other <> containerID ->
     GetCPUSet (State_ s') other = GetCPUSet (State_ s) other /\
     GetRtCPUSetAndUtilOfContainer s' other = GetRtCPUSetAndUtilOfContainer s other).
Proof.
  intros (_ & Hst & Hcu)%Delete_inv. unfold GetRtCPUSetAndUtilOfContainer, GetCPUSet.
  rewrite Hst, Hcu. simpl. rewrite !lookup_delete_eq.
  repeat split; try done; by rewrite !lookup_delete_ne.
Qed.

Lemma Delete_then_GetRt_witness :
  GetCPUSet (State_ fresh2) "a" = None.
Proof.
  refine (proj1 (Delete_then_GetRt fresh2_a fresh2 "a" _)).
  vm_compute. reflexivity.
Defined.

(** X5.  [Delete] of a real-time container takes its utilisation off
    each CPU of its set and clamps the entry at zero: no CPU of the set
    is left with a negative utilisation, whatever was stored.  The
    entries of the other CPUs are not touched. *)
Theorem Delete_clamps_at_zero
    (s : RtState) (containerID : string) (cpuSet : CPUSet) (containerUtil : float) :
  GetRtCPUSetAndUtilOfContainer s containerID = Some (cpuSet, containerUtil) ->
  exists s',
    Delete s containerID = Returns s' /\
    (forall cpu, cpu ∈ cpuSet ->
       cpuToUtil s' !! cpu = Some (release containerUtil (util_at (cpuToUtil s) cpu)) /\
       Float64.lt (util_at (cpuToUtil s') cpu) 0 = false) /\
    (forall cpu, cpu ∉ cpuSet -> cpuToUtil s' !! cpu = cpuToUtil s !! cpu).
Proof.
  intros Hget. eexists. split; [by apply Delete_rt|]. cbn [cpuToUtil]. split.
  - intros cpu Hin. assert (Hl := update_each_lookup (release containerUtil) cpuSet
                                    (cpuToUtil s) cpu).
    rewrite decide_True in Hl by done. split; [done|].
    unfold util_at at 1. rewrite Hl. simpl. apply release_not_negative.
  - intros cpu Hout. rewrite update_each_lookup. by rewrite decide_False.
Qed.

Lemma Delete_clamps_at_zero_witness :
  exists s', Delete fresh2_a "a" = Returns s' /\ cpuToUtil s' !! 0 = Some 0%float.
Proof.
  destruct (Delete_clamps_at_zero fresh2_a "a" {[0]} 0.5%float)
    as (s' & Hs' & Hin & _); [vm_compute; reflexivity|].
  exists s'. split; [exact Hs'|].
  destruct (Hin 0) as [-> _]; [vm_compute; reflexivity|].
  vm_compute. reflexivity.
Defined.

(** X6.  [NewRtState] wraps a state without reading its assignments:
    the utilisation map has an entry, 0, for exactly the CPUs of the
    default CPU set, and no container has a real-time assignment, also
    not one that has a CPU set in the wrapped state. *)
Theorem NewRtState_is_idle (st : State) :
  State_ (NewRtState st) = st /\
  (forall cpu, cpuToUtil (NewRtState st) !! cpu
               = if decide (cpu ∈ defaultCPUSet st) then Some 0%float else None) /\
  (forall containerID, GetRtCPUSetAndUtilOfContainer (NewRtState st) containerID = None).
Proof.
  split; [done|]. split.
  - intros cpu. apply zero_map_lookup.
  - intros containerID. unfold GetRtCPUSetAndUtilOfContainer. simpl.
    by destruct (GetCPUSet st containerID).
Qed.

(** X7.  [SetDefaultCPUSet] replaces the utilisation map by one that is
    0 on exactly the CPUs of the new set; it does not touch the
    containers: each keeps its CPU set and its utilisation, which the
    new map no longer accounts for. *)
Theorem SetDefaultCPUSet_resets (s : RtState) (set : CPUSet) :
  let s' := SetDefaultCPUSet s set in
  defaultCPUSet (State_ s') = set /\
  (forall cpu, cpuToUtil s' !! cpu = if decide (cpu ∈ set) then Some 0%float else None) /\
  (forall containerID,
     GetCPUSet (State_ s') containerID = GetCPUSet (State_ s) containerID /\
     GetRtCPUSetAndUtilOfContainer s' containerID
     = GetRtCPUSetAndUtilOfContainer s containerID).
Proof.
  simpl. split; [done|]. split; [|done].
  intros cpu. apply zero_map_lookup.
Qed.

End rtstate_facts.

(* ===================================================================== *)
(** ** The real-time policy: the calls and their effect on the state *)
(* ===================================================================== *)

Module policy_facts.
Import state cpumanager scenarios state_facts cpumanager_facts rtstate_facts.

Lemma worstFit_no_cpus p range reqUtil reqCpus :
  reqCpus <= 0 -> worstFit p range reqUtil reqCpus = [].
Proof.
  intros Hn. unfold worstFit.
  destruct (Z.ltb_spec (Z.of_nat (length (scoreCpus p range reqUtil))) reqCpus); [done|].
  replace (Z.to_nat reqCpus) with 0%nat by lia. reflexivity.
Qed.

Lemma elem_of_worstFit p range reqUtil reqCpus c :
  c ∈ worstFit p range reqUtil reqCpus ->
  exists util, (c, util) ∈ range /\ fits p reqUtil util = true.
Proof.
  unfold worstFit. destruct (_ <? _); [by intros ?%elem_of_nil|].
  intros (sc & -> & Hsc)%list_elem_of_fmap.
  apply subseteq_take, elem_of_SliceStable, elem_of_scoreCpus in Hsc
    as (util & Hin & _ & Hf).
  eauto.
Qed.

Lemma worstFit_length p range reqUtil reqCpus :
  0 <= reqCpus <= Z.of_nat (length (scoreCpus p range reqUtil)) ->
  Z.of_nat (length (worstFit p range reqUtil reqCpus)) = reqCpus.
Proof.
  intros Hn. unfold worstFit.
  destruct (Z.ltb_spec (Z.of_nat (length (scoreCpus p range reqUtil))) reqCpus); [lia|].
  rewrite length_fmap, length_take, SliceStable_length. lia.
Qed.

Lemma worstFit_NoDup p m range reqUtil reqCpus :
  range ≡ₚ map_to_list m -> NoDup (worstFit p range reqUtil reqCpus).
Proof.
  intros Hrange. unfold worstFit. destruct (_ <? _); [constructor|].
  eapply sublist_NoDup; [|apply fmap_sublist, sublist_take].
  rewrite SliceStable_perm. by apply (NoDup_scored_cpus p m).
Qed.

(** The cases in which [AddContainer] returns without an error. *)
Lemma AddContainer_ok_inv p s range container containerID s' :
  AddContainer p s range container containerID = Returns (s', None) ->
  (s' = s /\ (Float64.eq (reqUtilOf container) 0 = true
              \/ is_Some (GetRtCPUSetAndUtilOfContainer s containerID)))
  \/ (Float64.eq (reqUtilOf container) 0 = false /\
      GetRtCPUSetAndUtilOfContainer s containerID = None /\
      SetRtCPUSetAndUtilOfContainer s containerID
        (list_to_set (worstFit p range (reqUtilOf container) (reqCpusOf container)))
        (reqUtilOf container) = Returns s').
Proof.
  rewrite AddContainer_reqUtil. cbv zeta.
  destruct (Float64.eq (reqUtilOf container) 0); [intros [= <-]; left; by split; [|left]|].
  destruct (GetRtCPUSetAndUtilOfContainer s containerID) as [x|] eqn:Eg;
    [intros [= <-]; left; split; [done|right; by eexists]|].
  destruct (_ <? _); [done|].
  destruct (SetRtCPUSetAndUtilOfContainer _ _ _ _) as [s1|msg] eqn:Es; simpl; [|done].
  intros [= <-]. right. done.
Qed.

(** Each call keeps the invariant of the state, and under it does not
    panic. *)
Lemma policyStep_consistent p s c :
  consistent s ->
  exists s' err, policyStep p s c = Returns (s', err) /\ consistent s'.
Proof.
  intros Hc. destruct c as [range container containerID|containerID]; simpl.
  - rewrite AddContainer_reqUtil. cbv zeta.
    destruct (Float64.eq (reqUtilOf container) 0); [by eauto|].
    destruct (GetRtCPUSetAndUtilOfContainer s containerID); [by eauto|].
    destruct (_ <? _); [by eauto|].
    destruct (SetRt_consistent s containerID
                (list_to_set (worstFit p range (reqUtilOf container) (reqCpusOf container)))
                (reqUtilOf container) Hc) as (s' & -> & Hc').
    simpl. eauto.
  - unfold RemoveContainer.
    destruct (GetRtCPUSetAndUtilOfContainer s containerID) as [[cpuSet u]|] eqn:Eg;
      [|by eauto].
    rewrite (Delete_rt _ _ _ _ Eg). simpl. do 2 eexists. split; [done|].
    eapply Delete_consistent; [done|]. by apply Delete_rt.
Qed.

(** X8.  From a state in which every container with a recorded
    utilisation has a CPU set (a fresh [NewRtState] is one), no sequence
    of [AddContainer] and [RemoveContainer] calls of the policy panics:
    every call returns, with or without an error, and the state it
    leaves is again such a state. *)
Theorem policyCalls_never_panic
    (p : realTimePolicy) (s : RtState) (calls : list policyCall) :
  consistent s ->
  exists s' errs,
    policyCalls p s calls = Returns (s', errs) /\
    length errs = length calls /\ consistent s'.
Proof.
  revert s. induction calls as [|c calls IH]; intros s Hc; simpl.
  - by exists s, [].
  - destruct (policyStep_consistent p s c Hc) as (s1 & err & -> & Hc1). simpl.
    destruct (IH s1 Hc1) as (s2 & errs & -> & Hlen & Hc2). simpl.
    exists s2, (err :: errs). simpl. by rewrite Hlen.
Qed.

Lemma policyCalls_never_panic_witness :
  exists s' errs,
    policyCalls policy_095 fresh2
      [CallAddContainer visit_01 (rtContainer 10 5 1) "a";
       CallRemoveContainer "a"; CallRemoveContainer "a"]
    = Returns (s', errs) /\
    length errs = 3%nat /\ consistent s'.
Proof.
  apply (policyCalls_never_panic policy_095 fresh2).
  apply (bool_decide_unpack _). vm_compute. exact I.
Defined.

(** X9.  When [AddContainer] places a container that has no recorded
    utilisation yet, it records the selection of [worstFit] and the
    requested utilisation; each selected CPU passed the admission test
    on its utilisation before the call, and its utilisation is raised by
    the request; no other entry of the utilisation map changes. *)
Theorem AddContainer_charges_selected
    (p : realTimePolicy) (s s' : RtState) (range : list (Z * float))
    (container : Container) (containerID : string) :
  range ≡ₚ map_to_list (CpuToUtilMap s) ->
  Float64.eq (reqUtilOf container) 0 = false ->
  containerToUtil s !! containerID = None ->
  AddContainer p s range container containerID = Returns (s', None) ->
  let reqUtil := reqUtilOf container in
  let cpus := worstFit p range reqUtil (reqCpusOf container) in
  GetRtCPUSetAndUtilOfContainer s' containerID = Some (list_to_set cpus, reqUtil) /\
  (forall cpu, cpu ∈ cpus ->
     fits p reqUtil (util_at (cpuToUtil s) cpu) = true /\
     cpuToUtil s' !! cpu = Some (util_at (cpuToUtil s) cpu + reqUtil)%float) /\
  (forall cpu, cpu ∉ cpus -> cpuToUtil s' !! cpu = cpuToUtil s !! cpu).
Proof.
  intros Hrange Hu Hnew Hadd reqUtil cpus.
  apply AddContainer_ok_inv in Hadd as [[_ [Hz|[x Hx]]]|(_ & _ & Hset)].
  - congruence.
  - unfold GetRtCPUSetAndUtilOfContainer in Hx. rewrite Hnew in Hx.
    by destruct (GetCPUSet (State_ s) containerID).
  - fold reqUtil in Hset. fold cpus in Hset.
    split; [by apply (SetRt_recorded s containerID)|].
    rewrite (SetRt_fresh _ _ _ _ Hnew) in Hset. injection Hset as <-. simpl.
    split.
    + intros cpu Hin. split.
      * apply elem_of_worstFit in Hin as (util & Hin & Hf).
        apply (elem_of_range _ _ Hrange) in Hin. unfold CpuToUtilMap in Hin.
        unfold util_at. by rewrite Hin.
      * rewrite update_each_lookup. by rewrite decide_True by by apply elem_of_list_to_set.
    + intros cpu Hout. rewrite update_each_lookup.
      by rewrite decide_False by by rewrite elem_of_list_to_set.
Qed.

Lemma AddContainer_charges_selected_witness :
  GetRtCPUSetAndUtilOfContainer fresh2_a "a" = Some ({[0]}, 0.5%float).
Proof.
  destruct (AddContainer_charges_selected policy_095 fresh2 fresh2_a visit_01
              (rtContainer 10 5 1) "a") as [Hget _].
  - apply visit_01_snapshot2.
  - vm_compute. reflexivity.
  - vm_compute. reflexivity.
  - vm_compute. reflexivity.
  - vm_compute in Hget. vm_compute. exact Hget.
Defined.

(** X10.  [AddContainer] is idempotent: when a call has returned without
    an error, the same call on the state it left returns that state
    again, whatever order the map is visited in the second time. *)
Theorem AddContainer_again_keeps_state
    (p : realTimePolicy) (s s' : RtState) (range range' : list (Z * float))
    (container : Container) (containerID : string) :
  AddContainer p s range container containerID = Returns (s', None) ->
  AddContainer p s' range' container containerID = Returns (s', None).
Proof.
  intros Hadd. pose proof Hadd as Hadd'.
  apply AddContainer_ok_inv in Hadd as [[-> [Hz|[x Hx]]]|(Hu & _ & Hset)];
    rewrite AddContainer_reqUtil; cbv zeta.
  - by rewrite Hz.
  - destruct (Float64.eq _ 0); [done|]. by rewrite Hx.
  - rewrite Hu.
    by rewrite (SetRt_recorded _ _ _ _ _ Hset).
Qed.

Lemma AddContainer_again_keeps_state_witness :
  AddContainer policy_095 fresh2_a visit_10 (rtContainer 10 5 1) "a"
  = Returns (fresh2_a, None).
Proof.
  apply (AddContainer_again_keeps_state policy_095 fresh2 fresh2_a visit_01 visit_10).
  vm_compute. reflexivity.
Defined.

(** X11.  [RemoveContainer] undoes a placement as far as the container
    maps go: after [AddContainer] has placed a container that the state
    did not know, [RemoveContainer] returns, and the CPU sets, the
    default CPU set and the recorded utilisations are those from before
    the placement.  The utilisation of a CPU that was not selected is
    untouched; that of a selected CPU is what float64 makes of
    [(util + reqUtil) - reqUtil], clamped at zero. *)
Theorem AddContainer_then_RemoveContainer
    (p : realTimePolicy) (s s' : RtState) (range : list (Z * float))
    (container : Container) (containerID : string) :
  Float64.eq (reqUtilOf container) 0 = false ->
  GetCPUSet (State_ s) containerID = None ->
  containerToUtil s !! containerID = None ->
  AddContainer p s range container containerID = Returns (s', None) ->
  let reqUtil := reqUtilOf container in
  let cpus := worstFit p range reqUtil (reqCpusOf container) in
  exists s'',
    RemoveContainer p s' containerID = Returns (s'', None) /\
    State_ s'' = State_ s /\ containerToUtil s'' = containerToUtil s /\
    (forall cpu, cpu ∈ cpus ->
       cpuToUtil s'' !! cpu
       = Some (release reqUtil (util_at (cpuToUtil s) cpu + reqUtil)%float)) /\
    (forall cpu, cpu ∉ cpus -> cpuToUtil s'' !! cpu = cpuToUtil s !! cpu).
Proof.
  intros Hu Hnoset Hnew Hadd reqUtil cpus.
  apply AddContainer_ok_inv in Hadd as [[_ [Hz|[x Hx]]]|(_ & _ & Hset)].
  - congruence.
  - unfold GetRtCPUSetAndUtilOfContainer in Hx. by rewrite Hnoset in Hx.
  - fold reqUtil in Hset. fold cpus in Hset.
    pose proof (SetRt_recorded _ _ _ _ _ Hset) as Hget.
    unfold RemoveContainer. rewrite Hget, (Delete_rt _ _ _ _ Hget). simpl.
    eexists. split; [reflexivity|].
    rewrite (SetRt_fresh _ _ _ _ Hnew) in Hset. injection Hset as <-. simpl.
    split; [|split; [|split]].
    + unfold State_Delete, SetCPUSet. simpl. unfold GetCPUSet in Hnoset.
      rewrite delete_insert_eq, delete_id by done. by destruct (State_ s).
    + by rewrite delete_insert_eq, delete_id.
    + intros cpu Hin. rewrite update_each_lookup.
      rewrite decide_True by by apply elem_of_list_to_set.
      unfold util_at at 1. rewrite update_each_lookup.
      by rewrite decide_True by by apply elem_of_list_to_set.
    + intros cpu Hout. rewrite !update_each_lookup.
      by rewrite !decide_False by by rewrite elem_of_list_to_set.
Qed.

Lemma AddContainer_then_RemoveContainer_witness :
  exists s'',
    RemoveContainer policy_095 fresh2_a "a" = Returns (s'', None) /\
    State_ s'' = State_ fresh2.
Proof.
  destruct (AddContainer_then_RemoveContainer policy_095 fresh2 fresh2_a visit_01
              (rtContainer 10 5 1) "a") as (s'' & Hrm & Hst & _).
  - vm_compute. reflexivity.
  - vm_compute. reflexivity.
  - vm_compute. reflexivity.
  - vm_compute. reflexivity.
  - exists s''. split; [exact Hrm|exact Hst].
Defined.

(** X12.  A container that asks for a real-time utilisation but for no
    CPU (its "cpu-rt-cpu" request is missing, zero or negative) is
    placed all the same: [AddContainer] records it with an empty CPU set
    and its utilisation, and charges no CPU. *)
Theorem AddContainer_without_cpus
    (p : realTimePolicy) (s : RtState) (range : list (Z * float))
    (container : Container) (containerID : string) :
  Float64.eq (reqUtilOf container) 0 = false ->
  reqCpusOf container <= 0 ->
  containerToUtil s !! containerID = None ->
  exists s',
    AddContainer p s range container containerID = Returns (s', None) /\
    GetRtCPUSetAndUtilOfContainer s' containerID = Some (∅, reqUtilOf container) /\
    cpuToUtil s' = cpuToUtil s.
Proof.
  intros Hu Hn Hnew. rewrite AddContainer_reqUtil. cbv zeta. rewrite Hu.
  assert (GetRtCPUSetAndUtilOfContainer s containerID = None) as ->.
  { unfold GetRtCPUSetAndUtilOfContainer. rewrite Hnew.
    by destruct (GetCPUSet (State_ s) containerID). }
  rewrite (worstFit_no_cpus _ _ _ _ Hn). cbn [length list_to_set foldr].
  destruct (Z.ltb_spec (Z.of_nat 0) (reqCpusOf container)); [lia|].
  rewrite (SetRt_fresh _ _ _ _ Hnew). simpl. eexists. split; [reflexivity|].
  split.
  - unfold GetRtCPUSetAndUtilOfContainer, GetCPUSet. simpl.
    by rewrite !lookup_insert_eq.
  - simpl. apply update_each_empty.
Qed.

Lemma AddContainer_without_cpus_witness :
  exists s',
    AddContainer policy_095 fresh2 visit_01 (rtContainer 10 5 0) "a" = Returns (s', None) /\
    GetRtCPUSetAndUtilOfContainer s' "a" = Some (∅, reqUtilOf (rtContainer 10 5 0)) /\
    cpuToUtil s' = cpuToUtil fresh2.
Proof.
  apply (AddContainer_without_cpus policy_095 fresh2 visit_01 (rtContainer 10 5 0) "a").
  - vm_compute. reflexivity.
  - vm_compute. discriminate.
  - vm_compute. reflexivity.
Defined.

(** X13.  The only error of [AddContainer] is DoesNotFit, and it is returned
    in one case only: the request has a utilisation other than 0, the
    container has no real-time assignment yet, and fewer CPUs of the
    state than it asks for have positive headroom for it.  The state is
    then returned as it was. *)
Theorem AddContainer_error_iff
    (p : realTimePolicy) (s s' : RtState) (range : list (Z * float))
    (container : Container) (containerID : string) (err : error) :
  range ≡ₚ map_to_list (CpuToUtilMap s) ->
  AddContainer p s range container containerID = Returns (s', Some err) <->
  Float64.eq (reqUtilOf container) 0 = false /\
  GetRtCPUSetAndUtilOfContainer s containerID = None /\
  Z.of_nat (size (candidates p (reqUtilOf container) (CpuToUtilMap s)))
    < reqCpusOf container /\
  s' = s /\ err = DoesNotFit containerID.
Proof.
  intros Hrange. rewrite AddContainer_reqUtil. cbv zeta.
  rewrite (size_candidates p _ range Hrange).
  destruct (Float64.eq (reqUtilOf container) 0); [split; [done|by intros [? _]]|].
  destruct (GetRtCPUSetAndUtilOfContainer s containerID) as [x|];
    [split; [done|by intros (_ & ? & _)]|].
  set (scored := scoreCpus p range (reqUtilOf container)).
  destruct (Z.ltb_spec (Z.of_nat (length (worstFit p range (reqUtilOf container)
                                            (reqCpusOf container))))
              (reqCpusOf container)) as [Hlt|Hge].
  - split.
    + intros [= <- <-]. repeat split; try done.
      destruct (Z.lt_ge_cases (Z.of_nat (length scored)) (reqCpusOf container)) as [|Hn];
        [done|].
      destruct (Z.le_gt_cases (reqCpusOf container) 0) as [Hneg|Hpos]; [lia|].
      rewrite worstFit_length in Hlt by (fold scored; lia). lia.
    + by intros (_ & _ & _ & -> & ->).
  - split.
    + destruct (SetRtCPUSetAndUtilOfContainer _ _ _ _); simpl; done.
    + intros (_ & _ & Hfew & _ & _). exfalso.
      unfold worstFit in Hge. fold scored in Hge.
      destruct (Z.ltb_spec (Z.of_nat (length scored)) (reqCpusOf container)); [|lia].
      simpl in Hge. lia.
Qed.

Lemma AddContainer_error_iff_witness :
  AddContainer policy_095 state4 (map_to_list snapshot4) (rtContainer 10 7 3) "d"
  = Returns (state4, Some (DoesNotFit "d")).
Proof.
  apply (AddContainer_error_iff policy_095 state4 state4 (map_to_list snapshot4)
           (rtContainer 10 7 3) "d" (DoesNotFit "d")).
  - reflexivity.
  - repeat split; vm_compute; reflexivity.
Defined.

(** *** The order of the visit, without ties *)

Lemma scoreCpus_perm p range range' reqUtil :
  range ≡ₚ range' -> scoreCpus p range reqUtil ≡ₚ scoreCpus p range' reqUtil.
Proof.
  induction 1 as [|[c util] l l' _ IH|[c1 u1] [c2 u2] l|l l' l'' _ IH1 _ IH2]; simpl.
  - done.
  - destruct (Float64.gt _ 0); [by constructor|done].
  - destruct (Float64.gt (allocableRtUtil p - u1 - reqUtil) 0),
             (Float64.gt (allocableRtUtil p - u2 - reqUtil) 0); try done.
    apply Permutation_swap.
  - by etrans.
Qed.

Lemma precedes_irrefl {A} (x : A) l : NoDup l -> ~ precedes x x l.
Proof.
  intros Hnd (i & j & Hij & Hi & Hj).
  pose proof (NoDup_lookup l i j x Hnd Hi Hj). lia.
Qed.

(** X14.  Without ties the order of the visit does not show: if any two
    candidate CPUs of the snapshot have headrooms of which one is
    greater than the other, [worstFit] selects the same CPUs, in the
    same order, for every order in which the map is visited. *)
Theorem worstFit_any_order_without_ties
    (p : realTimePolicy) (m : gmap Z float) (range range' : list (Z * float))
    (reqUtil : float) (reqCpus : Z) :
  range ≡ₚ map_to_list m -> range' ≡ₚ map_to_list m ->
  (forall c c' util util',
     c <> c' -> m !! c = Some util -> m !! c' = Some util' ->
     fits p reqUtil util = true -> fits p reqUtil util' = true ->
     Float64.gt (headroom p reqUtil util) (headroom p reqUtil util') = true
     \/ Float64.gt (headroom p reqUtil util') (headroom p reqUtil util) = true) ->
  worstFit p range reqUtil reqCpus = worstFit p range' reqUtil reqCpus.
Proof.
  intros Hrange Hrange' Hstrict. unfold worstFit.
  set (l := scoreCpus p range reqUtil). set (l' := scoreCpus p range' reqUtil).
  assert (Hperm : l' ≡ₚ l) by (apply scoreCpus_perm; by rewrite Hrange, Hrange').
  rewrite <- (Permutation_length Hperm).
  destruct (_ <? _); [done|]. do 2 f_equal. symmetry.
  assert (Hnd : NoDup l) by (eapply NoDup_fmap_1, (NoDup_scored_cpus p m range Hrange)).
  assert (Hsorted : StronglySorted (no_later worst_less) (SliceStable worst_less l')).
  { apply (SliceStable_sorted worst_less scored_ok worst_less_asym worst_less_trans).
    apply scoreCpus_ok. }
  apply (SliceStable_unique worst_less scored_ok worst_less_asym worst_less_trans);
    [done|apply scoreCpus_ok|by rewrite SliceStable_perm|done|].
  intros x y Hxy Hle.
  destruct (precedes_elem_of _ _ _ Hxy) as [Hx Hy].
  assert (x <> y) as Hne by (intros ->; by apply (precedes_irrefl y l)).
  assert (Hx' : x ∈ SliceStable worst_less l') by (by rewrite SliceStable_perm, Hperm).
  assert (Hy' : y ∈ SliceStable worst_less l') by (by rewrite SliceStable_perm, Hperm).
  destruct (precedes_total x y _ Hx' Hy' Hne) as [|Hyx]; [done|]. exfalso.
  pose proof (sorted_precedes worst_less _ _ _ Hsorted Hyx) as Hle'.
  simpl in Hle, Hle'.
  apply elem_of_scoreCpus in Hx as (ux & Hinx & Hsx & Hfx).
  apply elem_of_scoreCpus in Hy as (uy & Hiny & Hsy & Hfy).
  apply (elem_of_range m range Hrange) in Hinx, Hiny.
  assert (cpu x <> cpu y) as Hcpu.
  { intros Heq. rewrite Heq, Hiny in Hinx. injection Hinx as <-.
    apply Hne. destruct x, y; simpl in *; congruence. }
  rewrite Hsx, Hsy in Hle, Hle'.
  destruct (Hstrict _ _ _ _ Hcpu Hinx Hiny Hfx Hfy); congruence.
Qed.

Lemma worstFit_any_order_without_ties_witness :
  worstFit policy_095 (reverse (map_to_list snapshot4)) 0x1.999999999999ap-4%float 2
  = worstFit policy_095 (map_to_list snapshot4) 0x1.999999999999ap-4%float 2.
Proof.
  apply (worstFit_any_order_without_ties policy_095 snapshot4).
  - apply reverse_Permutation.
  - reflexivity.
  - intros c c' util util' Hne Hc Hc' _ _.
    apply elem_of_map_to_list in Hc, Hc'.
    pose proof (eq_refl : map_to_list snapshot4
                          = ltac:(let t := eval vm_compute in (map_to_list snapshot4) in
                                  exact t)) as Hl.
    rewrite Hl in Hc, Hc'.
    repeat match goal with
           | H : _ ∈ _ :: _ |- _ => apply elem_of_cons in H as [H|H]
           | H : _ ∈ [] |- _ => by apply elem_of_nil in H
           | H : (_, _) = (_, _) |- _ => injection H as -> ->
           end;
      try done;
      first [left; vm_compute; reflexivity | right; vm_compute; reflexivity].
Defined.

(** *** firstFit *)

Lemma admitted_cons_True p c util l reqUtil :
  admits p reqUtil util = true ->
  admitted p ((c, util) :: l) reqUtil = c :: admitted p l reqUtil.
Proof. intros H. unfold admitted. by rewrite filter_cons_True. Qed.

Lemma admitted_cons_False p c util l reqUtil :
  admits p reqUtil util = false ->
  admitted p ((c, util) :: l) reqUtil = admitted p l reqUtil.
Proof.
  intros H. unfold admitted. rewrite filter_cons_False; [done|].
  simpl. by rewrite H.
Qed.

Lemma firstFit_loop_break p l reqUtil reqCpus fittingCpus :
  Z.of_nat (length fittingCpus) < reqCpus ->
  firstFit_loop p l reqUtil reqCpus fittingCpus
  = fittingCpus ++ take (Z.to_nat reqCpus - length fittingCpus) (admitted p l reqUtil).
Proof.
  revert fittingCpus. induction l as [|[c util] l IH]; intros acc Hacc; simpl.
  - unfold admitted. simpl. by rewrite take_nil, app_nil_r.
  - fold (admits p reqUtil util). destruct (admits p reqUtil util) eqn:Ea.
    + rewrite (admitted_cons_True _ _ _ _ _ Ea).
      destruct (Z.to_nat reqCpus - length acc)%nat as [|k] eqn:Ek; [lia|].
      simpl. rewrite length_app. simpl.
      destruct (Z.eqb_spec (Z.of_nat (length acc + 1)) reqCpus) as [Heq|Hne].
      * replace k with 0%nat by lia. by rewrite take_0.
      * rewrite IH by (rewrite length_app; simpl; lia).
        rewrite length_app. simpl. rewrite <- app_assoc. simpl.
        do 3 f_equal. lia.
    + rewrite (admitted_cons_False _ _ _ _ _ Ea). by apply IH.
Qed.

Lemma firstFit_loop_all p l reqUtil reqCpus fittingCpus :
  reqCpus <= 0 ->
  firstFit_loop p l reqUtil reqCpus fittingCpus = fittingCpus ++ admitted p l reqUtil.
Proof.
  intros Hn. revert fittingCpus. induction l as [|[c util] l IH]; intros acc; simpl.
  - unfold admitted. simpl. by rewrite app_nil_r.
  - fold (admits p reqUtil util). destruct (admits p reqUtil util) eqn:Ea.
    + rewrite (admitted_cons_True _ _ _ _ _ Ea).
      destruct (Z.eqb_spec (Z.of_nat (length (acc ++ [c]))) reqCpus) as [Heq|Hne].
      * rewrite length_app in Heq. simpl in Heq. lia.
      * rewrite IH. by rewrite <- app_assoc.
    + rewrite (admitted_cons_False _ _ _ _ _ Ea). apply IH.
Qed.

(** X15.  [firstFit] returns the first [reqCpus] CPUs, in the order of
    the visit, whose utilisation passes its test
    [util + reqUtil < allocableRtUtil], and nothing when fewer pass.  A
    request for no CPU never reaches the [break]: for [reqCpus <= 0] the
    result is every CPU that passes the test. *)
Theorem firstFit_takes_first_admitted
    (p : realTimePolicy) (range : list (Z * float)) (reqUtil : float) (reqCpus : Z) :
  firstFit p range reqUtil reqCpus =
  let fitting := admitted p range reqUtil in
  if reqCpus <=? 0 then fitting
  else if Z.of_nat (length fitting) <? reqCpus then []
       else take (Z.to_nat reqCpus) fitting.
Proof.
  unfold firstFit. cbv zeta. destruct (Z.leb_spec reqCpus 0) as [Hn|Hn].
  - rewrite firstFit_loop_all by done. simpl.
    destruct (Z.ltb_spec (Z.of_nat (length (admitted p range reqUtil))) reqCpus); [lia|done].
  - rewrite firstFit_loop_break by (simpl; lia). simpl. rewrite Nat.sub_0_r.
    rewrite length_take.
    destruct (Z.ltb_spec (Z.of_nat (length (admitted p range reqUtil))) reqCpus).
    + destruct (Z.ltb_spec (Z.of_nat (Z.to_nat reqCpus `min`
                                        length (admitted p range reqUtil))) reqCpus);
        [done|lia].
    + destruct (Z.ltb_spec (Z.of_nat (Z.to_nat reqCpus `min`
                                        length (admitted p range reqUtil))) reqCpus);
        [lia|done].
Qed.

(** *** bestFit *)

Lemma best_less_asym x y :
  scored_ok x -> scored_ok y -> best_less x y = true -> best_less y x = false.
Proof. intros _ _. apply (gt_asym (score y) (score x)). Qed.

Lemma best_less_trans x y z :
  scored_ok x -> scored_ok y -> scored_ok z ->
  best_less x y = false -> best_less y z = false -> best_less x z = false.
Proof.
  intros Hx Hy Hz Hxy Hyz.
  apply (not_gt_trans (score z) (score y) (score x)); done.
Qed.

(** X16.  [bestFit] is the mirror image of [worstFit].  For a snapshot
    visited in any order and a request that the candidate CPUs can
    serve, it returns exactly [reqCpus] distinct candidates, and no
    candidate left out has less headroom than a selected CPU. *)
Theorem bestFit_selects_smallest_headroom
    (p : realTimePolicy) (m : gmap Z float) (range : list (Z * float))
    (reqUtil : float) (reqCpus : Z) :
  range ≡ₚ map_to_list m ->
  0 <= reqCpus <= Z.of_nat (size (candidates p reqUtil m)) ->
  let cpus := bestFit p range reqUtil reqCpus in
  Z.of_nat (length cpus) = reqCpus /\ NoDup cpus /\
  (forall c, c ∈ cpus -> c ∈ candidates p reqUtil m) /\
  (forall c c' util util',
      c ∈ cpus -> m !! c = Some util ->
      c' ∈ candidates p reqUtil m -> c' ∉ cpus -> m !! c' = Some util' ->
      PrimFloat.leb (headroom p reqUtil util) (headroom p reqUtil util') = true).
Proof.
  intros Hrange Hreq cpus. subst cpus. unfold bestFit.
  rewrite (size_candidates p m range Hrange) in Hreq.
  destruct (Z.ltb_spec (Z.of_nat (length (scoreCpus p range reqUtil))) reqCpus) as [|_];
    [lia|].
  set (scored := scoreCpus p range reqUtil) in *.
  set (sorted := SliceStable best_less scored).
  assert (Hsorted : forall sc, sc ∈ sorted <-> sc ∈ scored)
    by (intros sc; apply elem_of_SliceStable).
  assert (Htake : forall sc, sc ∈ take (Z.to_nat reqCpus) sorted -> sc ∈ scored).
  { intros sc Hsc. apply Hsorted. revert Hsc. apply subseteq_take. }
  split; [|split; [|split]].
  - rewrite length_fmap, length_take. unfold sorted.
    rewrite SliceStable_length. lia.
  - eapply sublist_NoDup; [|apply fmap_sublist, sublist_take].
    unfold sorted. rewrite SliceStable_perm. by apply (NoDup_scored_cpus p m).
  - intros c (sc & -> & Hsc)%list_elem_of_fmap.
    rewrite (candidates_scored p m range Hrange).
    apply elem_of_list_to_set, list_elem_of_fmap. eauto.
  - intros c c' util util' (sc & -> & Hsc)%list_elem_of_fmap Hc Hc' Hout Hu'.
    pose proof (Htake _ Hsc) as Hsc0.
    apply elem_of_scoreCpus in Hsc0 as (u0 & Hin & Hs & _).
    apply (elem_of_range m range Hrange) in Hin.
    rewrite Hc in Hin. injection Hin as <-.
    apply (elem_of_candidates p m) in Hc' as (u1 & Hu1 & Hfit).
    rewrite Hu' in Hu1. injection Hu1 as <-.
    set (sc' := {| cpu := c'; score := headroom p reqUtil util' |}).
    assert (Hsc' : sc' ∈ scored).
    { apply elem_of_scoreCpus. exists util'. split; [|done].
      by apply (elem_of_range m range Hrange). }
    assert (Hdrop : sc' ∈ drop (Z.to_nat reqCpus) sorted).
    { apply Hsorted in Hsc'.
      rewrite <- (take_drop (Z.to_nat reqCpus) sorted) in Hsc'.
      apply elem_of_app in Hsc' as [Hin|]; [|done].
      exfalso. apply Hout. apply list_elem_of_fmap. by exists sc'. }
    pose proof (scoreCpus_ok p range reqUtil) as Hok.
    rewrite Forall_forall in Hok.
    pose proof (SliceStable_take_drop best_less scored_ok best_less_asym
                  best_less_trans scored _ sc sc' (scoreCpus_ok _ _ _) Hsc Hdrop) as Hle.
    simpl in Hle. rewrite Hs in Hle.
    apply not_gt_leb; [| |done].
    + rewrite <- Hs. by apply (Hok sc), Htake.
    + by apply (Hok sc').
Qed.

Lemma bestFit_selects_smallest_headroom_witness :
  bestFit policy_095 (map_to_list snapshot4) 0x1.999999999999ap-4%float 2 = [3; 1] /\
  NoDup (bestFit policy_095 (map_to_list snapshot4) 0x1.999999999999ap-4%float 2).
Proof.
  split; [vm_compute; reflexivity|].
  refine (proj1 (proj2 (bestFit_selects_smallest_headroom policy_095 snapshot4
           (map_to_list snapshot4) 0x1.999999999999ap-4%float 2 _ _))).
  - reflexivity.
  - vm_compute. split; discriminate.
Defined.

End policy_facts.

(* ===================================================================== *)
(** ** Start of the policy, and the manager *)
(* ===================================================================== *)

Module manager_facts.
Import state cpumanager scenarios state_facts cpumanager_facts rtstate_facts policy_facts.

(** Taking a utilisation that is not negative off an idle CPU leaves it
    idle: the difference is negative or zero, and is clamped. *)
Lemma release_zero util : PrimFloat.leb 0 util = true -> release util 0 = 0%float.
Proof.
  intros Hu. unfold release, Float64.lt. cbv zeta.
  rewrite leb_spec in Hu. rewrite ltb_spec, sub_spec.
  assert (Hsub : Prim2SF (0 - util) = SFsub prec emax (Prim2SF 0) (Prim2SF util))
    by apply sub_spec.
  change (Prim2SF 0) with (S754_zero false) in *.
  destruct (Prim2SF util) as [[]| [] | | [] m e]; simpl in *; try discriminate;
    try reflexivity; apply Prim2SF_inj; rewrite Hsub; reflexivity.
Qed.

Lemma util_at_idle m cpu : idle m -> util_at m cpu = 0%float.
Proof.
  intros Hm. unfold util_at. destruct (m !! cpu) as [v|] eqn:E; [|done].
  simpl. by apply (Hm cpu).
Qed.

(** One [Delete] of a container that has a CPU set. *)
Lemma Delete_step s containerID cpuSet :
  GetCPUSet (State_ s) containerID = Some cpuSet ->
  exists s',
    Delete s containerID = Returns s' /\
    State_ s' = State_Delete (State_ s) containerID /\
    containerToUtil s' = delete containerID (containerToUtil s) /\
    dom (cpuToUtil s) ⊆ dom (cpuToUtil s') /\
    (idle (cpuToUtil s) -> nonnegative (containerToUtil s) -> idle (cpuToUtil s')).
Proof.
  intros Hset.
  destruct (GetRtCPUSetAndUtilOfContainer s containerID) as [[cs u]|] eqn:Eg.
  - rewrite (Delete_rt _ _ _ _ Eg). eexists. split; [reflexivity|]. simpl.
    split; [done|]. split; [done|]. split.
    + intros cpu [v Hv]%elem_of_dom. apply elem_of_dom.
      rewrite update_each_lookup. destruct (decide (cpu ∈ cs)); [by eexists|by eexists].
    + intros Hidle Hnn cpu v. rewrite update_each_lookup.
      destruct (decide (cpu ∈ cs)); [|by apply Hidle].
      intros [= <-]. rewrite (util_at_idle _ _ Hidle). apply release_zero.
      unfold GetRtCPUSetAndUtilOfContainer in Eg. rewrite Hset in Eg.
      destruct (containerToUtil s !! containerID) as [u'|] eqn:Eu; [|done].
      injection Eg as _ ->. by apply (Hnn containerID).
  - unfold Delete. rewrite Hset, Eg. eexists. split; [reflexivity|]. simpl.
    split; [done|]. split; [|done].
    unfold GetRtCPUSetAndUtilOfContainer in Eg. rewrite Hset in Eg.
    destruct (containerToUtil s !! containerID) eqn:Eu; [done|]. by rewrite delete_id.
Qed.

Lemma nonnegative_delete containerID m : nonnegative m -> nonnegative (delete containerID m).
Proof. intros Hm id u [_ Hu]%lookup_delete_Some. by apply (Hm id). Qed.

Lemma deleteEach_spec s range :
  NoDup range ->
  (forall containerID, containerID ∈ range -> is_Some (GetCPUSet (State_ s) containerID)) ->
  exists s',
    deleteEach s range = Returns s' /\
    (forall containerID,
       GetCPUSet (State_ s') containerID
       = if decide (containerID ∈ range) then None else GetCPUSet (State_ s) containerID) /\
    (forall containerID,
       containerToUtil s' !! containerID
       = if decide (containerID ∈ range) then None else containerToUtil s !! containerID) /\
    defaultCPUSet (State_ s') = defaultCPUSet (State_ s) /\
    dom (cpuToUtil s) ⊆ dom (cpuToUtil s') /\
    (idle (cpuToUtil s) -> nonnegative (containerToUtil s) -> idle (cpuToUtil s')).
Proof.
  revert s. induction range as [|id range IH]; intros s Hnd Hin; simpl.
  - exists s. split; [done|]. repeat split; try done; intros x;
      by rewrite decide_False by by intros ?%elem_of_nil.
  - apply NoDup_cons in Hnd as [Hnotin Hnd].
    destruct (Hin id) as [cs Hcs]; [by left|].
    destruct (Delete_step s id cs Hcs) as (s1 & -> & Hst & Hcu & Hdom & Hidle). simpl.
    destruct (IH s1 Hnd) as (s' & -> & Hsets & Hutils & Hdef & Hdom' & Hidle').
    { intros x Hx. unfold GetCPUSet. rewrite Hst. simpl.
      rewrite lookup_delete_ne by (intros ->; done). apply Hin. by right. }
    exists s'. split; [done|]. split; [|split; [|split; [|split]]].
    + intros x. rewrite Hsets. unfold GetCPUSet. rewrite Hst. simpl.
      destruct (decide (x ∈ range)) as [Hx|Hx].
      * by rewrite decide_True by by right.
      * destruct (decide (x = id)) as [->|Hne].
        -- rewrite decide_True by by left. apply lookup_delete_eq.
        -- rewrite decide_False by (by intros [?|?]%elem_of_cons).
           by rewrite lookup_delete_ne.
    + intros x. rewrite Hutils, Hcu.
      destruct (decide (x ∈ range)) as [Hx|Hx].
      * by rewrite decide_True by by right.
      * destruct (decide (x = id)) as [->|Hne].
        -- rewrite decide_True by by left. apply lookup_delete_eq.
        -- rewrite decide_False by (by intros [?|?]%elem_of_cons).
           by rewrite lookup_delete_ne.
    + by rewrite Hdef, Hst.
    + by etrans.
    + intros Hi Hnn. apply Hidle'; [by apply Hidle|]. rewrite Hcu.
      by apply nonnegative_delete.
Qed.

Lemma idle_zero_map (set : CPUSet) :
  idle (set_fold (fun cpu (m : gmap Z float) => <[cpu := 0%float]> m) ∅ set).
Proof.
  intros cpu v. rewrite zero_map_lookup. destruct (decide (cpu ∈ set)); [|done].
  by intros [= <-].
Qed.

(** What [initState] leaves behind. *)
Lemma initState_spec p s range :
  range ≡ₚ (map_to_list (assignments (State_ s))).*1 ->
  exists s',
    initState p s range = Returns (s', None) /\
    assignments (State_ s') = ∅ /\
    defaultCPUSet (State_ s') = topology p /\
    (consistent s -> containerToUtil s' = ∅) /\
    (forall cpu, cpu ∈ topology p -> is_Some (cpuToUtil s' !! cpu)) /\
    (nonnegative (containerToUtil s) -> idle (cpuToUtil s')).
Proof.
  intros Hrange.
  assert (Hmem : forall id, id ∈ range <-> is_Some (assignments (State_ s) !! id)).
  { intros id. rewrite Hrange, list_elem_of_fmap. split.
    - intros ([k v] & -> & Hkv%elem_of_map_to_list). by eexists.
    - intros [v Hv]. exists (id, v). split; [done|]. by apply elem_of_map_to_list. }
  destruct (deleteEach_spec (SetDefaultCPUSet s (topology p)) range)
    as (s' & Hdel & Hsets & Hutils & Hdef & Hdom & Hidle).
  { rewrite Hrange. apply NoDup_fst_map_to_list. }
  { intros id Hid. by apply Hmem. }
  exists s'. unfold initState. rewrite Hdel. simpl. split; [done|].
  split; [|split; [done|split; [|split]]].
  - apply map_eq. intros id. rewrite lookup_empty.
    specialize (Hsets id). unfold GetCPUSet in Hsets. simpl in Hsets. rewrite Hsets.
    destruct (decide (id ∈ range)) as [|Hout]; [done|].
    destruct (assignments (State_ s) !! id) eqn:E; [|done].
    exfalso. apply Hout, Hmem. by eexists.
  - intros Hc. apply map_eq. intros id. rewrite lookup_empty, Hutils. simpl.
    destruct (decide (id ∈ range)) as [|Hout]; [done|].
    destruct (containerToUtil s !! id) eqn:E; [|done].
    exfalso. apply Hout, Hmem, elem_of_dom, Hc, elem_of_dom. by eexists.
  - intros cpu Hcpu. apply elem_of_dom, Hdom, elem_of_dom. simpl.
    rewrite zero_map_lookup. rewrite decide_True by done. by eexists.
  - intros Hnn. apply Hidle; [apply idle_zero_map|done].
Qed.

(** X17.  [Start] discards what the checkpoint held: whatever the order
    in which the assignments are visited, it returns (its panic is never
    reached), no container has a CPU set afterwards, and the default CPU
    set is the set of all CPUs of the topology.  If every container with
    a recorded utilisation had a CPU set, no utilisation is recorded
    afterwards; if no recorded utilisation was negative or NaN, every
    CPU of the topology has an entry in the utilisation map and every
    entry is 0. *)
Theorem Start_discards_assignments
    (p : realTimePolicy) (s : RtState) (range : list string) :
  range ≡ₚ (map_to_list (assignments (State_ s))).*1 ->
  exists s',
    Start p s range = Returns s' /\
    assignments (State_ s') = ∅ /\
    defaultCPUSet (State_ s') = topology p /\
    (consistent s -> containerToUtil s' = ∅) /\
    (nonnegative (containerToUtil s) ->
     idle (cpuToUtil s') /\
     forall cpu, cpu ∈ topology p -> cpuToUtil s' !! cpu = Some 0%float).
Proof.
  intros Hrange.
  destruct (initState_spec p s range Hrange) as (s' & Hinit & Ha & Hd & Hc & Hdom & Hidle).
  exists s'. unfold Start. rewrite Hinit. simpl.
  split; [done|]. split; [done|]. split; [done|]. split; [done|].
  intros Hnn. split; [by apply Hidle|].
  intros cpu [v Hv]%Hdom. rewrite Hv. f_equal. by apply (Hidle Hnn cpu).
Qed.

Lemma Start_discards_assignments_witness :
  exists s',
    Start policy_2cpus stale ["old"] = Returns s' /\
    assignments (State_ s') = ∅ /\
    defaultCPUSet (State_ s') = {[0; 1]}.
Proof.
  destruct (Start_discards_assignments policy_2cpus stale ["old"])
    as (s' & Hs & Ha & Hd & _); [vm_compute; reflexivity|].
  exists s'. split; [exact Hs|]. split; [exact Ha|exact Hd].
Defined.

(** X18.  A started policy admits what an idle machine can hold.  After
    [Start] on a state whose recorded utilisations were not negative, a
    container that asks for a utilisation with headroom on an idle CPU
    and for no more CPUs than the topology has is placed by
    [AddContainer]: it gets exactly the number of CPUs it asked for, and
    each of them is charged the request. *)
Theorem Start_then_AddContainer_fits
    (p : realTimePolicy) (s s0 : RtState) (range : list string)
    (range' : list (Z * float)) (container : Container) (containerID : string) :
  range ≡ₚ (map_to_list (assignments (State_ s))).*1 ->
  consistent s -> nonnegative (containerToUtil s) ->
  Start p s range = Returns s0 ->
  range' ≡ₚ map_to_list (CpuToUtilMap s0) ->
  Float64.eq (reqUtilOf container) 0 = false ->
  fits p (reqUtilOf container) 0 = true ->
  0 <= reqCpusOf container <= Z.of_nat (size (topology p)) ->
  exists s1 cpus,
    AddContainer p s0 range' container containerID = Returns (s1, None) /\
    GetRtCPUSetAndUtilOfContainer s1 containerID = Some (cpus, reqUtilOf container) /\
    Z.of_nat (size cpus) = reqCpusOf container /\
    (forall cpu, cpu ∈ cpus -> cpuToUtil s1 !! cpu = Some (0 + reqUtilOf container)%float).
Proof.
  intros Hrange Hc Hnn Hstart Hrange' Hu Hfit Hn.
  destruct (initState_spec p s range Hrange) as (s' & Hinit & Ha & Hd & Hcu & Hdom & Hidle).
  unfold Start in Hstart. rewrite Hinit in Hstart. simpl in Hstart.
  injection Hstart as <-.
  specialize (Hcu Hc). specialize (Hidle Hnn).
  set (reqUtil := reqUtilOf container) in *.
  set (cpus := worstFit p range' reqUtil (reqCpusOf container)).
  assert (Hcand : topology p ⊆ candidates p reqUtil (cpuToUtil s')).
  { intros cpu [v Hv]%Hdom. apply elem_of_candidates. exists v. split; [done|].
    by rewrite (Hidle cpu v Hv). }
  apply subseteq_size in Hcand.
  rewrite (size_candidates p _ range' Hrange') in Hcand.
  assert (Hlen : Z.of_nat (length cpus) = reqCpusOf container)
    by (apply worstFit_length; lia).
  assert (Hnew : containerToUtil s' !! containerID = None)
    by (by rewrite Hcu, lookup_empty).
  assert (Hget : GetRtCPUSetAndUtilOfContainer s' containerID = None).
  { unfold GetRtCPUSetAndUtilOfContainer, GetCPUSet. by rewrite Ha, lookup_empty. }
  exists {| State_ := SetCPUSet (State_ s') containerID (list_to_set cpus);
            containerToUtil := <[containerID := reqUtil]> (containerToUtil s');
            cpuToUtil := update_each (fun v => v + reqUtil)%float (list_to_set cpus)
                           (cpuToUtil s') |}, (list_to_set cpus).
  split; [|split; [|split]].
  - rewrite AddContainer_reqUtil. cbv zeta. fold reqUtil. rewrite Hu, Hget. fold cpus.
    destruct (Z.ltb_spec (Z.of_nat (length cpus)) (reqCpusOf container)); [lia|].
    by rewrite (SetRt_fresh _ _ _ _ Hnew).
  - unfold GetRtCPUSetAndUtilOfContainer, GetCPUSet. simpl.
    by rewrite !lookup_insert_eq.
  - rewrite size_list_to_set; [done|]. by apply (worstFit_NoDup p (CpuToUtilMap s')).
  - intros cpu Hin. simpl. rewrite update_each_lookup, decide_True by done.
    by rewrite (util_at_idle _ _ Hidle).
Qed.

Lemma Start_then_AddContainer_fits_witness :
  exists s1 cpus,
    AddContainer policy_095 fresh4 (map_to_list (CpuToUtilMap fresh4))
      (rtContainer 1000000 100000 2) "test-rt-policy" = Returns (s1, None) /\
    GetRtCPUSetAndUtilOfContainer s1 "test-rt-policy"
    = Some (cpus, reqUtilOf (rtContainer 1000000 100000 2)) /\
    Z.of_nat (size cpus) = 2.
Proof.
  destruct (Start_then_AddContainer_fits policy_095 fresh4 fresh4 []
              (map_to_list (CpuToUtilMap fresh4)) (rtContainer 1000000 100000 2)
              "test-rt-policy") as (s1 & cpus & H1 & H2 & H3 & _).
  - vm_compute. reflexivity.
  - apply (bool_decide_unpack _). vm_compute. exact I.
  - intros id u Hu. vm_compute in Hu. discriminate Hu.
  - vm_compute. reflexivity.
  - reflexivity.
  - vm_compute. reflexivity.
  - vm_compute. reflexivity.
  - vm_compute. split; discriminate.
  - exists s1, cpus. split; [exact H1|]. split; [exact H2|exact H3].
Defined.

(** *** manager.AddContainer *)

Lemma AddContainer_inv p s range container containerID s' err :
  AddContainer p s range container containerID = Returns (s', err) ->
  (forall other, other <> containerID ->
     GetRtCPUSetAndUtilOfContainer s' other = GetRtCPUSetAndUtilOfContainer s other) /\
  (is_Some err -> GetRtCPUSetAndUtilOfContainer s' containerID = None).
Proof.
  rewrite AddContainer_reqUtil. cbv zeta.
  destruct (Float64.eq (reqUtilOf container) 0);
    [intros [= <- <-]; split; [done|by intros [? ?]]|].
  destruct (GetRtCPUSetAndUtilOfContainer s containerID) as [x|] eqn:Eg;
    [intros [= <- <-]; split; [done|by intros [? ?]]|].
  destruct (_ <? _); [by intros [= <- <-]|].
  destruct (SetRtCPUSetAndUtilOfContainer _ _ _ _) as [s1|msg] eqn:Es; simpl; [|done].
  intros [= <- <-]. split; [|by intros [? ?]].
  intros other Hne. apply SetRt_inv in Es as [Hst Hcu].
  unfold GetRtCPUSetAndUtilOfContainer, GetCPUSet. rewrite Hst, Hcu. simpl.
  by rewrite !lookup_insert_ne.
Qed.

Lemma RemoveContainer_inv p s containerID s' err :
  RemoveContainer p s containerID = Returns (s', err) ->
  err = None /\
  forall other,
    GetRtCPUSetAndUtilOfContainer s' other
    = if decide (other = containerID) then None
      else GetRtCPUSetAndUtilOfContainer s other.
Proof.
  unfold RemoveContainer.
  destruct (GetRtCPUSetAndUtilOfContainer s containerID) as [[cs u]|] eqn:Eg.
  - rewrite (Delete_rt _ _ _ _ Eg). simpl. intros [= <- <-]. split; [done|].
    intros other. unfold GetRtCPUSetAndUtilOfContainer, GetCPUSet. simpl.
    destruct (decide (other = containerID)) as [->|Hne].
    + by rewrite lookup_delete_eq.
    + by rewrite !lookup_delete_ne.
  - intros [= <- <-]. split; [done|]. intros other.
    destruct (decide (other = containerID)) as [->|Hne]; done.
Qed.

(** X19.  An error of [manager.AddContainer] leaves the container
    without a real-time assignment.  Whether the policy refused the
    container or the runtime's [UpdateContainerResources] failed, when
    the call returns an error the container has no real-time assignment
    in the state it leaves (one it had before the call is rolled back
    with it), and every other container has the assignment it had.
    The call is taken on its own: the manager gives up its mutex around
    the call of the runtime, and what another call does to the state in
    between is not part of this statement. *)
Theorem manager_AddContainer_error_rolls_back
    {E : Type} (GetCPUSetOrDefault : State -> string -> CPUSet)
    (UpdateContainerResources : string -> CPUSet -> option E)
    (p : realTimePolicy) (s s' : RtState) (range : list (Z * float))
    (c : Container) (containerID : string) (err : manager.managerError) :
  manager.AddContainer GetCPUSetOrDefault UpdateContainerResources p s range c containerID
  = Returns (s', Some err) ->
  GetRtCPUSetAndUtilOfContainer s' containerID = None /\
  (forall other, other <> containerID ->
     GetRtCPUSetAndUtilOfContainer s' other = GetRtCPUSetAndUtilOfContainer s other).
Proof.
  unfold manager.AddContainer.
  destruct (AddContainer p s range c containerID) as [[s1 e1]|msg] eqn:Eadd; simpl; [|done].
  apply AddContainer_inv in Eadd as [Hothers Herr].
  destruct e1 as [e1|].
  - intros [= <- <-]. split; [|done]. apply Herr. by eexists.
  - destruct (decide (GetCPUSetOrDefault (State_ s1) containerID ≠ ∅)); [|done].
    unfold manager.updateContainerCPUSet.
    destruct (UpdateContainerResources containerID _) as [e|]; [|done].
    destruct (RemoveContainer p s1 containerID) as [[s2 e2]|msg] eqn:Erm; simpl; [|done].
    apply RemoveContainer_inv in Erm as [_ Hrm].
    intros [= <- <-]. split.
    + rewrite Hrm. by rewrite decide_True.
    + intros other Hne. rewrite Hrm, decide_False by done. by apply Hothers.
Qed.

Lemma manager_AddContainer_error_rolls_back_witness :
  GetRtCPUSetAndUtilOfContainer fresh2 "a" = None.
Proof.
  refine (proj1 (manager_AddContainer_error_rolls_back cpuSetOrDefault runtimeFails
                   policy_095 fresh2_a fresh2 visit_01 (rtContainer 10 5 1) "a"
                   (manager.RuntimeError "runtime: update failed") _)).
  vm_compute. reflexivity.
Defined.

(** *** removeStaleState *)

Section stale.
Context {E : Type} (ParseString : string -> E + string).

Lemma podContainerIDs_None pstatus names acc :
  Exists (fun name => exists err, manager.findContainerIDByName ParseString pstatus name = inl err) names ->
  manager.podContainerIDs ParseString pstatus names acc = None.
Proof.
  revert acc. induction names as [|name names IH]; intros acc Hex; simpl.
  - by apply Exists_nil in Hex.
  - destruct (manager.findContainerIDByName ParseString pstatus name) as [err|id] eqn:Ef; [done|].
    apply Exists_cons in Hex as [[err Herr]|Hex]; [congruence|]. by apply IH.
Qed.

Lemma podContainerIDs_Some pstatus names acc :
  Forall (fun name => exists containerID, manager.findContainerIDByName ParseString pstatus name = inr containerID) names ->
  exists live,
    manager.podContainerIDs ParseString pstatus names acc = Some live /\
    forall id, id ∈ live <->
               id ∈ acc \/ exists name, name ∈ names /\ manager.findContainerIDByName ParseString pstatus name = inr id.
Proof.
  revert acc. induction names as [|name names IH]; intros acc Hall; simpl.
  - exists acc. split; [done|]. intros id. split; [by left|].
    by intros [?|(? & ?%elem_of_nil & _)].
  - apply Forall_cons in Hall as [[cid Hcid] Hall]. rewrite Hcid.
    destruct (IH ({[cid]} ∪ acc) Hall) as (live & -> & Hlive).
    exists live. split; [done|]. intros id. rewrite Hlive, elem_of_union, elem_of_singleton.
    split.
    + intros [[->|?]|(n & Hn & Hf)].
      * right. exists name. split; [by left|done].
      * by left.
      * right. exists n. split; [by right|done].
    + intros [?|(n & [->|Hn]%elem_of_cons & Hf)].
      * left. by right.
      * left. left. congruence.
      * right. eauto.
Qed.

Lemma activeContainerIDs_None GetPodStatus activePods acc :
  Exists (manager.unresolved ParseString GetPodStatus) activePods ->
  manager.activeContainerIDs ParseString GetPodStatus activePods acc = None.
Proof.
  revert acc. induction activePods as [|pod pods IH]; intros acc Hex; simpl.
  - by apply Exists_nil in Hex.
  - destruct (GetPodStatus (manager.UID pod)) as [pstatus|] eqn:Es; [|done].
    destruct (manager.podContainerIDs ParseString pstatus _ acc) as [acc'|] eqn:Ep; [|done].
    apply Exists_cons in Hex as [Hbad|Hex]; [|by apply IH].
    unfold manager.unresolved in Hbad. rewrite Es in Hbad.
    by rewrite (podContainerIDs_None _ _ _ Hbad) in Ep.
Qed.

Lemma activeContainerIDs_Some GetPodStatus activePods acc :
  Forall (manager.resolves ParseString GetPodStatus) activePods ->
  exists live,
    manager.activeContainerIDs ParseString GetPodStatus activePods acc = Some live /\
    forall id, id ∈ live <->
               id ∈ acc \/ manager.isActive ParseString GetPodStatus activePods id.
Proof.
  revert acc. induction activePods as [|pod pods IH]; intros acc Hall; simpl.
  - exists acc. split; [done|]. intros id. split; [by left|].
    by intros [?|(? & ? & ? & ?%elem_of_nil & _)].
  - apply Forall_cons in Hall as [(pstatus & Hst & Hnames) Hall]. rewrite Hst.
    destruct (podContainerIDs_Some pstatus _ acc Hnames) as (acc' & -> & Hacc').
    destruct (IH acc' Hall) as (live & -> & Hlive).
    exists live. split; [done|]. intros id. rewrite Hlive, Hacc'. split.
    + intros [[?|(n & Hn & Hf)]|(pod' & ps & n & Hin & Hs & Hn & Hf)].
      * by left.
      * right. exists pod, pstatus, n. split; [by left|done].
      * right. exists pod', ps, n. split; [by right|done].
    + intros [?|(pod' & ps & n & [->|Hin]%elem_of_cons & Hs & Hn & Hf)].
      * left. by left.
      * left. right. exists n. split; [done|]. congruence.
      * right. exists pod', ps, n. done.
Qed.

Lemma RemoveContainer_cpuset p s containerID s' err other :
  RemoveContainer p s containerID = Returns (s', err) ->
  other <> containerID ->
  GetCPUSet (State_ s') other = GetCPUSet (State_ s) other.
Proof.
  unfold RemoveContainer.
  destruct (GetRtCPUSetAndUtilOfContainer s containerID) as [[cs u]|] eqn:Eg.
  - rewrite (Delete_rt _ _ _ _ Eg). simpl. intros [= <- <-] Hne.
    unfold GetCPUSet. simpl. by rewrite lookup_delete_ne.
  - by intros [= <- <-].
Qed.

Lemma RemoveContainer_returns p s containerID :
  exists s', RemoveContainer p s containerID = Returns (s', None).
Proof.
  unfold RemoveContainer.
  destruct (GetRtCPUSetAndUtilOfContainer s containerID) as [[cs u]|] eqn:Eg;
    [|by eexists].
  rewrite (Delete_rt _ _ _ _ Eg). simpl. by eexists.
Qed.

Lemma removeInactive_spec p s live range :
  exists s',
    manager.removeInactive p s live range = Returns s' /\
    (forall id, id ∈ live ->
       GetRtCPUSetAndUtilOfContainer s' id = GetRtCPUSetAndUtilOfContainer s id /\
       GetCPUSet (State_ s') id = GetCPUSet (State_ s) id) /\
    (forall id, id ∉ live ->
       GetRtCPUSetAndUtilOfContainer s' id
       = if decide (id ∈ range) then None else GetRtCPUSetAndUtilOfContainer s id).
Proof.
  revert s. induction range as [|cid range IH]; intros s; cbn [manager.removeInactive].
  - exists s. split; [done|]. split; [done|]. intros id _.
    by rewrite decide_False by by intros ?%elem_of_nil.
  - destruct (decide (cid ∈ live)) as [Hlive|Hdead].
    + destruct (IH s) as (s' & -> & Hkeep & Hgone). exists s'. split; [done|].
      split; [done|]. intros id Hid. rewrite (Hgone id Hid).
      destruct (decide (id ∈ range)) as [Hr|Hr].
      * by rewrite decide_True by by right.
      * rewrite decide_False; [done|]. intros [->|?]%elem_of_cons; done.
    + destruct (RemoveContainer_returns p s cid) as [s1 Hrm]. rewrite Hrm. simpl.
      destruct (IH s1) as (s' & -> & Hkeep & Hgone). exists s'. split; [done|].
      pose proof (proj2 (RemoveContainer_inv _ _ _ _ _ Hrm)) as Hrt.
      split.
      * intros id Hid. destruct (Hkeep id Hid) as [-> ->].
        assert (id <> cid) by (by intros ->).
        rewrite Hrt, decide_False by done. split; [done|].
        by apply (RemoveContainer_cpuset _ _ _ _ _ _ Hrm).
      * intros id Hid. rewrite (Hgone id Hid), Hrt.
        destruct (decide (id ∈ range)) as [Hr|Hr].
        -- by rewrite decide_True by by right.
        -- destruct (decide (id = cid)) as [->|Hne].
           ++ by rewrite decide_True by by left.
           ++ rewrite decide_False; [done|]. by intros [?|?]%elem_of_cons.
Qed.

(** X20.  [removeStaleState] removes nothing unless it is sure: when the
    sources are not all ready, when there is no active pod, or when some
    active pod has no status or a container whose ID cannot be resolved,
    it leaves the state as it is. *)
Theorem removeStaleState_skips_when_unsure
    (p : realTimePolicy) (s : RtState) (AllReady : bool)
    (activePods : list manager.Pod) (GetPodStatus : string -> option manager.PodStatus)
    (range : list string) :
  AllReady = false \/ activePods = []
  \/ Exists (manager.unresolved ParseString GetPodStatus) activePods ->
  manager.removeStaleState ParseString p s AllReady activePods GetPodStatus range
  = Returns s.
Proof.
  unfold manager.removeStaleState. intros [->|[->|Hbad]]; [done| |].
  - by destruct AllReady.
  - destruct AllReady; [|done]. simpl.
    destruct (length activePods =? 0)%nat; [done|].
    by rewrite (activeContainerIDs_None _ _ _ Hbad).
Qed.

(** X21.  When all sources are ready and every active pod has a status
    in which each of its containers resolves to an ID,
    [removeStaleState] returns a state in which exactly the containers
    of the active pods have kept their real-time assignment: a container
    some active pod resolves to has the CPU set and the utilisation it
    had, and no other container has a real-time assignment. *)
Theorem removeStaleState_keeps_active_only
    (p : realTimePolicy) (s : RtState)
    (activePods : list manager.Pod) (GetPodStatus : string -> option manager.PodStatus)
    (range : list string) :
  activePods <> [] ->
  Forall (manager.resolves ParseString GetPodStatus) activePods ->
  range ≡ₚ (map_to_list (assignments (State_ s))).*1 ->
  exists s',
    manager.removeStaleState ParseString p s true activePods GetPodStatus range
    = Returns s' /\
    forall containerID,
      (manager.isActive ParseString GetPodStatus activePods containerID ->
       GetRtCPUSetAndUtilOfContainer s' containerID
       = GetRtCPUSetAndUtilOfContainer s containerID /\
       GetCPUSet (State_ s') containerID = GetCPUSet (State_ s) containerID) /\
      (~ manager.isActive ParseString GetPodStatus activePods containerID ->
       GetRtCPUSetAndUtilOfContainer s' containerID = None).
Proof.
  intros Hpods Hall Hrange. unfold manager.removeStaleState. simpl.
  destruct activePods as [|pod pods]; [done|]. cbn [length Nat.eqb].
  destruct (activeContainerIDs_Some GetPodStatus (pod :: pods) ∅ Hall)
    as (live & -> & Hlive).
  destruct (removeInactive_spec p s live range) as (s' & -> & Hkeep & Hgone).
  exists s'. split; [done|]. intros id. split.
  - intros Hact. apply Hkeep, Hlive. by right.
  - intros Hdead. rewrite Hgone.
    + destruct (decide (id ∈ range)) as [|Hout]; [done|].
      unfold GetRtCPUSetAndUtilOfContainer, GetCPUSet.
      destruct (assignments (State_ s) !! id) as [cs|] eqn:Ea; [|done].
      exfalso. apply Hout. rewrite Hrange. apply list_elem_of_fmap.
      exists (id, cs). split; [done|]. by apply elem_of_map_to_list.
    + intros [Hin|Hact]%Hlive; [by apply elem_of_empty in Hin|done].
Qed.

End stale.

Lemma removeStaleState_skips_when_unsure_witness :
  manager.removeStaleState parseID policy_095 fresh2_a false [activePod] statusOf ["a"]
  = Returns fresh2_a.
Proof.
  apply (removeStaleState_skips_when_unsure parseID policy_095 fresh2_a false
           [activePod] statusOf ["a"]).
  left. reflexivity.
Defined.

Lemma removeStaleState_keeps_active_only_witness :
  exists s',
    manager.removeStaleState parseID policy_095 fresh2_a true [activePod] statusOf ["a"]
    = Returns s'.
Proof.
  destruct (removeStaleState_keeps_active_only parseID policy_095 fresh2_a
              [activePod] statusOf ["a"]) as (s' & Hs' & _).
  - discriminate.
  - repeat constructor. exists podStatus. split; [reflexivity|].
    repeat constructor. exists "b". reflexivity.
  - vm_compute. reflexivity.
  - exists s'. exact Hs'.
Defined.

End manager_facts.

(* ===================================================================== *)
(** ** Balanced resource allocation: overbooking, balance and the order
       of the visit *)
(* ===================================================================== *)

Module scorer_facts.
Import priorities priorities_facts.

(** The sign of the operands of a rounding does not show in the
    magnitude of the result. *)
Lemma SFabs_binary_normalize_opp m e :
  SFabs (binary_normalize prec emax (- m) e false)
  = SFabs (binary_normalize prec emax m e false).
Proof.
  destruct m as [|q|q]; simpl; [reflexivity| |];
    unfold binary_round;
    destruct (shl_align q e (fexp prec emax (Z.pos (digits2_pos q) + e))) as [mz ez];
    unfold binary_round_aux;
    destruct (shr_fexp prec emax (Z.pos mz) ez loc_Exact) as [mrs' e'];
    destruct (shr_fexp prec emax _ e' loc_Exact) as [mrs'' e''];
    destruct (shr_m mrs''); try reflexivity;
    destruct (Z.leb e'' (emax - prec)); reflexivity.
Qed.

Lemma SFabs_SFsub_comm x y :
  SFabs (SFsub prec emax x y) = SFabs (SFsub prec emax y x).
Proof.
  destruct x as [[]|[]| |sx mx ex], y as [[]|[]| |sy my ey]; try reflexivity.
  simpl. rewrite (Z.min_comm ey ex).
  set (ez := Z.min ex ey).
  rewrite <- SFabs_binary_normalize_opp. f_equal. f_equal. lia.
Qed.

(** |a - b| = |b - a|, in float64. *)
Lemma Abs_sub_comm a b : Float64.Abs (a - b) = Float64.Abs (b - a).
Proof.
  unfold Float64.Abs. apply Prim2SF_inj.
  rewrite !abs_spec, !sub_spec. apply SFabs_SFsub_comm.
Qed.

(** A finite float64 minus itself is 0. *)
Lemma sub_self x : Float64.finite x -> (x - x)%float = 0%float.
Proof.
  unfold Float64.finite. intros Hx. apply Prim2SF_inj. rewrite sub_spec.
  destruct (Prim2SF x) as [[]|[]| |sx mx ex]; try done; try reflexivity.
  simpl. rewrite Z.min_id, Z.sub_diag. reflexivity.
Qed.

(** X22.  One overbooked resource is enough for the score 0: if the
    fraction of any requested resource the loop visits is 1 or more, the
    score is 0, whatever the other resources, the order of the visit and
    the volumes are.  A resource asked for on a node without capacity
    for it counts as overbooked. *)
Theorem overbooked_resource_scores_zero
    (gate : bool) (requested allocable : ResourceToValueMap) (range : list string)
    (includeVolumes : bool) (requestedVolumes allocatableVolumes : Z) (request : string) :
  request ∈ range ->
  Float64.ge (fractionOfCapacity (valueOf requested request) (valueOf allocable request)) 1
  = true
  \/ (valueOf requested request <> 0 /\ valueOf allocable request = 0) ->
  balancedResourceScorer gate requested allocable range includeVolumes
    requestedVolumes allocatableVolumes = Some 0.
Proof.
  intros Hin Hover. unfold balancedResourceScorer.
  rewrite resourceFractions_overbooked; [done|].
  apply Exists_exists. exists request. split; [done|].
  destruct Hover as [Hge|[Hr Hc]]; [done|].
  unfold fractionOfCapacity. rewrite Hc.
  destruct (Z.eqb_spec (valueOf requested request) 0); [done|]. reflexivity.
Qed.

Lemma overbooked_resource_scores_zero_witness :
  balancedResourceScorer true {[ "cpu" := 1; "memory" := 5 ]} {[ "cpu" := 1000 ]}
    ["cpu"; "memory"] true 1 10 = Some 0.
Proof.
  apply (overbooked_resource_scores_zero true _ _ ["cpu"; "memory"] true 1 10 "memory").
  - apply list_elem_of_In. simpl. tauto.
  - right. vm_compute. split; [discriminate|reflexivity].
Defined.

(** X23.  With two requested resources and no volume fraction the score
    does not depend on the order in which the loop visits the map: the
    two orders give the same score. *)
Theorem two_resources_any_order
    (gate : bool) (requested allocable : ResourceToValueMap) (r1 r2 : string)
    (range : list string)
    (includeVolumes : bool) (requestedVolumes allocatableVolumes : Z) :
  range ≡ₚ [r1; r2] ->
  includeVolumes && gate && (0 <? allocatableVolumes) = false ->
  balancedResourceScorer gate requested allocable range includeVolumes
    requestedVolumes allocatableVolumes
  = balancedResourceScorer gate requested allocable [r1; r2] includeVolumes
      requestedVolumes allocatableVolumes.
Proof.
  intros Hperm Hvol. symmetry in Hperm.
  apply Permutation_length_2_inv in Hperm as [->| ->]; [done|].
  unfold balancedResourceScorer. simpl. rewrite Hvol.
  set (f1 := fractionOfCapacity (valueOf requested r1) (valueOf allocable r1)).
  set (f2 := fractionOfCapacity (valueOf requested r2) (valueOf allocable r2)).
  destruct (Float64.ge f1 1), (Float64.ge f2 1); simpl; try reflexivity.
  by rewrite (Abs_sub_comm f2 f1).
Qed.

Lemma two_resources_any_order_witness :
  balancedResourceScorer true {[ "cpu" := 3000; "memory" := 5000 ]}
    {[ "cpu" := 4000; "memory" := 10000 ]} ["memory"; "cpu"] false 0 0
  = balancedResourceScorer true {[ "cpu" := 3000; "memory" := 5000 ]}
      {[ "cpu" := 4000; "memory" := 10000 ]} ["cpu"; "memory"] false 0 0.
Proof.
  apply (two_resources_any_order true _ _ "cpu" "memory" ["memory"; "cpu"] false 0 0).
  - apply Permutation_swap.
  - reflexivity.
Defined.

(** X24.  A node that is equally full in both of two requested
    resources gets the maximum score: when the two fractions are the
    same float64 value in [0, 1) and no volume fraction is added, the
    score is MaxNodeScore. *)
Theorem balanced_node_scores_max
    (gate : bool) (requested allocable : ResourceToValueMap) (r1 r2 : string)
    (includeVolumes : bool) (requestedVolumes allocatableVolumes : Z) :
  let f1 := fractionOfCapacity (valueOf requested r1) (valueOf allocable r1) in
  let f2 := fractionOfCapacity (valueOf requested r2) (valueOf allocable r2) in
  f1 = f2 ->
  PrimFloat.leb 0 f1 = true -> PrimFloat.ltb f1 1 = true ->
  includeVolumes && gate && (0 <? allocatableVolumes) = false ->
  balancedResourceScorer gate requested allocable [r1; r2] includeVolumes
    requestedVolumes allocatableVolumes = Some MaxNodeScore.
Proof.
  intros f1 f2 Heq H0 H1 Hvol. unfold balancedResourceScorer. simpl.
  fold f1 f2. rewrite <- Heq. rewrite (lt_not_ge _ _ H1). simpl. rewrite Hvol.
  rewrite (sub_self f1) by by apply between_0_1_finite.
  vm_compute. reflexivity.
Qed.

Lemma balanced_node_scores_max_witness :
  balancedResourceScorer true {[ "cpu" := 3000; "memory" := 6000 ]}
    {[ "cpu" := 4000; "memory" := 8000 ]} ["cpu"; "memory"] false 0 0
  = Some 100.
Proof.
  apply (balanced_node_scores_max true {[ "cpu" := 3000; "memory" := 6000 ]}
           {[ "cpu" := 4000; "memory" := 8000 ]} "cpu" "memory" false 0 0);
    vm_compute; reflexivity.
Defined.

End scorer_facts.

(* ===================================================================== *)
(** ** The QoS class: what it does not depend on *)
(* ===================================================================== *)

Module qos_more_facts.
Import qos qos_facts.

Lemma union_with_plus_swap (a b c : ResourceList) :
  union_with plus a (union_with plus b c) = union_with plus b (union_with plus a c).
Proof.
  apply map_eq. intros k. rewrite !lookup_union_with.
  destruct (a !! k), (b !! k), (c !! k); simpl; f_equal; lia.
Qed.

Lemma aggregate_perm lists lists' : lists ≡ₚ lists' -> aggregate lists = aggregate lists'.
Proof.
  intros Hperm. unfold aggregate.
  apply (foldr_permutation (=) (union_with plus) ∅).
  - intros j1 a1 j2 a2 b _ _ _. apply union_with_plus_swap.
  - by apply fmap_Permutation.
Qed.

Lemma forallb_perm {A} (f : A -> bool) l l' : l ≡ₚ l' -> forallb f l = forallb f l'.
Proof.
  induction 1 as [|x l l' _ IH|x y l|l l' l'' _ IH1 _ IH2]; simpl.
  - done.
  - by rewrite IH.
  - by destruct (f x), (f y).
  - by rewrite IH1.
Qed.

Lemma union_with_plus_empty (a b : ResourceList) :
  union_with plus a b = ∅ <-> a = ∅ /\ b = ∅.
Proof.
  split.
  - intros H. split; apply map_eq; intros k; rewrite lookup_empty;
      apply (f_equal (fun m : ResourceList => m !! k)) in H;
      rewrite lookup_union_with, lookup_empty in H;
      by destruct (a !! k), (b !! k).
  - intros [-> ->]. apply union_with_empty_l.
Qed.

Lemma aggregate_empty lists :
  aggregate lists = ∅ <-> Forall (fun list => positivePart list = ∅) lists.
Proof.
  unfold aggregate. induction lists as [|list lists IH]; simpl.
  - split; [constructor|done].
  - rewrite union_with_plus_empty, IH, Forall_cons. done.
Qed.

Lemma positivePart_empty (list : ResourceList) :
  positivePart list = ∅ <->
  forall name quantity, list !! name = Some quantity ->
                        name ∈ supportedQoSComputeResources -> quantity <= 0.
Proof.
  split.
  - intros H name quantity Hl Hs. destruct (decide (0 < quantity)) as [Hpos|]; [|lia].
    assert (positivePart list !! name = Some quantity) as Hp
      by (by apply positivePart_lookup).
    rewrite H in Hp. by rewrite lookup_empty in Hp.
  - intros H. apply map_eq. intros name. rewrite lookup_empty.
    destruct (positivePart list !! name) as [q|] eqn:E; [|done].
    apply positivePart_lookup in E as (Hl & Hs & Hq). specialize (H name q Hl Hs). lia.
Qed.

Lemma size_zero_empty (m : ResourceList) : (size m =? 0)%nat = true <-> m = ∅.
Proof. rewrite Nat.eqb_eq. apply map_size_empty_iff. Qed.

(** X25.  The class of a pod does not depend on the order of its
    containers, nor on which of them are init containers: two pods with
    the same containers, up to the order of [Containers ++ InitContainers],
    are in the same class. *)
Theorem GetPodQOS_any_container_order (pod pod' : Pod) :
  allContainers pod ≡ₚ allContainers pod' ->
  GetPodQOS pod = GetPodQOS pod'.
Proof.
  intros Hperm. rewrite !GetPodQOS_unfold.
  assert (R pod = R pod') as -> by (by apply aggregate_perm, fmap_Permutation).
  assert (L pod = L pod') as -> by (by apply aggregate_perm, fmap_Permutation).
  by rewrite (forallb_perm limitsComplete _ _ Hperm).
Qed.

Lemma GetPodQOS_any_container_order_witness :
  GetPodQOS {| Containers := [ {| Requests := {[ "cpu" := 500 ]}; Limits := ∅ |} ];
               InitContainers := [ {| Requests := ∅; Limits := {[ "memory" := 64 ]} |} ] |}
  = GetPodQOS {| Containers := [ {| Requests := ∅; Limits := {[ "memory" := 64 ]} |};
                                 {| Requests := {[ "cpu" := 500 ]}; Limits := ∅ |} ];
                 InitContainers := [] |}.
Proof.
  apply GetPodQOS_any_container_order. simpl. apply Permutation_swap.
Defined.

Lemma samePositive_lists l l' :
  Forall2 samePositive l l' ->
  positivePart <$> (Requests <$> l) = positivePart <$> (Requests <$> l') /\
  positivePart <$> (Limits <$> l) = positivePart <$> (Limits <$> l') /\
  forallb limitsComplete l = forallb limitsComplete l'.
Proof.
  induction 1 as [|c c' l l' [Hr Hl] _ (IHr & IHl & IHc)]; [done|].
  rewrite !fmap_cons, Hr, Hl, IHr, IHl. split; [done|]. split; [done|].
  cbn [forallb]. rewrite IHc. f_equal.
  unfold limitsComplete, LimitsComplete. by rewrite Hl.
Qed.

(** X26.  Only the positive quantities under the recognised names
    count: two pods whose containers have, one by one, the same positive
    recognised requests and the same positive recognised limits are in
    the same class, whatever zero or negative quantities and whatever
    other resource names they carry. *)
Theorem GetPodQOS_reads_positive_recognised (pod pod' : Pod) :
  Forall2 samePositive (allContainers pod) (allContainers pod') ->
  GetPodQOS pod = GetPodQOS pod'.
Proof.
  intros Hsame. rewrite !GetPodQOS_unfold.
  destruct (samePositive_lists _ _ Hsame) as (HR & HL & HC).
  unfold R, L, aggregate. by rewrite HR, HL, HC.
Qed.

Lemma GetPodQOS_reads_positive_recognised_witness :
  GetPodQOS {| Containers := [ {| Requests := {[ "cpu" := 500; "example.com/gpu" := 1 ]};
                                  Limits := {[ "memory" := 0 ]} |} ];
               InitContainers := [] |}
  = GetPodQOS {| Containers := [ {| Requests := {[ "cpu" := 500 ]}; Limits := ∅ |} ];
                 InitContainers := [] |}.
Proof.
  apply GetPodQOS_reads_positive_recognised. simpl.
  constructor; [|constructor]. split; vm_compute; reflexivity.
Defined.

(** X27.  A pod is BestEffort exactly when none of its containers, init
    containers included, carries a positive quantity under a recognised
    resource name, neither as a request nor as a limit.  A pod without
    containers is BestEffort. *)
Theorem GetPodQOS_BestEffort_iff (pod : Pod) :
  GetPodQOS pod = PodQOSBestEffort <-> Forall asksNothing (allContainers pod).
Proof.
  rewrite GetPodQOS_unfold.
  assert (Hiff : (size (R pod) =? 0)%nat && (size (L pod) =? 0)%nat = true
                 <-> Forall asksNothing (allContainers pod)).
  { rewrite andb_true_iff, !size_zero_empty. unfold R, L.
    rewrite !aggregate_empty, !Forall_fmap, <- Forall_and.
    apply Forall_iff. intros c. simpl. rewrite !positivePart_empty.
    unfold asksNothing. split.
    - intros [Hr Hl] name q [H|H]; eauto.
    - intros H. split; intros name q Hq; apply H; eauto. }
  destruct ((size (R pod) =? 0)%nat && (size (L pod) =? 0)%nat).
  - split; [intros _; by apply Hiff|done].
  - split; [|intros H; apply Hiff in H; discriminate].
    by destruct (_ && _).
Qed.

End qos_more_facts.

(* ===================================================================== *)
(** ** The PreStart hook and the cgroup files *)
(* ===================================================================== *)

Module lifecycle_facts.
Import cm scenarios.

Section lifecycle.
Context {E : Type}.
Variables (Join : string -> string -> string) (Dir : string -> string)
          (CPUSet_String : CPUSet -> string) (FormatInt : Z -> string).
Variable i : preStartCollaborators (E := E).

Lemma attempted_all plan : ~ Exists (fun c : fsCall => is_Some (fs i c)) plan -> attempted i plan = plan.
Proof.
  induction plan as [|c plan IH]; [done|]. rewrite Exists_cons. intros Hno. simpl.
  destruct (fs i c) as [err|] eqn:Ec.
  - exfalso. apply Hno. left. by eexists.
  - rewrite IH; [done|]. intros ?. apply Hno. by right.
Qed.

Lemma attempted_app_failed plan plan' :
  Exists (fun c : fsCall => is_Some (fs i c)) plan -> attempted i (plan ++ plan') = attempted i plan.
Proof.
  induction plan as [|c plan IH]; [by intros ?%Exists_nil|].
  rewrite Exists_cons. intros Hex. simpl. destruct (fs i c) as [err|] eqn:Ec; [done|].
  rewrite IH; [done|]. destruct Hex as [[? ?]|?]; [congruence|done].
Qed.

Lemma attempted_app_passed plan plan' :
  ~ Exists (fun c : fsCall => is_Some (fs i c)) plan -> attempted i (plan ++ plan') = plan ++ attempted i plan'.
Proof.
  induction plan as [|c plan IH]; [done|]. rewrite Exists_cons. intros Hno. simpl.
  destruct (fs i c) as [err|] eqn:Ec.
  - exfalso. apply Hno. left. by eexists.
  - rewrite IH; [done|]. intros ?. apply Hno. by right.
Qed.

Lemma runs_andThen a b plan plan' :
  runs i a plan -> runs i b plan' -> runs i (andThen a b) (plan ++ plan').
Proof.
  destruct a as [calls [err|]], b as [calls' err']; unfold runs; simpl;
    intros [-> Ha] [-> Hb].
  - assert (Exists (fun c : fsCall => is_Some (fs i c)) plan) as Hex by (apply Ha; by eexists).
    split; [by rewrite attempted_app_failed|].
    rewrite Exists_app. split; [by left|by eexists].
  - assert (~ Exists (fun c : fsCall => is_Some (fs i c)) plan) as Hno by (intros [? ?]%Ha; done).
    split; [by rewrite attempted_app_passed, attempted_all|].
    rewrite Exists_app, Hb. split; [by right|by intros [?|?]].
Qed.

Lemma runs_writeRtFile cgroupFs value :
  runs i (writeRtFile Dir FormatInt i cgroupFs value)
    [MkdirAll (Dir cgroupFs); WriteFile cgroupFs (FormatInt value)].
Proof.
  unfold runs, writeRtFile. simpl. rewrite !Exists_cons, Exists_nil.
  destruct (fs i (MkdirAll (Dir cgroupFs))) as [err|]; simpl.
  - split; [done|]. split; [left|]; by eexists.
  - destruct (fs i (WriteFile cgroupFs (FormatInt value))) as [err|]; simpl.
    + split; [done|]. split; [right; left|]; by eexists.
    + split; [done|]. split; [by intros [? ?]|]. by intros [[? ?]|[[? ?]|?]].
Qed.

Lemma runs_writeCpuRtMultiRuntimeFile cgroupFs cpuSet rtRuntime :
  runs i (writeCpuRtMultiRuntimeFile Join CPUSet_String FormatInt i cgroupFs cpuSet rtRuntime)
    (runtimeFile Join CPUSet_String FormatInt cgroupFs cpuSet rtRuntime).
Proof.
  unfold runs, writeCpuRtMultiRuntimeFile, runtimeFile.
  destruct (decide (cpuSet = ∅)); simpl.
  - rewrite Exists_nil. split; [done|]. split; [by intros [? ?]|done].
  - rewrite !Exists_cons, Exists_nil.
    destruct (fs i (MkdirAll cgroupFs)) as [err|]; simpl.
    + split; [done|]. split; [left|]; by eexists.
    + destruct (fs i (WriteFile _ _)) as [err|]; simpl.
      * split; [done|]. split; [right; left|]; by eexists.
      * split; [done|]. split; [by intros [? ?]|]. by intros [[? ?]|[[? ?]|?]].
Qed.

Lemma ensureCpuRtMultiRuntime_runs cpuRtPeriod cpuRtRuntime containerID mount :
  MountPoints i !! "cpu" = Some mount ->
  exists r,
    ensureCpuRtMultiRuntime Join Dir CPUSet_String FormatInt i
      cpuRtPeriod cpuRtRuntime containerID = Returns r /\
    runs i r (cgroupFiles Join Dir CPUSet_String FormatInt
                (Join mount (GetPodContainerName i))
                (default ∅ (cpuManager_State_GetCPUSet i containerID))
                cpuRtPeriod cpuRtRuntime containerID).
Proof.
  intros Hmount. unfold ensureCpuRtMultiRuntime. rewrite Hmount.
  eexists. split; [reflexivity|]. unfold cgroupFiles, periodFile.
  repeat apply runs_andThen;
    first [apply runs_writeRtFile | apply runs_writeCpuRtMultiRuntimeFile].
Qed.

(** X28.  [ensureCpuRtMultiRuntime] writes the cgroup files in a fixed
    order and stops at the first call on the file system that (fun c : fsCall => is_Some (fs i c)).
    With the cpu subsystem mounted it returns; the calls it made are
    those of the list: pod period file, pod runtime file, container
    period file, container runtime file (each a [MkdirAll] followed by a
    [WriteFile]), cut off behind the first call that failed; and it
    returns an error exactly when one of them failed.  The two runtime
    files are left out when the CPU set of the container is empty. *)
Theorem ensureCpuRtMultiRuntime_writes_in_order
    (cpuRtPeriod cpuRtRuntime : Z) (containerID mount : string) :
  MountPoints i !! "cpu" = Some mount ->
  let plan := cgroupFiles Join Dir CPUSet_String FormatInt
                (Join mount (GetPodContainerName i))
                (default ∅ (cpuManager_State_GetCPUSet i containerID))
                cpuRtPeriod cpuRtRuntime containerID in
  exists err,
    ensureCpuRtMultiRuntime Join Dir CPUSet_String FormatInt i
      cpuRtPeriod cpuRtRuntime containerID
    = Returns (attempted i plan, err) /\
    (is_Some err <-> Exists (fun c => is_Some (fs i c)) plan).
Proof.
  intros Hmount plan.
  destruct (ensureCpuRtMultiRuntime_runs cpuRtPeriod cpuRtRuntime containerID mount Hmount)
    as ([calls err] & -> & Hcalls & Herr). simpl in Hcalls. subst calls.
  by exists err.
Qed.

(** X29.  When [PreStartContainer] returns without an error, everything
    it is written to do has been done: the CPU manager's [AddContainer]
    was called if its gate is on; if the CPU manager holds a CPU set for
    the container and the container requests a real-time runtime, every
    cgroup file of the list was written, none of the calls on the file
    system having failed; and the topology manager's [AddContainer] was
    called last if its gate is on.  No call failed. *)
Theorem PreStartContainer_success
    (gates : FeatureGate) (cpuRtPeriod cpuRtRuntime : Z) (containerID mount : string)
    (calls : list preStartCall) :
  MountPoints i !! "cpu" = Some mount ->
  PreStartContainer Join Dir CPUSet_String FormatInt i gates
    cpuRtPeriod cpuRtRuntime containerID = Returns (calls, None) ->
  let plan :=
    if bool_decide (is_Some (cpuManager_State_GetCPUSet i containerID))
       && negb (cpuRtRuntime =? 0)
    then cgroupFiles Join Dir CPUSet_String FormatInt
           (Join mount (GetPodContainerName i))
           (default ∅ (cpuManager_State_GetCPUSet i containerID))
           cpuRtPeriod cpuRtRuntime containerID
    else [] in
  calls = (if CPUManager gates then [CpuManagerAddContainer containerID] else [])
          ++ (FileSystem <$> plan)
          ++ (if TopologyManager gates then [TopologyManagerAddContainer containerID] else [])
  /\ (CPUManager gates = true -> cpuManager_AddContainer i containerID = None)
  /\ Forall (fun c => fs i c = None) plan
  /\ (TopologyManager gates = true -> topologyManager_AddContainer i containerID = None).
Proof.
  intros Hmount. unfold PreStartContainer.
  set (files := bool_decide (is_Some (cpuManager_State_GetCPUSet i containerID))
                && negb (cpuRtRuntime =? 0)).
  set (cpuCalls := if CPUManager gates then [CpuManagerAddContainer containerID] else []).
  assert (Hcpu :
    (if CPUManager gates
     then ([CpuManagerAddContainer containerID], cpuManager_AddContainer i containerID)
     else ([], None))
    = (cpuCalls, if CPUManager gates then cpuManager_AddContainer i containerID else None))
    by (unfold cpuCalls; by destruct (CPUManager gates)).
  rewrite Hcpu. clear Hcpu.
  destruct (if CPUManager gates then cpuManager_AddContainer i containerID else None)
    as [err|] eqn:Ecpu; [done|].
  assert (Hgate : CPUManager gates = true -> cpuManager_AddContainer i containerID = None)
    by (intros Hg; by rewrite Hg in Ecpu).
  destruct files eqn:Efiles.
  - destruct (ensureCpuRtMultiRuntime_runs cpuRtPeriod cpuRtRuntime containerID mount Hmount)
      as ([fsCalls err] & -> & Hcalls & Herr). cbn [fst snd] in Hcalls, Herr.
    remember (cgroupFiles Join Dir CPUSet_String FormatInt
                (Join mount (GetPodContainerName i))
                (default ∅ (cpuManager_State_GetCPUSet i containerID))
                cpuRtPeriod cpuRtRuntime containerID) as plan eqn:Eplan.
    clear Eplan. simpl.
    destruct err as [err|]; [done|].
    assert (Hno : ~ Exists (fun c : fsCall => is_Some (fs i c)) plan) by (intros [? ?]%Herr; done).
    rewrite (attempted_all _ Hno) in Hcalls. subst fsCalls.
    assert (Hok : Forall (fun c => fs i c = None) plan).
    { apply Forall_forall. intros c Hc. destruct (fs i c) as [e|] eqn:Ec; [|done].
      exfalso. apply Hno, Exists_exists. exists c. split; [done|by eexists]. }
    destruct (TopologyManager gates).
    + destruct (topologyManager_AddContainer i containerID) as [e|] eqn:Et; [done|].
      simpl. intros [= <-]. rewrite <- app_assoc. done.
    + intros [= <-]. rewrite app_nil_r. done.
  - simpl. destruct (TopologyManager gates).
    + destruct (topologyManager_AddContainer i containerID) as [e|] eqn:Et; [done|].
      simpl. intros [= <-]. done.
    + intros [= <-]. rewrite app_nil_r. done.
Qed.

Lemma Split_spaceless s : spaceless s = true -> Split s = [s].
Proof.
  induction s as [|c s IH]; [done|]. simpl.
  destruct (Ascii.eqb c Ascii.Space); [done|]. simpl. intros Hs. by rewrite IH.
Qed.

Lemma Split_field a b :
  spaceless a = true ->
  Split (String.append a (String.append " " b)) = a :: Split b.
Proof.
  induction a as [|c a IH]; [done|]. simpl.
  destruct (Ascii.eqb c Ascii.Space); [done|]. simpl. intros Hs. by rewrite IH.
Qed.

(** X30.  [readCpuRtMultiRuntimeFile] drops the last two fields of the
    file.  On a file without a space, the empty file included, there are
    not two fields to drop and it panics on the slice bounds.  On a file
    of two fields, which is what [writeCpuRtMultiRuntimeFile] writes
    (the CPU set, a space, the runtime), nothing is left to parse: it
    returns no runtime at all. *)
Theorem readCpuRtMultiRuntimeFile_drops_two_fields
    (ReadFile : string -> E + string) (ParseInt : string -> E + Z)
    (cgroupFs buf : string) :
  ReadFile (Join cgroupFs "cpu.rt_multi_runtime_us") = inr buf ->
  (spaceless buf = true ->
   readCpuRtMultiRuntimeFile Join ReadFile ParseInt cgroupFs
   = Panics "slice bounds out of range") /\
  (forall cpus runtime,
     buf = String.append cpus (String.append " " runtime) ->
     spaceless cpus = true -> spaceless runtime = true ->
     readCpuRtMultiRuntimeFile Join ReadFile ParseInt cgroupFs = Returns (inr [])).
Proof.
  intros Hread. unfold readCpuRtMultiRuntimeFile. rewrite Hread. split.
  - intros Hs. by rewrite (Split_spaceless _ Hs).
  - intros cpus runtime -> Hc Hr.
    by rewrite (Split_field _ _ Hc), (Split_spaceless _ Hr).
Qed.

End lifecycle.

Lemma ensureCpuRtMultiRuntime_writes_in_order_witness :
  exists err,
    ensureCpuRtMultiRuntime joinPath dirOf cpusToString intToString diskFull 1000000 100000 "c1"
    = Returns ([MkdirAll "/sys/fs/cgroup/cpu/kubepods/pod1"], err) /\ is_Some err.
Proof.
  destruct (ensureCpuRtMultiRuntime_writes_in_order joinPath dirOf cpusToString
              intToString diskFull 1000000 100000 "c1" "/sys/fs/cgroup/cpu")
    as (err & Hr & Herr); [reflexivity|].
  exists err. split; [exact Hr|].
  apply Herr. left. vm_compute. eexists. reflexivity.
Defined.

Lemma PreStartContainer_success_witness :
  Forall (fun c => fs allWorks c = None)
    (cgroupFiles joinPath dirOf cpusToString intToString
       "/sys/fs/cgroup/cpu/kubepods/pod1" {[0]} 1000000 100000 "c1").
Proof.
  refine (proj1 (proj2 (proj2
    (PreStartContainer_success joinPath dirOf cpusToString intToString allWorks allGates
       1000000 100000 "c1" "/sys/fs/cgroup/cpu" _ _ _)))).
  - reflexivity.
  - vm_compute. reflexivity.
Defined.

Lemma readCpuRtMultiRuntimeFile_drops_two_fields_witness :
  readCpuRtMultiRuntimeFile joinPath (fun _ => inr "0-1 100000") (fun _ => inl "unused")
    "/sys/fs/cgroup/cpu/kubepods/pod1"
  = Returns (inr []).
Proof.
  refine (proj2 (readCpuRtMultiRuntimeFile_drops_two_fields joinPath
                   (fun _ => inr "0-1 100000") (fun _ => inl "unused")
                   "/sys/fs/cgroup/cpu/kubepods/pod1" "0-1 100000" _) "0-1" "100000" _ _ _);
    reflexivity.
Defined.

End lifecycle_facts.
